(** * Multi-model text generation with health tracking and bounded retries

    A shallow embedding of the stateful core of the repository:

    - [anime_bot/ai/model_config.py]     the registry [AI_MODELS];
    - [anime_bot/ai/health_tracker.py]   [ModelHealthTracker];
    - [anime_bot/ai/ai_client.py]        [MultiAIClient];
    - [anime_bot/models/failure_tracker.py] [FailureTracker];
    - [anime_bot/utils/retry_handler.py] [retry_with_backoff].

    Conventions of the embedding.

    - Python [int] is [Z].  Python [float] is idealised as an exact rational
      ([Q]): rounding is not modelled.  Python [str] is [string].
    - A Python [dict] is an association list in insertion order with unique
      keys: iteration order is observable (stable sorts break ties by it).
    - Code that can raise lives in a state-and-exception monad: the state
      reached when an exception is raised is kept, as in Python, where the
      mutations done before the [raise] stay done.
    - What the program reads from outside (the clock, the random generator,
      the remote providers, the retried operation) is a parameter of the
      section that uses it. *)

From Stdlib Require Import List String Ascii ZArith QArith Bool Lia Lqa.
From Stdlib Require Import Permutation Sorting.Sorted.
From Stdlib Require Import DecimalString.
Import ListNotations.

Open Scope string_scope.
Open Scope Z_scope.

(* ===================================================================== *)
(** * Python values, exceptions and effects                               *)
(* ===================================================================== *)

(** The exceptions the modelled code can raise, all of them subclasses of
    Python's [Exception] (what [except Exception] catches). *)
Inductive exn : Type :=
| KeyError (key : string)
| ZeroDivisionError
| Exception (msg : string).

(** [str(e)] for the exceptions above. *)
Definition str_exn (e : exn) : string :=
  match e with
  | KeyError key => "'" ++ key ++ "'"
  | ZeroDivisionError => "division by zero"
  | Exception msg => msg
  end.

(** [str(n)] for an integer. *)
Definition str_int (n : Z) : string := NilZero.string_of_int (Z.to_int n).

Inductive result (A : Type) : Type :=
| Ok (a : A)
| Raise (e : exn).
Arguments Ok {A} a.
Arguments Raise {A} e.

Definition rbind {A B} (r : result A) (k : A -> result B) : result B :=
  match r with
  | Ok a => k a
  | Raise e => Raise e
  end.

Notation "'let?' x ':=' r 'in' k" := (rbind r (fun x => k))
  (at level 10, x pattern, r at level 100, k at level 200).

(** [[f(x) for x in l]] where [f] may raise: the first exception wins. *)
Fixpoint rmap {A B} (f : A -> result B) (l : list A) : result (list B) :=
  match l with
  | [] => Ok []
  | x :: l' => let? y := f x in let? ys := rmap f l' in Ok (y :: ys)
  end.

Module Eff.

(** A computation over a mutable world [W] that returns or raises. *)
Definition M (W A : Type) : Type := W -> result A * W.

Definition ret {W A} (a : A) : M W A := fun w => (Ok a, w).

Definition bind {W A B} (c : M W A) (k : A -> M W B) : M W B :=
  fun w => match c w with
           | (Ok a, w') => k a w'
           | (Raise e, w') => (Raise e, w')
           end.

Definition raise {W A} (e : exn) : M W A := fun w => (Raise e, w).

(** [try: body  except Exception as e: handler(e)] *)
Definition try_except {W A} (body : M W A) (handler : exn -> M W A) : M W A :=
  fun w => match body w with
           | (Ok a, w') => (Ok a, w')
           | (Raise e, w') => handler e w'
           end.

Definition get {W} : M W W := fun w => (Ok w, w).
Definition modify {W} (f : W -> W) : M W unit := fun w => (Ok tt, f w).
Definition of_result {W A} (r : result A) : M W A := fun w => (r, w).

(** Run a computation on a component of the world. *)
Definition zoom {W V A} (proj : W -> V) (upd : V -> W -> W) (c : M V A) : M W A :=
  fun w => let '(r, v') := c (proj w) in (r, upd v' w).

End Eff.

Declare Scope eff_scope.
Delimit Scope eff_scope with eff.
Notation "x <- c ;; k" := (Eff.bind c (fun x => k))
  (at level 61, c at next level, right associativity) : eff_scope.
Notation "c ;; k" := (Eff.bind c (fun _ => k))
  (at level 61, right associativity) : eff_scope.

(* ===================================================================== *)
(** * Dictionaries in insertion order                                     *)
(* ===================================================================== *)

Section Dict.
Context {V : Type}.

(** [d.get(k)], [None] when the key is absent. *)
Fixpoint dict_get (d : list (string * V)) (k : string) : option V :=
  match d with
  | [] => None
  | (k', v) :: d' => if String.eqb k k' then Some v else dict_get d' k
  end.

(** [d[k] = v]: an existing key keeps its position, a new key goes last. *)
Fixpoint dict_set (d : list (string * V)) (k : string) (v : V) : list (string * V) :=
  match d with
  | [] => [(k, v)]
  | (k', v') :: d' =>
      if String.eqb k k' then (k', v) :: d' else (k', v') :: dict_set d' k v
  end.

Definition dict_keys (d : list (string * V)) : list string := map fst d.

(** [d[k]], raising [KeyError] when the key is absent. *)
Definition dict_item (d : list (string * V)) (k : string) : result V :=
  match dict_get d k with
  | Some v => Ok v
  | None => Raise (KeyError k)
  end.
End Dict.

(** [x in l] for a list of strings. *)
Definition str_in (x : string) (l : list string) : bool :=
  existsb (String.eqb x) l.

(* ===================================================================== *)
(** * model_config.py                                                     *)
(* ===================================================================== *)

Record ModelInfo : Type := {
  id : string;
  provider : string;
  tier : Z;
  speed : string;
  creativity : Z;
  instruction_following : Z;
  context_length : Z;
  multimodal : bool;
  best_for : list string;
  notes : string
}.

Definition AI_MODELS : list (string * ModelInfo) :=
  [ ("gemini-2.0-flash",
     {| id := "google/gemini-2.0-flash-exp:free"; provider := "openrouter";
        tier := 1; speed := "very_fast"; creativity := 9;
        instruction_following := 9; context_length := 32768; multimodal := true;
        best_for := ["creative_writing"; "sentiment_analysis"; "image_analysis"];
        notes := "Latest Google model, excellent at social media posts" |});
    ("llama-3.3-70b",
     {| id := "meta-llama/llama-3.3-70b-instruct:free"; provider := "openrouter";
        tier := 1; speed := "fast"; creativity := 8;
        instruction_following := 10; context_length := 131072; multimodal := false;
        best_for := ["instruction_following"; "consistent_output"; "long_context"];
        notes := "70B model, very reliable, great at following prompts precisely" |});
    ("qwen-2.5-72b",
     {| id := "qwen/qwen-2.5-72b-instruct:free"; provider := "openrouter";
        tier := 1; speed := "fast"; creativity := 8;
        instruction_following := 9; context_length := 32768; multimodal := false;
        best_for := ["reasoning"; "multilingual"; "quality_check"];
        notes := "72B model, excellent for Japanese/English content" |});
    ("llama-3.1-8b",
     {| id := "meta-llama/llama-3.1-8b-instruct"; provider := "openrouter";
        tier := 2; speed := "fast"; creativity := 7;
        instruction_following := 8; context_length := 131072; multimodal := false;
        best_for := ["reasoning"; "analysis"; "quick_tasks"];
        notes := "Fast 8B model, good backup for reasoning tasks" |});
    ("hermes-3-405b",
     {| id := "nousresearch/hermes-3-llama-3.1-405b:free"; provider := "openrouter";
        tier := 2; speed := "slow"; creativity := 9;
        instruction_following := 8; context_length := 131072; multimodal := false;
        best_for := ["creative_writing"; "roleplay"];
        notes := "405B model! Very creative but slow" |});
    ("mistral-nemo",
     {| id := "mistralai/mistral-nemo:free"; provider := "openrouter";
        tier := 3; speed := "very_fast"; creativity := 7;
        instruction_following := 7; context_length := 131072; multimodal := false;
        best_for := ["quick_tasks"; "speed"];
        notes := "Fast and efficient, good for simple tasks" |});
    ("gemini-direct",
     {| id := "gemini-2.0-flash-exp"; provider := "gemini_direct";
        tier := 1; speed := "very_fast"; creativity := 9;
        instruction_following := 9; context_length := 1000000; multimodal := true;
        best_for := ["creative_writing"; "long_context"];
        notes := "Direct Gemini API - separate quota from OpenRouter!" |}) ].

(* ===================================================================== *)
(** * health_tracker.py                                                   *)
(* ===================================================================== *)

(** One entry of [ModelHealthTracker.health_status].  [is_healthy] is
    Python's [None] / [True] / [False]. *)
Record ModelStatus : Type := {
  is_healthy : option bool;
  last_success : option string;
  last_failure : option string;
  consecutive_failures : Z;
  total_calls : Z;
  total_successes : Z;
  total_failures : Z;
  avg_response_time : Q
}.

Abbreviation HealthStatus := (list (string * ModelStatus)).

Definition fresh_status : ModelStatus :=
  {| is_healthy := None; last_success := None; last_failure := None;
     consecutive_failures := 0; total_calls := 0; total_successes := 0;
     total_failures := 0; avg_response_time := 0%Q |}.

(** [ModelHealthTracker.__init__]: one fresh entry per key of [AI_MODELS],
    inserted in registry order. *)
Definition tracker_init : HealthStatus :=
  fold_left (fun hs model_name => dict_set hs model_name fresh_status)
            (dict_keys AI_MODELS) [].

(** [mark_success(model_name, response_time)]; [now] is the value of
    [datetime.now().isoformat()] at the call. *)
Definition mark_success (now : string) (model_name : string) (response_time : Q)
  : Eff.M HealthStatus unit :=
  fun hs =>
    match dict_get hs model_name with
    | None => (Raise (KeyError model_name), hs)
    | Some status =>
        let status1 :=
          {| is_healthy := Some true;
             last_success := Some now;
             last_failure := last_failure status;
             consecutive_failures := 0;
             total_calls := total_calls status + 1;
             total_successes := total_successes status + 1;
             total_failures := total_failures status;
             avg_response_time := avg_response_time status |} in
        let total := total_successes status1 in
        let current_avg := avg_response_time status1 in
        if total =? 0 then
          (Raise ZeroDivisionError, dict_set hs model_name status1)
        else
          (Ok tt,
           dict_set hs model_name
             {| is_healthy := is_healthy status1;
                last_success := last_success status1;
                last_failure := last_failure status1;
                consecutive_failures := consecutive_failures status1;
                total_calls := total_calls status1;
                total_successes := total_successes status1;
                total_failures := total_failures status1;
                avg_response_time :=
                  ((current_avg * inject_Z (total - 1) + response_time)
                   / inject_Z total)%Q |})
    end.

(** [mark_failure(model_name, error)]: the error text is not stored. *)
Definition mark_failure (now : string) (model_name : string) (error : string)
  : Eff.M HealthStatus unit :=
  fun hs =>
    match dict_get hs model_name with
    | None => (Raise (KeyError model_name), hs)
    | Some status =>
        (Ok tt,
         dict_set hs model_name
           {| is_healthy := Some false;
              last_success := last_success status;
              last_failure := Some now;
              consecutive_failures := consecutive_failures status + 1;
              total_calls := total_calls status + 1;
              total_successes := total_successes status;
              total_failures := total_failures status + 1;
              avg_response_time := avg_response_time status |})
    end.

(** [reset_model(model_name)]: a no-op on an unknown name. *)
Definition reset_model (model_name : string) : Eff.M HealthStatus unit :=
  fun hs =>
    match dict_get hs model_name with
    | None => (Ok tt, hs)
    | Some status =>
        (Ok tt,
         dict_set hs model_name
           {| is_healthy := None;
              last_success := last_success status;
              last_failure := last_failure status;
              consecutive_failures := 0;
              total_calls := total_calls status;
              total_successes := total_successes status;
              total_failures := total_failures status;
              avg_response_time := avg_response_time status |})
    end.

(** [a] occurs before [b] in [l]. *)
Definition precedes {A} (l : list A) (a b : A) : Prop :=
  exists l1 l2 l3, l = (l1 ++ a :: l2 ++ b :: l3)%list.

(** ** [list.sort(key=..., reverse=...)]

    Python's sort is stable, and with [reverse=True] it sorts as if every
    comparison were reversed, so items with equal keys keep their original
    order in both directions.  The keys are computed first, one call per
    item, and an exception raised by the key function aborts the sort. *)
Section PySort.
Context {K A : Type}.
Variable lt : K -> K -> bool.

(** [sorts_before reverse ky kx]: an item with key [ky] must come strictly
    before an item with key [kx]. *)
Definition sorts_before (reverse : bool) (ky kx : K) : bool :=
  if reverse then lt kx ky else lt ky kx.

(** Insert [x], which preceded every item of [l] in the original list. *)
Fixpoint sort_insert (reverse : bool) (x : K * A) (l : list (K * A)) : list (K * A) :=
  match l with
  | [] => [x]
  | y :: l' =>
      if sorts_before reverse (fst y) (fst x)
      then y :: sort_insert reverse x l'
      else x :: y :: l'
  end.

Definition sort_keyed (reverse : bool) (l : list (K * A)) : list (K * A) :=
  fold_right (sort_insert reverse) [] l.

(** [x] may stand before [y] in the result: [y] does not sort strictly
    before [x], and when their keys tie [x] was before [y] in [l]. *)
Definition in_order (reverse : bool) (l : list (K * A)) (x y : K * A) : Prop :=
  sorts_before reverse (fst y) (fst x) = false /\
  (sorts_before reverse (fst x) (fst y) = false -> precedes l x y).

Definition list_sort (key : A -> result K) (reverse : bool) (l : list A)
  : result (list A) :=
  let? keys := rmap key l in
  Ok (map snd (sort_keyed reverse (combine keys l))).
End PySort.

(** Comparison of floats, and of the key tuples of [get_healthy_models]
    (tuples compare lexicographically). *)
Definition Qltb (a b : Q) : bool := negb (Qle_bool b a).

Definition health_key_lt (a b : Q * Z * Q) : bool :=
  let '(rate1, ntier1, avg1) := a in
  let '(rate2, ntier2, avg2) := b in
  if Qeq_bool rate1 rate2 then
    if ntier1 =? ntier2 then Qltb avg1 avg2 else ntier1 <? ntier2
  else Qltb rate1 rate2.

(** The loop of [get_healthy_models] over [self.health_status.items()].
    [tier] is the optional argument; [if tier and ...] makes both [None]
    and [0] mean "no filter". *)
Fixpoint healthy_loop (tier_arg : option Z) (items : HealthStatus) : result (list string) :=
  match items with
  | [] => Ok []
  | (model_name, status) :: rest =>
      match is_healthy status with
      | Some false => healthy_loop tier_arg rest
      | _ =>
          if consecutive_failures status >=? 3 then healthy_loop tier_arg rest
          else
            let? skip :=
              match tier_arg with
              | None => Ok false
              | Some t =>
                  if t =? 0 then Ok false
                  else let? info := dict_item AI_MODELS model_name in
                       Ok (negb (tier info =? t))
              end in
            if skip then healthy_loop tier_arg rest
            else let? healthy := healthy_loop tier_arg rest in
                 Ok (model_name :: healthy)
      end
  end.

(** The sort key of [get_healthy_models]. *)
Definition health_key (hs : HealthStatus) (x : string) : result (Q * Z * Q) :=
  let? status := dict_item hs x in
  let? info := dict_item AI_MODELS x in
  Ok ((inject_Z (total_successes status)
       / inject_Z (Z.max (total_calls status) 1))%Q,
      - tier info,
      avg_response_time status).

Definition get_healthy_models (tier_arg : option Z) (hs : HealthStatus)
  : result (list string) :=
  let? healthy := healthy_loop tier_arg hs in
  list_sort health_key_lt (health_key hs) true healthy.

(* ===================================================================== *)
(** * ai_client.py: candidate ranking                                     *)
(* ===================================================================== *)

Definition speed_map : list (string * Z) :=
  [("very_fast", 5); ("fast", 3); ("medium", 1); ("slow", 0)].

(** The score accumulated by the body of the loop of
    [_get_suitable_models], statement by statement. *)
Definition suitability_score (task_type : string) (model_info : ModelInfo)
  (status : ModelStatus) : Q :=
  let score := 0 in
  let score := if str_in task_type (best_for model_info) then score + 30 else score in
  let score := score + (4 - tier model_info) * 20 in
  let score :=
    match is_healthy status with
    | Some true => score + 25
    | None => score + 10
    | Some false => score
    end in
  let score :=
    if total_calls status >? 0 then
      let success_rate :=
        (inject_Z (total_successes status) / inject_Z (total_calls status))%Q in
      (inject_Z score + success_rate * 15)%Q
    else inject_Z score in
  (score + inject_Z (match dict_get speed_map (speed model_info) with
                     | Some bonus => bonus
                     | None => 0
                     end))%Q.

(** A model is skipped when it is known to be unhealthy with at least two
    consecutive failures. *)
Definition skipped (status : ModelStatus) : bool :=
  match is_healthy status with
  | Some false => consecutive_failures status >=? 2
  | _ => false
  end.

Fixpoint scored_loop (task_type : string) (hs : HealthStatus)
  (items : list (string * ModelInfo)) : result (list (string * Q)) :=
  match items with
  | [] => Ok []
  | (model_name, model_info) :: rest =>
      let? status := dict_item hs model_name in
      if skipped status then scored_loop task_type hs rest
      else
        let? scored_models := scored_loop task_type hs rest in
        Ok ((model_name, suitability_score task_type model_info status)
              :: scored_models)
  end.

Definition _get_suitable_models (task_type : string) (hs : HealthStatus)
  : result (list string) :=
  let? scored_models := scored_loop task_type hs AI_MODELS in
  let? sorted := list_sort Qltb (fun x => Ok (snd x)) true scored_models in
  Ok (map fst sorted).

(* ===================================================================== *)
(** * ai_client.py: calling the providers                                 *)
(* ===================================================================== *)

(** [range(a, b)] *)
Definition py_range (a b : Z) : list Z :=
  map (fun i => a + Z.of_nat i) (seq 0 (Z.to_nat (b - a))).

(** [needle in haystack] for strings. *)
Definition substring_in (needle haystack : string) : bool :=
  match String.index 0 needle haystack with
  | Some _ => true
  | None => false
  end.

Definition RETRY_DELAY : Z := 2.
Definition HEALTH_CHECK_DELAY : Z := 1.

(** The condition [result and len(result) > 50] of [generate_with_fallback]:
    [None] and the empty string are falsy. *)
Definition minimum_viable (result : option string) : bool :=
  match result with
  | None => false
  | Some text =>
      negb (String.eqb text "") && (Z.of_nat (String.length text) >? 50)
  end.

(** The condition [response and len(response) > 0] of the health check. *)
Definition non_empty (response : option string) : bool :=
  match response with
  | None => false
  | Some text =>
      negb (String.eqb text "") && (Z.of_nat (String.length text) >? 0)
  end.

Section Client.

(** The world outside the process.  Reading the clock does not change it;
    a remote call or a sleep does. *)
Variable Env : Type.
Variable time_time : Env -> Q.
Variable datetime_now : Env -> string.
Variable time_sleep : Z -> Env -> Env.
(** [openrouter_client.chat.completions.create(...)] followed by
    [.choices[0].message.content], for a model id, a prompt, a token
    budget and a temperature. *)
Variable openrouter_create :
  string -> string -> Z -> Q -> Env -> result (option string) * Env.
(** [genai.GenerativeModel(...).generate_content(...)] followed by [.text]. *)
Variable gemini_generate_content :
  string -> Z -> Q -> Env -> result (option string) * Env.
Variable GEMINI_API_KEY : string.

(** A [MultiAIClient]: its tracker, whether [__init__] built the
    OpenRouter client, and the outside world it talks to. *)
Record MultiAIClient : Type := {
  tracker : HealthStatus;
  openrouter_client : bool;
  env : Env
}.

Definition with_tracker (hs : HealthStatus) (c : MultiAIClient) : MultiAIClient :=
  {| tracker := hs; openrouter_client := openrouter_client c; env := env c |}.
Definition with_env (e : Env) (c : MultiAIClient) : MultiAIClient :=
  {| tracker := tracker c; openrouter_client := openrouter_client c; env := e |}.

Local Open Scope eff_scope.
Import Eff.

Definition on_tracker {A} (c : M HealthStatus A) : M MultiAIClient A :=
  zoom tracker with_tracker c.
Definition on_env {A} (c : M Env A) : M MultiAIClient A :=
  zoom env with_env c.
Definition read_env {A} (f : Env -> A) : M MultiAIClient A :=
  fun c => (Ok (f (env c)), c).
Definition sleep (seconds : Z) : M MultiAIClient unit :=
  on_env (modify (time_sleep seconds)).

Definition tracker_mark_success (model_name : string) (response_time : Q)
  : M MultiAIClient unit :=
  fun c => on_tracker (mark_success (datetime_now (env c)) model_name response_time) c.
Definition tracker_mark_failure (model_name : string) (error : string)
  : M MultiAIClient unit :=
  fun c => on_tracker (mark_failure (datetime_now (env c)) model_name error) c.

Definition _call_openrouter (model_id prompt : string) (max_tokens : Z)
  (temperature : Q) : M MultiAIClient (option string) :=
  self <- get;;
  if negb (openrouter_client self)
  then raise (Exception "OpenRouter client not initialized")
  else on_env (openrouter_create model_id prompt max_tokens temperature).

Definition _call_gemini_direct (prompt : string) (max_tokens : Z)
  (temperature : Q) : M MultiAIClient (option string) :=
  if substring_in "YOUR_" GEMINI_API_KEY
  then raise (Exception "Gemini API key not configured")
  else on_env (gemini_generate_content prompt max_tokens temperature).

Definition _call_single_model (model_name prompt : string) (max_tokens : Z)
  (temperature : Q) : M MultiAIClient (option string) :=
  model_info <- of_result (dict_item AI_MODELS model_name);;
  if String.eqb (provider model_info) "openrouter" then
    _call_openrouter (id model_info) prompt max_tokens temperature
  else if String.eqb (provider model_info) "gemini_direct" then
    _call_gemini_direct prompt max_tokens temperature
  else ret None.

(** ** [generate_with_fallback] *)

(** The [try/except] block of one attempt.  [Some (text, model)] stands
    for the [return result, model_name] inside it, [None] for falling
    through to the code after the block. *)
Definition attempt_once (model_name prompt : string) (max_tokens : Z)
  (temperature : Q) : M MultiAIClient (option (string * string)) :=
  try_except
    (start_time <- read_env time_time;;
     result <- _call_single_model model_name prompt max_tokens temperature;;
     end_time <- read_env time_time;;
     let response_time := (end_time - start_time)%Q in
     if minimum_viable result then
       tracker_mark_success model_name response_time;;
       ret (match result with
            | Some text => Some (text, model_name)
            | None => None
            end)
     else
       (* "Response too short, retrying..." is printed, nothing else *)
       ret None)
    (fun e =>
       tracker_mark_failure model_name (str_exn e);;
       ret None).

(** [for attempt in range(1, max_attempts_per_model + 1)] *)
Fixpoint attempts_loop (model_name prompt : string) (max_tokens : Z)
  (temperature : Q) (max_attempts_per_model : Z) (attempts : list Z)
  : M MultiAIClient (option (string * string)) :=
  match attempts with
  | [] => ret None
  | attempt :: rest =>
      r <- attempt_once model_name prompt max_tokens temperature;;
      match r with
      | Some answer => ret (Some answer)
      | None =>
          (if attempt <? max_attempts_per_model
           then sleep RETRY_DELAY else ret tt);;
          attempts_loop model_name prompt max_tokens temperature
                        max_attempts_per_model rest
      end
  end.

(** [for model_name in suitable_models] *)
Fixpoint models_loop (prompt : string) (max_tokens : Z) (temperature : Q)
  (max_attempts_per_model : Z) (suitable_models : list string)
  : M MultiAIClient (option (string * string)) :=
  match suitable_models with
  | [] => ret None
  | model_name :: rest =>
      _ <- of_result (dict_item AI_MODELS model_name);;
      r <- attempts_loop model_name prompt max_tokens temperature
             max_attempts_per_model
             (py_range 1 (max_attempts_per_model + 1));;
      match r with
      | Some answer => ret (Some answer)
      | None => models_loop prompt max_tokens temperature
                            max_attempts_per_model rest
      end
  end.

Definition generate_with_fallback (prompt task_type : string) (max_tokens : Z)
  (temperature : Q) (max_attempts_per_model : Z)
  : M MultiAIClient (option string * option string) :=
  self <- get;;
  suitable_models <- of_result (_get_suitable_models task_type (tracker self));;
  match suitable_models with
  | [] => ret (None, None)
  | _ =>
      r <- models_loop prompt max_tokens temperature
             max_attempts_per_model suitable_models;;
      match r with
      | Some (text, model_name) => ret (Some text, Some model_name)
      | None => ret (None, None)
      end
  end.

(** ** [health_check_all_models]

    The messages printed on the way, the status report among them, are
    not part of the model. *)

Definition health_check_one (model_name : string) : M MultiAIClient unit :=
  try_except
    (start_time <- read_env time_time;;
     response <- _call_single_model model_name "Respond with exactly: OK"
                   50 (1 # 10)%Q;;
     end_time <- read_env time_time;;
     let response_time := (end_time - start_time)%Q in
     if non_empty response
     then tracker_mark_success model_name response_time
     else tracker_mark_failure model_name "Empty response")
    (fun e => tracker_mark_failure model_name (str_exn e)).

Fixpoint health_check_loop (items : list (string * ModelInfo))
  : M MultiAIClient unit :=
  match items with
  | [] => ret tt
  | (model_name, _) :: rest =>
      health_check_one model_name;;
      sleep HEALTH_CHECK_DELAY;;
      health_check_loop rest
  end.

Definition health_check_all_models : M MultiAIClient bool :=
  health_check_loop AI_MODELS;;
  self <- get;;
  healthy <- of_result (get_healthy_models None (tracker self));;
  match healthy with
  | [] => ret false
  | _ => ret true
  end.

End Client.

Arguments tracker {Env} _.
Arguments openrouter_client {Env} _.
Arguments env {Env} _.
Arguments with_tracker {Env} hs c.
Arguments with_env {Env} e c.

(* ===================================================================== *)
(** * failure_tracker.py                                                  *)
(* ===================================================================== *)

Definition MAX_RETRY_ATTEMPTS : Z := 5.
Definition RETRY_BASE_DELAY : Z := 1.
Definition RETRY_MAX_DELAY : Z := 32.

Module FailureTracker.

(** One entry of [data["failure_log"]]. *)
Record Entry : Type := {
  timestamp : string;
  type : string;
  details : string;
  retry_count : Z
}.

(** [self.data], which is also the content of the JSON file: the file is
    only ever written by [_save_data], with these three keys. *)
Record Data : Type := {
  total_failures : Z;
  failure_log : list Entry;
  last_updated : string
}.

(** The tracker object together with the file it persists to ([None]: the
    file does not exist).  Writing the file is taken to succeed. *)
Record t : Type := {
  data : Data;
  file : option Data
}.

Definition _create_empty_data (now : string) : Data :=
  {| total_failures := 0; failure_log := []; last_updated := now |}.

(** [__init__] with [_load_data]. *)
Definition init (now : string) (on_disk : option Data) : t :=
  {| data := match on_disk with
             | Some d => d
             | None => _create_empty_data now
             end;
     file := on_disk |}.

Definition _save_data (now : string) (self : t) : bool * t :=
  let d := {| total_failures := total_failures (data self);
              failure_log := failure_log (data self);
              last_updated := now |} in
  (true, {| data := d; file := Some d |}).

Definition increment_failure_counter (now : string) (self : t) : Z * t :=
  let d := {| total_failures := total_failures (data self) + 1;
              failure_log := failure_log (data self);
              last_updated := last_updated (data self) |} in
  let self := snd (_save_data now {| data := d; file := file self |}) in
  (total_failures (data self), self).

Definition get_failure_count (self : t) : Z := total_failures (data self).

(** [l[-100:]] *)
Definition last_100 {A} (l : list A) : list A :=
  skipn (List.length l - 100)%nat l.

Definition log_failure (now : string) (error_type details : string)
  (retry_count : Z) (self : t) : t :=
  let failure_entry :=
    {| timestamp := now; type := error_type; details := details;
       retry_count := retry_count |} in
  let log := (failure_log (data self) ++ [failure_entry])%list in
  let log := if Z.of_nat (List.length log) >? 100 then last_100 log else log in
  let d := {| total_failures := total_failures (data self);
              failure_log := log;
              last_updated := last_updated (data self) |} in
  snd (_save_data now {| data := d; file := file self |}).

(** [calculate_retry_delay(attempt)], for [attempt >= 1] (the only calls
    there are): [2 ** (attempt - 1)] is then an integer. *)
Definition calculate_retry_delay (attempt : Z) : Z :=
  let delay := RETRY_BASE_DELAY * 2 ^ (attempt - 1) in
  Z.min delay RETRY_MAX_DELAY.

End FailureTracker.

(* ===================================================================== *)
(** * retry_handler.py                                                    *)
(* ===================================================================== *)

(** What [retry_with_backoff] does to the outside, in order. *)
Inductive Event : Type :=
| Called                                           (* the call of func *)
| NotifiedRetry (attempt max_attempts delay : Z)   (* webhook.notify_retry_attempt *)
| Slept (seconds : Q)                              (* time.sleep *)
| NotifiedError (error : string) (failure_count : Z). (* webhook.notify_error *)

Section Retry.

(** The retried operation: a result type, a state of its own, and one
    call, which returns, returns [None] or raises. *)
Variable A : Type.
Variable OpState : Type.
Variable func : OpState -> result (option A) * OpState.

(** The random generator and the clock. *)
Variable Rng : Type.
Variable random_uniform : Q -> Q -> Rng -> Q * Rng.
Variable Clock : Type.
Variable datetime_now : Clock -> string.
Variable elapse : Event -> Clock -> Clock.

Record World : Type := {
  failure_tracker : FailureTracker.t;   (* get_failure_tracker() *)
  op : OpState;
  rng : Rng;
  clock : Clock;
  trace : list Event
}.

Local Open Scope eff_scope.
Import Eff.

Definition emit (ev : Event) : M World unit :=
  modify (fun w =>
    {| failure_tracker := failure_tracker w; op := op w; rng := rng w;
       clock := elapse ev (clock w); trace := (trace w ++ [ev])%list |}).

Definition call_func : M World (option A) :=
  emit Called;;
  fun w => let '(r, s) := func (op w) in
           (r, {| failure_tracker := failure_tracker w; op := s; rng := rng w;
                  clock := clock w; trace := trace w |}).

Definition draw_uniform (lo hi : Q) : M World Q :=
  fun w => let '(x, g) := random_uniform lo hi (rng w) in
           (Ok x, {| failure_tracker := failure_tracker w; op := op w; rng := g;
                     clock := clock w; trace := trace w |}).

Definition with_failure_tracker (ft : FailureTracker.t) (w : World) : World :=
  {| failure_tracker := ft; op := op w; rng := rng w;
     clock := clock w; trace := trace w |}.

Definition log_failure (error_type details : string) (retry_count : Z)
  : M World unit :=
  modify (fun w =>
    with_failure_tracker
      (FailureTracker.log_failure (datetime_now (clock w)) error_type details
         retry_count (failure_tracker w)) w).

Definition increment_failure_counter : M World Z :=
  fun w =>
    let '(n, ft) := FailureTracker.increment_failure_counter
                      (datetime_now (clock w)) (failure_tracker w) in
    (Ok n, with_failure_tracker ft w).

(** The body of the loop of [retry_with_backoff] for one [attempt].
    [Some r] stands for [return r], [None] for going round the loop. *)
Definition retry_attempt (max_retries attempt : Z) : M World (option (option A)) :=
  try_except
    (result <- call_func;;
     match result with
     | Some v => ret (Some (Some v))
     | None => raise (Exception "Function returned None")
     end)
    (fun e =>
       let error_msg := str_exn e in
       log_failure "retry_attempt"
         ("Attempt " ++ str_int attempt ++ ": " ++ error_msg) attempt;;
       if attempt <? max_retries then
         let delay := FailureTracker.calculate_retry_delay attempt in
         emit (NotifiedRetry attempt max_retries delay);;
         jitter <- draw_uniform (1 # 10) (1 # 2);;
         emit (Slept (inject_Z delay + jitter));;
         ret None
       else
         failure_count <- increment_failure_counter;;
         emit (NotifiedError error_msg failure_count);;
         ret (Some None)).

Fixpoint retry_loop (max_retries : Z) (attempts : list Z) : M World (option A) :=
  match attempts with
  | [] => ret None
  | attempt :: rest =>
      r <- retry_attempt max_retries attempt;;
      match r with
      | Some answer => ret answer
      | None => retry_loop max_retries rest
      end
  end.

Definition retry_with_backoff (max_retries : Z) : M World (option A) :=
  retry_loop max_retries (py_range 1 (max_retries + 1)).

End Retry.

Arguments failure_tracker {OpState Rng Clock} _.
Arguments op {OpState Rng Clock} _.
Arguments rng {OpState Rng Clock} _.
Arguments clock {OpState Rng Clock} _.
Arguments trace {OpState Rng Clock} _.

(** ** What a run of [retry_with_backoff] shows *)

(** The number of calls of the operation, and the sleeps, in a trace. *)
Definition count_calls (tr : list Event) : nat :=
  List.length (filter (fun ev => match ev with Called => true | _ => false end) tr).

Definition sleeps (tr : list Event) : list Q :=
  flat_map (fun ev => match ev with Slept seconds => [seconds] | _ => [] end) tr.

(** A call of the operation that counts as a failure: it raised or it
    returned [None]. *)
Definition failed {A} (r : result (option A)) : Prop :=
  match r with
  | Ok (Some _) => False
  | _ => True
  end.

(** The state of the operation after [n] calls, and the first [n] draws of
    the jitter. *)
Fixpoint op_after {A OpState} (func : OpState -> result (option A) * OpState)
  (n : nat) (s : OpState) : OpState :=
  match n with
  | O => s
  | S n' => op_after func n' (snd (func s))
  end.

Fixpoint jitters {Rng} (random_uniform : Q -> Q -> Rng -> Q * Rng)
  (n : nat) (g : Rng) : list Q :=
  match n with
  | O => []
  | S n' =>
      let '(x, g') := random_uniform (1 # 10)%Q (1 # 2)%Q g in
      x :: jitters random_uniform n' g'
  end.

(* ===================================================================== *)
(** * Sequences of tracker operations                                     *)
(* ===================================================================== *)

(** One call on the tracker, with the clock reading it sees. *)
Inductive TrackerOp : Type :=
| OpSuccess (now model_name : string) (response_time : Q)
| OpFailure (now model_name error : string)
| OpReset (model_name : string).

Definition apply_op (o : TrackerOp) : Eff.M HealthStatus unit :=
  match o with
  | OpSuccess now model_name response_time => mark_success now model_name response_time
  | OpFailure now model_name error => mark_failure now model_name error
  | OpReset model_name => reset_model model_name
  end.

(** The state after a sequence of calls, oldest first.  A call that raises
    (an unknown model) leaves what it had done so far and the next call
    goes on from there, as when the caller catches the exception. *)
Definition run_ops (ops : list TrackerOp) (hs : HealthStatus) : HealthStatus :=
  fold_left (fun hs o => snd (apply_op o hs)) ops hs.

Definition is_success_on (b : string) (o : TrackerOp) : bool :=
  match o with
  | OpSuccess _ model_name _ => String.eqb model_name b
  | _ => false
  end.

Definition is_failure_on (b : string) (o : TrackerOp) : bool :=
  match o with
  | OpFailure _ model_name _ => String.eqb model_name b
  | _ => false
  end.

Definition count_failures (b : string) (ops : list TrackerOp) : nat :=
  List.length (filter (is_failure_on b) ops).

(** The invariant of one entry and of the whole tracker. *)
Definition status_ok (st : ModelStatus) : Prop :=
  0 <= total_successes st /\ 0 <= total_failures st /\
  total_calls st = total_successes st + total_failures st /\
  0 <= consecutive_failures st.

Definition tracker_ok (hs : HealthStatus) : Prop :=
  dict_keys hs = dict_keys AI_MODELS /\
  forall name st, dict_get hs name = Some st -> status_ok st.

(** What one call does to the entry [st] of model [b], read off the three
    methods: the entry is untouched by a call on another model. *)
Definition effect_on (b : string) (o : TrackerOp) (st : ModelStatus) : ModelStatus :=
  match o with
  | OpSuccess now m rt =>
      if String.eqb m b then
        {| is_healthy := Some true; last_success := Some now;
           last_failure := last_failure st; consecutive_failures := 0;
           total_calls := total_calls st + 1;
           total_successes := total_successes st + 1;
           total_failures := total_failures st;
           avg_response_time :=
             ((avg_response_time st * inject_Z (total_successes st + 1 - 1) + rt)
              / inject_Z (total_successes st + 1))%Q |}
      else st
  | OpFailure now m _ =>
      if String.eqb m b then
        {| is_healthy := Some false; last_success := last_success st;
           last_failure := Some now;
           consecutive_failures := consecutive_failures st + 1;
           total_calls := total_calls st + 1;
           total_successes := total_successes st;
           total_failures := total_failures st + 1;
           avg_response_time := avg_response_time st |}
      else st
  | OpReset m =>
      if String.eqb m b then
        {| is_healthy := None; last_success := last_success st;
           last_failure := last_failure st; consecutive_failures := 0;
           total_calls := total_calls st; total_successes := total_successes st;
           total_failures := total_failures st;
           avg_response_time := avg_response_time st |}
      else st
  end.

(* ===================================================================== *)
(** * The ranking as the specification words it                           *)
(* ===================================================================== *)

Definition spec_speed_bonus (speed_class : string) : Q :=
  if String.eqb speed_class "very_fast" then 5
  else if String.eqb speed_class "fast" then 3
  else if String.eqb speed_class "medium" then 1
  else 0.

(** 30 for a declared affinity, (4 - tier) * 20, 25 / 10 / 0 for healthy /
    untested / unhealthy, (successes / max(calls, 1)) * 15, and the speed
    bonus. *)
Definition spec_score (task_type : string) (info : ModelInfo) (st : ModelStatus) : Q :=
  ((if str_in task_type (best_for info) then 30 else 0)
   + inject_Z ((4 - tier info) * 20)
   + match is_healthy st with
     | Some true => 25
     | None => 10
     | Some false => 0
     end
   + (inject_Z (total_successes st) / inject_Z (Z.max (total_calls st) 1)) * 15
   + spec_speed_bonus (speed info))%Q.

(** Excluded from ranking: unhealthy with at least two consecutive failures. *)
Definition spec_excluded (st : ModelStatus) : Prop :=
  is_healthy st = Some false /\ 2 <= consecutive_failures st.

(** What one registry item contributes to [scored_models]: nothing when it
    is skipped, else its name with its score. *)
Definition rank_entry (task_type : string) (hs : HealthStatus)
  (item : string * ModelInfo) : list (string * Q) :=
  match dict_get hs (fst item) with
  | Some st =>
      if skipped st then []
      else [(fst item, suitability_score task_type (snd item) st)]
  | None => []
  end.

(** Whether the loop of [get_healthy_models] keeps an item, and the sort key
    of a name that has an entry in both dictionaries. *)
Definition kept (tier_arg : option Z) (item : string * ModelStatus) : bool :=
  match is_healthy (snd item) with
  | Some false => false
  | _ =>
      if consecutive_failures (snd item) >=? 3 then false
      else match tier_arg with
           | None => true
           | Some t =>
               if t =? 0 then true
               else match dict_get AI_MODELS (fst item) with
                    | Some info => tier info =? t
                    | None => false
                    end
           end
  end.

Definition health_key_of (hs : HealthStatus) (x : string) : Q * Z * Q :=
  match dict_get hs x, dict_get AI_MODELS x with
  | Some status, Some info =>
      ((inject_Z (total_successes status)
        / inject_Z (Z.max (total_calls status) 1))%Q,
       - tier info,
       avg_response_time status)
  | _, _ => (0%Q, 0, 0%Q)
  end.

(** The order [health_key_lt] decides, and the success rate in the words
    of the specification. *)
Definition lex_lt (a b : Q * Z * Q) : Prop :=
  let '(r1, t1, l1) := a in
  let '(r2, t2, l2) := b in
  (r1 < r2)%Q \/ ((r1 == r2)%Q /\ (t1 < t2 \/ (t1 = t2 /\ (l1 < l2)%Q))).

Definition success_rate (st : ModelStatus) : Q :=
  (inject_Z (total_successes st) / inject_Z (Z.max (total_calls st) 1))%Q.

(* ===================================================================== *)
(** * A scripted outside world                                            *)
(* ===================================================================== *)

Module Scripted.

(** The clock in seconds and the model ids called so far, oldest first. *)
Record Env : Type := {
  seconds : Q;
  calls : list string
}.

Definition time_time (e : Env) : Q := seconds e.
Definition datetime_now (e : Env) : string := "2024-01-01T00:00:00".
Definition time_sleep (n : Z) (e : Env) : Env :=
  {| seconds := (seconds e + inject_Z n)%Q; calls := calls e |}.

(** A provider whose answer to a call is [respond calls_so_far model_id];
    every call takes one second. *)
Definition remote (respond : list string -> string -> result (option string))
  (model_id : string) (e : Env) : result (option string) * Env :=
  (respond (calls e) model_id,
   {| seconds := (seconds e + 1)%Q; calls := (calls e ++ [model_id])%list |}).

Definition openrouter_create respond (model_id prompt : string) (max_tokens : Z)
  (temperature : Q) : Env -> result (option string) * Env :=
  remote respond model_id.

Definition gemini_generate_content respond (prompt : string) (max_tokens : Z)
  (temperature : Q) : Env -> result (option string) * Env :=
  remote respond "gemini-2.0-flash-exp".

Definition GEMINI_API_KEY : string := "configured-key".

Definition client (hs : HealthStatus) : MultiAIClient Env :=
  {| tracker := hs; openrouter_client := true;
     env := {| seconds := 0; calls := [] |} |}.

(** [generate_with_fallback(prompt)] with its default arguments. *)
Definition generate respond (prompt : string)
  : Eff.M (MultiAIClient Env) (option string * option string) :=
  generate_with_fallback Env time_time datetime_now time_sleep
    (openrouter_create respond) (gemini_generate_content respond)
    GEMINI_API_KEY prompt "creative_writing" 600 (8 # 10)%Q 2.

Definition attempt respond (model_name prompt : string)
  : Eff.M (MultiAIClient Env) (option (string * string)) :=
  attempt_once Env time_time datetime_now
    (openrouter_create respond) (gemini_generate_content respond)
    GEMINI_API_KEY model_name prompt 600 (8 # 10)%Q.

Definition health_check respond : Eff.M (MultiAIClient Env) bool :=
  health_check_all_models Env time_time datetime_now time_sleep
    (openrouter_create respond) (gemini_generate_content respond)
    GEMINI_API_KEY.

(** Texts of 2, 50 and 51 characters. *)
Definition short_text : string := "OK".
Definition text_51 : string :=
  "Attack on Titan returns with a final season today!!".

(** A retried operation that fails [k] times and then returns [v]; its
    state is the number of calls made so far. *)
Definition flaky (k : nat) (v : string) (n : nat) : result (option string) * nat :=
  (if (n <? k)%nat
   then (if Nat.even n then Raise (Exception "Failed to post to Facebook")
         else Ok None)
   else Ok (Some v),
   S n).

(** A generator that always draws the middle of the interval, and a clock
    that counts events. *)
Definition midpoint (lo hi : Q) (g : unit) : Q * unit := (((lo + hi) / 2)%Q, g).
Definition stamp (c : nat) : string := str_int (Z.of_nat c).
Definition tick (_ : Event) (c : nat) : nat := S c.

Definition world (total : Z) : World nat unit nat :=
  {| failure_tracker :=
       FailureTracker.init "0"
         (Some {| FailureTracker.total_failures := total;
                  FailureTracker.failure_log := [];
                  FailureTracker.last_updated := "0" |});
     op := 0%nat; rng := tt; clock := 0%nat; trace := [] |}.

(** A retried operation that never succeeds. *)
Definition broken (n : nat) : result (option string) * nat :=
  (if Nat.even n then Raise (Exception "Failed to post to Facebook") else Ok None,
   S n).

Definition retry (func : nat -> result (option string) * nat) (max_retries : Z)
  : Eff.M (World nat unit nat) (option string) :=
  retry_with_backoff string nat func unit midpoint nat stamp tick max_retries.

End Scripted.


(* ===================================================================== *)
(** * What a sequence of tracker calls adds up to                         *)
(* ===================================================================== *)

Definition op_model (o : TrackerOp) : string :=
  match o with
  | OpSuccess _ model_name _ => model_name
  | OpFailure _ model_name _ => model_name
  | OpReset model_name => model_name
  end.

Definition count_successes (b : string) (ops : list TrackerOp) : nat :=
  List.length (filter (is_success_on b) ops).


(** What an answer of the fallback loop over [candidates] looks like on
    the tracker [hs] it leaves: a usable text, from one of the candidates,
    whose record is healthy with no consecutive failure. *)
Definition answer_from (candidates : list string) (hs : HealthStatus)
  (r : option (string * string)) : Prop :=
  match r with
  | Some (text, m) =>
      In m candidates /\ 51 <= Z.of_nat (String.length text) /\
      exists st, dict_get hs m = Some st /\
                 is_healthy st = Some true /\ consecutive_failures st = 0
  | None => True
  end.

(** What one probe of the health check does to a record: one more call,
    recorded as a success or as a failure. *)
Definition probed (st st' : ModelStatus) : Prop :=
  total_calls st' = total_calls st + 1 /\
  ((is_healthy st' = Some true /\ consecutive_failures st' = 0 /\
    total_successes st' = total_successes st + 1) \/
   (is_healthy st' = Some false /\
    consecutive_failures st' = consecutive_failures st + 1 /\
    total_failures st' = total_failures st + 1)).

(* ===================================================================== *)
(** * api.py                                                              *)
(* ===================================================================== *)

Module Api.
Section Api.

Variable Env : Type.
Variable time_time : Env -> Q.
Variable datetime_now : Env -> string.
Variable time_sleep : Z -> Env -> Env.
Variable openrouter_create :
  string -> string -> Z -> Q -> Env -> result (option string) * Env.
Variable gemini_generate_content :
  string -> Z -> Q -> Env -> result (option string) * Env.
Variable GEMINI_API_KEY : string.
Variable OPENROUTER_API_KEY : string.

(** The module-level [_ai_client] ([None] until the system is initialised;
    a client is its tracker and whether it holds an OpenRouter client) and
    the world outside the process. *)
Record State : Type := {
  _ai_client : option (HealthStatus * bool);
  outside : Env
}.

(** [MultiAIClient()]: a fresh tracker, and an OpenRouter client when the
    key is set and is not a placeholder. *)
Definition MultiAIClient_init : HealthStatus * bool :=
  (tracker_init,
   negb (String.eqb OPENROUTER_API_KEY "")
   && negb (substring_in "YOUR_" OPENROUTER_API_KEY)).

(** Run a method of the client [self], which [_ai_client] then holds. *)
Definition on_client {A} (self : HealthStatus * bool)
  (method : Eff.M (MultiAIClient Env) A) : Eff.M State A :=
  fun s =>
    let '(r, c) := method {| tracker := fst self; openrouter_client := snd self;
                             env := outside s |} in
    (r, {| _ai_client := Some (tracker c, openrouter_client c);
           outside := env c |}).

Definition initialize_ai_system : Eff.M State bool :=
  on_client MultiAIClient_init
    (health_check_all_models Env time_time datetime_now time_sleep
       openrouter_create gemini_generate_content GEMINI_API_KEY).

Definition generate_text (prompt task_type : string) (temperature : Q)
  : Eff.M State (option string * option string) :=
  fun s =>
    match _ai_client s with
    | None =>
        (Raise (Exception
                  "AI system not initialized! Call initialize_ai_system() first."),
         s)
    | Some self =>
        on_client self
          (generate_with_fallback Env time_time datetime_now time_sleep
             openrouter_create gemini_generate_content GEMINI_API_KEY
             prompt task_type 600 temperature 2) s
    end.

Definition get_best_model_for_task (task_type : string)
  : Eff.M State (option string) :=
  fun s =>
    match _ai_client s with
    | None => (Ok None, s)
    | Some self =>
        (let? suitable := _get_suitable_models task_type (fst self) in
         Ok (match suitable with
             | best :: _ => Some best
             | [] => None
             end),
         s)
    end.

Definition get_healthy_models : Eff.M State (list string) :=
  fun s =>
    match _ai_client s with
    | None => (Ok [], s)
    | Some self => (get_healthy_models None (fst self), s)
    end.

Definition reset_model (model_name : string) : Eff.M State unit :=
  fun s =>
    match _ai_client s with
    | None => (Ok tt, s)
    | Some self =>
        let '(r, hs) := reset_model model_name (fst self) in
        (r, {| _ai_client := Some (hs, snd self); outside := outside s |})
    end.

(** One call of the module's interface, and what it raised if it did. *)
Inductive Call : Type :=
| Initialize
| GenerateText (prompt task_type : string) (temperature : Q)
| BestModelForTask (task_type : string)
| HealthyModels
| ResetModel (model_name : string).

Definition raised {A} (out : result A * State) : option exn * State :=
  match fst out with
  | Ok _ => (None, snd out)
  | Raise e => (Some e, snd out)
  end.

Definition call (c : Call) (s : State) : option exn * State :=
  match c with
  | Initialize => raised (initialize_ai_system s)
  | GenerateText prompt task_type temperature =>
      raised (generate_text prompt task_type temperature s)
  | BestModelForTask task_type => raised (get_best_model_for_task task_type s)
  | HealthyModels => raised (get_healthy_models s)
  | ResetModel model_name => raised (reset_model model_name s)
  end.

(** The exceptions raised by a sequence of calls, the caller going on
    after each, and the state it ends in. *)
Fixpoint run (calls : list Call) (s : State) : list exn * State :=
  match calls with
  | [] => ([], s)
  | c :: rest =>
      let '(e, s1) := call c s in
      let '(es, s2) := run rest s1 in
      (match e with
       | Some x => x :: es
       | None => es
       end, s2)
  end.

(** An initialised state whose tracker satisfies its invariant. *)
Definition ready (s : State) : Prop :=
  exists hs oc, _ai_client s = Some (hs, oc) /\ tracker_ok hs.

End Api.
End Api.

(* ===================================================================== *)
(** * retry_handler.py and post_executor.py: the callers of the retries   *)
(* ===================================================================== *)

Section RetryCallers.

Variable A : Type.
Variable OpState : Type.
Variable func : OpState -> result (option A) * OpState.
Variable Rng : Type.
Variable random_uniform : Q -> Q -> Rng -> Q * Rng.
Variable Clock : Type.
Variable datetime_now : Clock -> string.
Variable elapse : Event -> Clock -> Clock.

Local Open Scope eff_scope.
Import Eff.

(** [safe_execute(func)], called as the handler calls it, with no further
    argument. *)
Definition safe_execute : M (World OpState Rng Clock) (option A) :=
  try_except
    (retry_with_backoff A OpState func Rng random_uniform Clock datetime_now
       elapse MAX_RETRY_ATTEMPTS)
    (fun e =>
       failure_count <- increment_failure_counter OpState Rng Clock datetime_now;;
       emit OpState Rng Clock elapse
         (NotifiedError ("Safe execute failed: " ++ str_exn e) failure_count);;
       ret None).

(** [RetryHandler.execute_with_retry(func)] and [RetryHandler.execute_safe(func)]. *)
Definition execute_with_retry : M (World OpState Rng Clock) (option A) :=
  retry_with_backoff A OpState func Rng random_uniform Clock datetime_now
    elapse MAX_RETRY_ATTEMPTS.

Definition execute_safe : M (World OpState Rng Clock) (option A) := safe_execute.

(** [PostExecutor.post_with_retry(post_func, post_data)], where [func] is
    the call [post_func(post_data)]. *)
Definition post_with_retry : M (World OpState Rng Clock) bool :=
  try_except
    (result <- execute_with_retry;;
     ret (match result with
          | Some _ => true
          | None => false
          end))
    (fun e =>
       failure_count <- increment_failure_counter OpState Rng Clock datetime_now;;
       emit OpState Rng Clock elapse
         (NotifiedError ("Post execution failed: " ++ str_exn e) failure_count);;
       ret false).

End RetryCallers.

(* ===================================================================== *)
(** * failure_tracker.py: reading and pruning the log                     *)
(* ===================================================================== *)

Module FailureStats.
(** The dictionary [get_failure_stats] returns. *)
Record t : Type := {
  total_failures : Z;
  today_failures : Z;
  failure_types : list (string * Z);
  last_failure : option FailureTracker.Entry;
  last_updated : string
}.
End FailureStats.

Section FailureQueries.

(** [datetime.fromisoformat(s).timestamp()] and
    [datetime.fromisoformat(s).date()], which raise on a string that is
    not an ISO timestamp. *)
Variable fromisoformat_timestamp : string -> result Q.
Variable fromisoformat_date : string -> result string.

(** The entries whose time is at or after [cutoff_time], in log order; the
    first entry that does not parse raises. *)
Fixpoint entries_since (cutoff_time : Q) (log : list FailureTracker.Entry)
  : result (list FailureTracker.Entry) :=
  match log with
  | [] => Ok []
  | failure :: rest =>
      let? failure_time :=
        fromisoformat_timestamp (FailureTracker.timestamp failure) in
      let? recent := entries_since cutoff_time rest in
      Ok (if Qle_bool cutoff_time failure_time then failure :: recent else recent)
  end.

(** Whether an entry passes the test of the loop above. *)
Definition recent_enough (cutoff_time : Q) (failure : FailureTracker.Entry) : bool :=
  match fromisoformat_timestamp (FailureTracker.timestamp failure) with
  | Ok failure_time => Qle_bool cutoff_time failure_time
  | Raise _ => false
  end.

(** [get_recent_failures(hours)]; [now_ts] is [datetime.now().timestamp()]. *)
Definition get_recent_failures (now_ts : Q) (hours : Z) (self : FailureTracker.t)
  : result (list FailureTracker.Entry) :=
  let cutoff_time := (now_ts - inject_Z (hours * 3600))%Q in
  entries_since cutoff_time (FailureTracker.failure_log (FailureTracker.data self)).

(** [clear_old_failures(days)]: the number of entries removed; the file is
    written only when some entry was removed. *)
Definition clear_old_failures (now : string) (now_ts : Q) (days : Z)
  (self : FailureTracker.t) : result Z * FailureTracker.t :=
  let cutoff_time := (now_ts - inject_Z (days * 24 * 3600))%Q in
  let log := FailureTracker.failure_log (FailureTracker.data self) in
  let original_count := Z.of_nat (List.length log) in
  match entries_since cutoff_time log with
  | Raise e => (Raise e, self)
  | Ok kept_log =>
      let self :=
        {| FailureTracker.data :=
             {| FailureTracker.total_failures :=
                  FailureTracker.total_failures (FailureTracker.data self);
                FailureTracker.failure_log := kept_log;
                FailureTracker.last_updated :=
                  FailureTracker.last_updated (FailureTracker.data self) |};
           FailureTracker.file := FailureTracker.file self |} in
      let removed_count := original_count - Z.of_nat (List.length kept_log) in
      if removed_count >? 0
      then (Ok removed_count, snd (FailureTracker._save_data now self))
      else (Ok removed_count, self)
  end.

(** The entries of the current day ([today] is [datetime.now().date()]). *)
Fixpoint entries_of_day (today : string) (log : list FailureTracker.Entry)
  : result (list FailureTracker.Entry) :=
  match log with
  | [] => Ok []
  | f :: rest =>
      let? day := fromisoformat_date (FailureTracker.timestamp f) in
      let? recent := entries_of_day today rest in
      Ok (if String.eqb day today then f :: recent else recent)
  end.

(** The loop that counts the entries of each type. *)
Definition count_types (log : list FailureTracker.Entry) : list (string * Z) :=
  fold_left
    (fun failure_types failure =>
       let error_type := FailureTracker.type failure in
       dict_set failure_types error_type
         (match dict_get failure_types error_type with
          | Some n => n
          | None => 0
          end + 1))
    log [].

Definition get_failure_stats (today : string) (self : FailureTracker.t)
  : result FailureStats.t :=
  let log := FailureTracker.failure_log (FailureTracker.data self) in
  let? recent_failures := entries_of_day today log in
  Ok {| FailureStats.total_failures :=
          FailureTracker.total_failures (FailureTracker.data self);
        FailureStats.today_failures := Z.of_nat (List.length recent_failures);
        FailureStats.failure_types := count_types log;
        FailureStats.last_failure := nth_error log (List.length log - 1);
        FailureStats.last_updated :=
          FailureTracker.last_updated (FailureTracker.data self) |}.

End FailureQueries.

(** The number of entries of a type in a log. *)
Definition count_type (t : string) (log : list FailureTracker.Entry) : Z :=
  Z.of_nat (List.length
              (filter (fun f => String.eqb (FailureTracker.type f) t) log)).

(** One mutation of the failure tracker, with the clock reading it sees. *)
Inductive FailureOp : Type :=
| FLog (now error_type details : string) (retry_count : Z)
| FIncrement (now : string).

Definition apply_failure_op (o : FailureOp) (self : FailureTracker.t)
  : FailureTracker.t :=
  match o with
  | FLog now error_type details retry_count =>
      FailureTracker.log_failure now error_type details retry_count self
  | FIncrement now => snd (FailureTracker.increment_failure_counter now self)
  end.

Definition run_failure_ops (ops : list FailureOp) (self : FailureTracker.t)
  : FailureTracker.t :=
  fold_left (fun self o => apply_failure_op o self) ops self.

Definition is_increment (o : FailureOp) : bool :=
  match o with
  | FIncrement _ => true
  | _ => false
  end.

(* ===================================================================== *)
(** * database.py                                                         *)
(* ===================================================================== *)

Module NewsDatabase.
Section NewsDatabase.

(** An article, as the feeds give it. *)
Variable Article : Type.

Record Analytics : Type := {
  total_posts : Z;
  posts_by_model : list (string * Z);
  last_run : option string
}.

Record FailedArticle : Type := {
  article : Article;
  timestamp : string
}.

Record Data : Type := {
  posted_hashes : list string;
  failed_articles : list FailedArticle;
  analytics : Analytics
}.

(** The database object and its file ([None]: no file yet).  Writing the
    file is taken to succeed. *)
Record t : Type := {
  data : Data;
  file : option Data
}.

(** [__init__] with [_load]: the content of the file, or the empty
    structure when there is no file. *)
Definition init (on_disk : option Data) : t :=
  {| data := match on_disk with
             | Some d => d
             | None =>
                 {| posted_hashes := []; failed_articles := [];
                    analytics := {| total_posts := 0; posts_by_model := [];
                                    last_run := None |} |}
             end;
     file := on_disk |}.

Definition _save (self : t) : t :=
  {| data := data self; file := Some (data self) |}.

Definition is_already_posted (article_hash : string) (self : t) : bool :=
  str_in article_hash (posted_hashes (data self)).

(** [mark_as_posted(article_hash, model_used)]; [if model_used] is false
    for [None] and for the empty string. *)
Definition mark_as_posted (article_hash : string) (model_used : option string)
  (self : t) : t :=
  if negb (str_in article_hash (posted_hashes (data self))) then
    let by_model := posts_by_model (analytics (data self)) in
    let by_model :=
      match model_used with
      | Some model =>
          if String.eqb model "" then by_model
          else dict_set by_model model
                 (match dict_get by_model model with
                  | Some n => n
                  | None => 0
                  end + 1)
      | None => by_model
      end in
    _save
      {| data :=
           {| posted_hashes := (posted_hashes (data self) ++ [article_hash])%list;
              failed_articles := failed_articles (data self);
              analytics :=
                {| total_posts := total_posts (analytics (data self)) + 1;
                   posts_by_model := by_model;
                   last_run := last_run (analytics (data self)) |} |};
         file := file self |}
  else self.

Definition add_failed_article (now : string) (a : Article) (self : t) : t :=
  _save
    {| data :=
         {| posted_hashes := posted_hashes (data self);
            failed_articles :=
              (failed_articles (data self)
               ++ [{| article := a; timestamp := now |}])%list;
            analytics := analytics (data self) |};
       file := file self |}.

Definition get_failed_articles (self : t) : list FailedArticle :=
  failed_articles (data self).

(** [l.pop(index)] for [0 <= index < len(l)]: the list without that item. *)
Definition list_pop {X} (index : Z) (l : list X) : list X :=
  (firstn (Z.to_nat index) l ++ skipn (S (Z.to_nat index)) l)%list.

Definition clear_failed_article (index : Z) (self : t) : t :=
  if (0 <=? index) && (index <? Z.of_nat (List.length (failed_articles (data self))))
  then
    _save
      {| data :=
           {| posted_hashes := posted_hashes (data self);
              failed_articles := list_pop index (failed_articles (data self));
              analytics := analytics (data self) |};
         file := file self |}
  else self.

Definition update_last_run (now : string) (self : t) : t :=
  _save
    {| data :=
         {| posted_hashes := posted_hashes (data self);
            failed_articles := failed_articles (data self);
            analytics :=
              {| total_posts := total_posts (analytics (data self));
                 posts_by_model := posts_by_model (analytics (data self));
                 last_run := Some now |} |};
       file := file self |}.

Definition get_analytics (self : t) : Analytics := analytics (data self).
Definition get_posts_by_model (self : t) : list (string * Z) :=
  posts_by_model (analytics (data self)).
Definition get_total_posts (self : t) : Z := total_posts (analytics (data self)).

End NewsDatabase.
End NewsDatabase.

(** One call of [mark_as_posted], and a run of them, oldest first. *)
Definition run_posts {Article} (posts : list (string * option string))
  (db : NewsDatabase.t Article) : NewsDatabase.t Article :=
  fold_left (fun db p => NewsDatabase.mark_as_posted Article (fst p) (snd p) db)
            posts db.

(** The sum of the counts of a dictionary. *)
Definition sum_values (d : list (string * Z)) : Z :=
  fold_right (fun p acc => snd p + acc) 0 d.

(* ===================================================================== *)
(** * content_filter.py: the selection of diverse articles                *)
(* ===================================================================== *)

Definition MAX_POSTS_PER_DAY : Z := 1.

(** [s] is [l] with some items left out, the others in their order. *)
Inductive subsequence {X : Type} : list X -> list X -> Prop :=
| subsequence_nil : subsequence [] []
| subsequence_skip x s l : subsequence s l -> subsequence s (x :: l)
| subsequence_keep x s l : subsequence s l -> subsequence (x :: s) (x :: l).

Section ContentFilter.

(** An article, and [calculate_similarity], a number computed from the
    titles of two articles. *)
Variable Article : Type.
Variable calculate_similarity : Article -> Article -> Q.

(** The inner loop of [ensure_diversity]: [is_diverse] after comparing
    [article] with the articles selected so far, leaving the loop at the
    first one that is too similar. *)
Fixpoint is_diverse (article : Article) (diverse_articles : list Article) : bool :=
  match diverse_articles with
  | [] => true
  | selected :: rest =>
      let similarity := calculate_similarity article selected in
      if Qltb (7 # 10) similarity then false
      else is_diverse article rest
  end.

(** The outer loop, over [articles[1:]]; [limit] is [MAX_POSTS_PER_DAY]. *)
Fixpoint diversity_loop (limit : Z) (articles diverse_articles : list Article)
  : list Article :=
  match articles with
  | [] => diverse_articles
  | article :: rest =>
      let diverse_articles :=
        if is_diverse article diverse_articles
        then (diverse_articles ++ [article])%list
        else diverse_articles in
      if Z.of_nat (List.length diverse_articles) >=? limit then diverse_articles
      else diversity_loop limit rest diverse_articles
  end.

(** [ensure_diversity(articles)] with the limit it reads from the
    configuration as an argument, and as configured. *)
Definition ensure_diversity_upto (limit : Z) (articles : list Article)
  : list Article :=
  if Z.of_nat (List.length articles) <=? 1 then articles
  else
    match articles with
    | first :: rest => diversity_loop limit rest [first]
    | [] => articles
    end.

Definition ensure_diversity (articles : list Article) : list Article :=
  ensure_diversity_upto MAX_POSTS_PER_DAY articles.

End ContentFilter.

(* ===================================================================== *)
(** * Sample timestamps                                                   *)
(* ===================================================================== *)

Module Sample.

(** The date of an ISO timestamp is its first ten characters; the empty
    string is not a timestamp. *)
Definition date_of (s : string) : result string :=
  if String.eqb s "" then Raise (Exception "Invalid isoformat string")
  else Ok (String.substring 0 10 s).

Definition entry (stamp kind : string) : FailureTracker.Entry :=
  {| FailureTracker.timestamp := stamp; FailureTracker.type := kind;
     FailureTracker.details := "details"; FailureTracker.retry_count := 1 |}.

Definition tracker_with (log : list FailureTracker.Entry) : FailureTracker.t :=
  FailureTracker.init "2024-01-02T00:00:00"
    (Some {| FailureTracker.total_failures := 4;
             FailureTracker.failure_log := log;
             FailureTracker.last_updated := "2024-01-02T00:00:00" |}).

(** Every registered backend has failed twice in a row. *)
Definition all_down : HealthStatus :=
  run_ops
    (flat_map (fun name => [OpFailure "2024-01-01T00:00:00" name "503";
                            OpFailure "2024-01-01T00:00:01" name "503"])
       (dict_keys AI_MODELS))
    tracker_init.

(** The interface once initialised on a fresh tracker. *)
Definition api_state : Api.State Scripted.Env :=
  {| Api._ai_client := Some (tracker_init, true);
     Api.outside := {| Scripted.seconds := 0; Scripted.calls := [] |} |}.

End Sample.

(* ===================================================================== *)
(** * Dictionaries                                                        *)
(* ===================================================================== *)

Section DictFacts.
Context {V : Type}.
Implicit Types (d : list (string * V)) (k : string) (v : V).

Lemma dict_get_set_eq d k v : dict_get (dict_set d k v) k = Some v.
Proof.
  induction d as [|[k' v'] d IH]; simpl.
  - now rewrite String.eqb_refl.
  - destruct (String.eqb k k') eqn:E; simpl; rewrite E; auto.
Qed.

Lemma dict_get_set_ne d k k' v :
  k <> k' -> dict_get (dict_set d k v) k' = dict_get d k'.
Proof.
  intros Hne. induction d as [|[k0 v0] d IH]; simpl.
  - apply String.eqb_neq in Hne. rewrite String.eqb_sym, Hne. reflexivity.
  - destruct (String.eqb k k0) eqn:E; simpl.
    + apply String.eqb_eq in E. subst k0.
      assert (String.eqb k' k = false) as -> by (apply String.eqb_neq; congruence).
      reflexivity.
    + now rewrite IH.
Qed.

Lemma dict_keys_set d k v v0 :
  dict_get d k = Some v0 -> dict_keys (dict_set d k v) = dict_keys d.
Proof.
  unfold dict_keys. induction d as [|[k0 v1] d IH]; simpl; [discriminate|].
  destruct (String.eqb k k0) eqn:E; simpl; intros H; [reflexivity|].
  f_equal. auto.
Qed.

Lemma dict_get_in_keys d k v : dict_get d k = Some v -> In k (dict_keys d).
Proof.
  induction d as [|[k0 v0] d IH]; simpl; [discriminate|].
  destruct (String.eqb k k0) eqn:E; intros H.
  - left. apply String.eqb_eq in E. congruence.
  - right. auto.
Qed.

Lemma dict_keys_in_get d k : In k (dict_keys d) -> exists v, dict_get d k = Some v.
Proof.
  induction d as [|[k0 v0] d IH]; simpl; [tauto|].
  intros [H|H]; destruct (String.eqb k k0) eqn:E; eauto.
  subst. now rewrite String.eqb_refl in E.
Qed.

Lemma dict_get_In d k v : dict_get d k = Some v -> In (k, v) d.
Proof.
  induction d as [|[k0 v0] d IH]; simpl; [discriminate|].
  destruct (String.eqb k k0) eqn:E; intros H.
  - apply String.eqb_eq in E. left. congruence.
  - right. auto.
Qed.

Lemma dict_In_get d k v :
  NoDup (dict_keys d) -> In (k, v) d -> dict_get d k = Some v.
Proof.
  induction d as [|[k0 v0] d IH]; simpl; [tauto|].
  intros Hnd [H|H].
  - inversion H; subst. now rewrite String.eqb_refl.
  - inversion Hnd as [|? ? Hnotin Hnd']; subst.
    destruct (String.eqb k k0) eqn:E; auto.
    apply String.eqb_eq in E. subst k0.
    exfalso. apply Hnotin. change (In (fst (k, v)) (map fst d)). now apply in_map.
Qed.
End DictFacts.

Lemma AI_MODELS_keys_NoDup : NoDup (dict_keys AI_MODELS).
Proof.
  unfold dict_keys. simpl.
  repeat (constructor; [simpl; intuition discriminate|]). constructor.
Qed.

(* ===================================================================== *)
(** * The tracker's transitions                                           *)
(* ===================================================================== *)

Lemma tracker_init_ok : tracker_ok tracker_init.
Proof.
  split; [reflexivity|].
  intros name st H. apply dict_get_In in H. simpl in H.
  repeat (destruct H as [H|H]; [inversion H; subst; repeat split; simpl; lia|]).
  contradiction.
Qed.

Lemma tracker_ok_set hs name st st' :
  tracker_ok hs -> dict_get hs name = Some st -> status_ok st' ->
  tracker_ok (dict_set hs name st').
Proof.
  intros [Hk Hs] Hget Hok. split.
  - now rewrite (dict_keys_set _ _ _ _ Hget).
  - intros n s. destruct (string_dec name n) as [->|Hne].
    + rewrite dict_get_set_eq. congruence.
    + rewrite dict_get_set_ne by assumption. apply Hs.
Qed.

Lemma tracker_ok_registered hs name :
  tracker_ok hs -> In name (dict_keys AI_MODELS) ->
  exists st, dict_get hs name = Some st /\ status_ok st.
Proof.
  intros [Hk Hs] Hin. rewrite <- Hk in Hin.
  destruct (dict_keys_in_get _ _ Hin) as [st Hst]. eauto.
Qed.

Lemma effect_on_ok b o st : status_ok st -> status_ok (effect_on b o st).
Proof.
  unfold status_ok. intros (H1 & H2 & H3 & H4).
  destruct o as [now m rt|now m err|m]; simpl;
    destruct (String.eqb m b); simpl; repeat split; lia.
Qed.

(** On a tracker that satisfies its invariant no call raises on a
    registered model, and each call acts entry-wise. *)
Lemma apply_op_spec o hs b st :
  tracker_ok hs -> dict_get hs b = Some st ->
  tracker_ok (snd (apply_op o hs)) /\
  dict_get (snd (apply_op o hs)) b = Some (effect_on b o st).
Proof.
  intros Hok Hb.
  assert (Hst : forall n s, dict_get hs n = Some s -> status_ok s) by apply Hok.
  destruct o as [now m rt|now m err|m]; simpl;
    [unfold mark_success|unfold mark_failure|unfold reset_model];
    destruct (dict_get hs m) as [s|] eqn:Hm; simpl.
  - pose proof (Hst _ _ Hm) as Hs.
    assert ((total_successes s + 1 =? 0) = false) as -> by (apply Z.eqb_neq; unfold status_ok in Hs; lia).
    simpl. split.
    + eapply tracker_ok_set; eauto. apply (effect_on_ok m (OpSuccess now m rt)) in Hs.
      simpl in Hs. rewrite String.eqb_refl in Hs. exact Hs.
    + destruct (String.eqb m b) eqn:E.
      * apply String.eqb_eq in E. subst m. rewrite dict_get_set_eq. congruence.
      * apply String.eqb_neq in E. now rewrite dict_get_set_ne.
  - assert (String.eqb m b = false) as ->.
    { apply String.eqb_neq. intros ->. congruence. }
    auto.
  - pose proof (Hst _ _ Hm) as Hs. split.
    + eapply tracker_ok_set; eauto. apply (effect_on_ok m (OpFailure now m err)) in Hs.
      simpl in Hs. rewrite String.eqb_refl in Hs. exact Hs.
    + destruct (String.eqb m b) eqn:E.
      * apply String.eqb_eq in E. subst m. rewrite dict_get_set_eq. congruence.
      * apply String.eqb_neq in E. now rewrite dict_get_set_ne.
  - assert (String.eqb m b = false) as ->.
    { apply String.eqb_neq. intros ->. congruence. }
    auto.
  - pose proof (Hst _ _ Hm) as Hs. split.
    + eapply tracker_ok_set; eauto. apply (effect_on_ok m (OpReset m)) in Hs.
      simpl in Hs. rewrite String.eqb_refl in Hs. exact Hs.
    + destruct (String.eqb m b) eqn:E.
      * apply String.eqb_eq in E. subst m. rewrite dict_get_set_eq. congruence.
      * apply String.eqb_neq in E. now rewrite dict_get_set_ne.
  - assert (String.eqb m b = false) as ->.
    { apply String.eqb_neq. intros ->. congruence. }
    auto.
Qed.

Lemma apply_op_ok o hs : tracker_ok hs -> tracker_ok (snd (apply_op o hs)).
Proof.
  intros Hok.
  destruct (tracker_ok_registered hs "gemini-direct" Hok) as (st & Hst & _).
  { simpl. tauto. }
  exact (proj1 (apply_op_spec o hs _ _ Hok Hst)).
Qed.

Lemma run_ops_app ops1 ops2 hs :
  run_ops (ops1 ++ ops2) hs = run_ops ops2 (run_ops ops1 hs).
Proof. apply fold_left_app. Qed.

Lemma run_ops_spec ops : forall hs b st,
  tracker_ok hs -> dict_get hs b = Some st ->
  tracker_ok (run_ops ops hs) /\
  dict_get (run_ops ops hs) b = Some (fold_left (fun s o => effect_on b o s) ops st).
Proof.
  induction ops as [|o ops IH]; intros hs b st Hok Hb; simpl; [auto|].
  destruct (apply_op_spec o hs b st Hok Hb) as [Hok' Hb'].
  apply IH; assumption.
Qed.

Lemma run_ops_ok ops hs : tracker_ok hs -> tracker_ok (run_ops ops hs).
Proof.
  revert hs. induction ops as [|o ops IH]; intros hs Hok; simpl; [auto|].
  apply IH, apply_op_ok, Hok.
Qed.

Lemma mark_success_returns hs now m rt :
  tracker_ok hs -> In m (dict_keys AI_MODELS) ->
  fst (mark_success now m rt hs) = Ok tt.
Proof.
  intros Hok Hin. destruct (tracker_ok_registered _ _ Hok Hin) as (st & Hst & Hs).
  unfold mark_success. rewrite Hst. simpl.
  assert ((total_successes st + 1 =? 0) = false) as ->; [|reflexivity].
  apply Z.eqb_neq. unfold status_ok in Hs. lia.
Qed.

Lemma mark_failure_returns hs now m err :
  tracker_ok hs -> In m (dict_keys AI_MODELS) ->
  fst (mark_failure now m err hs) = Ok tt.
Proof.
  intros Hok Hin. destruct (tracker_ok_registered _ _ Hok Hin) as (st & Hst & Hs).
  unfold mark_failure. now rewrite Hst.
Qed.

(** ** The streak counter *)

Lemma streak_without_success b ops : forall st,
  Forall (fun o => o <> OpReset b) ops ->
  (forall o, In o ops -> is_success_on b o = false) ->
  consecutive_failures (fold_left (fun s o => effect_on b o s) ops st)
  = consecutive_failures st + Z.of_nat (count_failures b ops).
Proof.
  unfold count_failures.
  induction ops as [|o ops IH]; intros st Hnr Hns; simpl; [lia|].
  inversion Hnr as [|? ? Ho Hnr']; subst.
  rewrite IH; auto; [|intros o' Ho'; apply Hns; now right].
  pose proof (Hns o (or_introl eq_refl)) as Hs.
  destruct o as [now m rt|now m err|m]; simpl in *.
  - rewrite Hs. lia.
  - destruct (String.eqb m b); simpl; lia.
  - destruct (String.eqb m b) eqn:E; [|lia].
    apply String.eqb_eq in E. subst. congruence.
Qed.

Lemma streak_after_success b pre now rt post st :
  Forall (fun o => o <> OpReset b) post ->
  (forall o, In o post -> is_success_on b o = false) ->
  consecutive_failures
    (fold_left (fun s o => effect_on b o s) (pre ++ OpSuccess now b rt :: post) st)
  = Z.of_nat (count_failures b post).
Proof.
  intros Hnr Hns. rewrite fold_left_app. simpl fold_left at 1.
  rewrite streak_without_success by assumption.
  simpl. now rewrite String.eqb_refl.
Qed.

(** C9.  After any sequence of calls on the tracker that does not reset
    backend [b], the [consecutive_failures] field of [b] is the number of
    failures recorded for [b] since its most recent success, or since the
    start when it never succeeded; a further [mark_success] returns and
    resets it to 0, a further [mark_failure] returns and adds exactly 1. *)
Theorem consecutive_failures_counts_failures_since_success :
  forall b ops,
    In b (dict_keys AI_MODELS) ->
    Forall (fun o => o <> OpReset b) ops ->
    exists st,
      dict_get (run_ops ops tracker_init) b = Some st /\
      ((forall o, In o ops -> is_success_on b o = false) ->
       consecutive_failures st = Z.of_nat (count_failures b ops)) /\
      (forall pre now rt post,
         ops = (pre ++ OpSuccess now b rt :: post)%list ->
         (forall o, In o post -> is_success_on b o = false) ->
         consecutive_failures st = Z.of_nat (count_failures b post)) /\
      (forall now rt,
         fst (mark_success now b rt (run_ops ops tracker_init)) = Ok tt /\
         exists st',
           dict_get (snd (mark_success now b rt (run_ops ops tracker_init))) b = Some st' /\
           consecutive_failures st' = 0) /\
      (forall now err,
         fst (mark_failure now b err (run_ops ops tracker_init)) = Ok tt /\
         exists st',
           dict_get (snd (mark_failure now b err (run_ops ops tracker_init))) b = Some st' /\
           consecutive_failures st' = consecutive_failures st + 1).
Proof.
  intros b ops Hin Hnr.
  destruct (tracker_ok_registered _ _ tracker_init_ok Hin) as (st0 & Hst0 & _).
  assert (Hcf0 : consecutive_failures st0 = 0).
  { apply dict_get_In in Hst0. simpl in Hst0.
    repeat (destruct Hst0 as [Hst0|Hst0]; [inversion Hst0; reflexivity|]).
    contradiction. }
  destruct (run_ops_spec ops _ _ _ tracker_init_ok Hst0) as [Hok Hget].
  eexists. split; [exact Hget|]. repeat split.
  - intros Hns. rewrite streak_without_success by assumption. lia.
  - intros pre now rt post -> Hns.
    apply streak_after_success; [|assumption].
    apply Forall_app in Hnr. destruct Hnr as [_ Hnr]. now inversion Hnr.
  - now apply mark_success_returns.
  - destruct (apply_op_spec (OpSuccess now b rt) _ _ _ Hok Hget) as [_ H].
    simpl in H. rewrite String.eqb_refl in H. eexists. split; [exact H|reflexivity].
  - now apply mark_failure_returns.
  - destruct (apply_op_spec (OpFailure now b err) _ _ _ Hok Hget) as [_ H].
    simpl in H. rewrite String.eqb_refl in H. eexists. split; [exact H|reflexivity].
Qed.

Lemma consecutive_failures_counts_failures_since_success_witness :
  let b := "llama-3.3-70b" in
  let ops := [OpFailure "t1" b "timeout"; OpSuccess "t2" b 1;
              OpFailure "t3" "mistral-nemo" "quota"; OpReset "mistral-nemo";
              OpFailure "t4" b "timeout"; OpFailure "t5" b "timeout"] in
  In b (dict_keys AI_MODELS) /\
  Forall (fun o => o <> OpReset b) ops /\
  exists st, dict_get (run_ops ops tracker_init) b = Some st /\
             consecutive_failures st = 2.
Proof.
  intros b ops.
  assert (Hin : In b (dict_keys AI_MODELS)) by (simpl; tauto).
  assert (Hnr : Forall (fun o => o <> OpReset b) ops)
    by (repeat constructor; discriminate).
  split; [exact Hin|]. split; [exact Hnr|].
  destruct (consecutive_failures_counts_failures_since_success b ops Hin Hnr)
    as (st & Hget & _ & Hsince & _).
  exists st. split; [exact Hget|].
  rewrite (Hsince [OpFailure "t1" b "timeout"] "t2" 1%Q
             [OpFailure "t3" "mistral-nemo" "quota"; OpReset "mistral-nemo";
              OpFailure "t4" b "timeout"; OpFailure "t5" b "timeout"] eq_refl).
  - reflexivity.
  - intros o Ho. simpl in Ho.
    repeat (destruct Ho as [Ho|Ho]; [subst o; reflexivity|]). contradiction.
Defined.

(** C10.  In every state reached from the initial one by any sequence of
    [mark_success], [mark_failure] and [reset_model] calls, every backend
    has [total_calls = total_successes + total_failures]; from there
    [mark_success] adds one to [total_calls] and [total_successes],
    [mark_failure] adds one to [total_calls] and [total_failures], and
    [reset_model] changes none of the three. *)
Theorem total_calls_is_successes_plus_failures :
  forall ops b st,
    dict_get (run_ops ops tracker_init) b = Some st ->
    total_calls st = total_successes st + total_failures st /\
    (forall now rt, exists st',
       dict_get (snd (mark_success now b rt (run_ops ops tracker_init))) b = Some st' /\
       total_calls st' = total_calls st + 1 /\
       total_successes st' = total_successes st + 1 /\
       total_failures st' = total_failures st) /\
    (forall now err, exists st',
       dict_get (snd (mark_failure now b err (run_ops ops tracker_init))) b = Some st' /\
       total_calls st' = total_calls st + 1 /\
       total_successes st' = total_successes st /\
       total_failures st' = total_failures st + 1) /\
    (exists st',
       dict_get (snd (reset_model b (run_ops ops tracker_init))) b = Some st' /\
       total_calls st' = total_calls st /\
       total_successes st' = total_successes st /\
       total_failures st' = total_failures st).
Proof.
  intros ops b st Hget.
  pose proof (run_ops_ok ops _ tracker_init_ok) as Hok.
  split; [apply (proj2 Hok _ _ Hget)|].
  split; [|split].
  - intros now rt.
    destruct (apply_op_spec (OpSuccess now b rt) _ _ _ Hok Hget) as [_ H].
    simpl in H. rewrite String.eqb_refl in H. eexists. split; [exact H|]. auto.
  - intros now err.
    destruct (apply_op_spec (OpFailure now b err) _ _ _ Hok Hget) as [_ H].
    simpl in H. rewrite String.eqb_refl in H. eexists. split; [exact H|]. auto.
  - destruct (apply_op_spec (OpReset b) _ _ _ Hok Hget) as [_ H].
    simpl in H. rewrite String.eqb_refl in H. eexists. split; [exact H|]. auto.
Qed.

Lemma total_calls_is_successes_plus_failures_witness :
  let b := "gemini-direct" in
  let ops := [OpSuccess "t1" b (3 # 2); OpFailure "t2" b "quota"; OpReset b;
              OpFailure "t3" b "quota"; OpSuccess "t4" "mistral-nemo" 1] in
  exists st,
    dict_get (run_ops ops tracker_init) b = Some st /\
    total_calls st = 3 /\ total_successes st = 1 /\ total_failures st = 2 /\
    total_calls st = total_successes st + total_failures st.
Proof.
  intros b ops.
  eexists. split; [reflexivity|].
  split; [reflexivity|]. split; [reflexivity|]. split; [reflexivity|].
  refine (proj1 (total_calls_is_successes_plus_failures ops b _ _)).
  reflexivity.
Defined.

(* ===================================================================== *)
(** * The sort: a stable permutation in key order                         *)
(* ===================================================================== *)

Lemma precedes_cons {A} (x : A) l a b : precedes l a b -> precedes (x :: l) a b.
Proof. intros (l1 & l2 & l3 & ->). now exists (x :: l1), l2, l3. Qed.

Lemma precedes_head {A} (a b : A) l : In b l -> precedes (a :: l) a b.
Proof.
  intros H. apply in_split in H. destruct H as (l2 & l3 & ->).
  now exists [], l2, l3.
Qed.

Lemma precedes_map {A B} (f : A -> B) l a b :
  precedes l a b -> precedes (map f l) (f a) (f b).
Proof.
  intros (l1 & l2 & l3 & ->).
  exists (map f l1), (map f l2), (map f l3).
  rewrite map_app. simpl. rewrite map_app. reflexivity.
Qed.

Lemma precedes_in_tail {A} (x : A) l a b :
  precedes (x :: l) a b -> In b l.
Proof.
  intros (l1 & l2 & l3 & H). destruct l1 as [|y l1]; simpl in H; inversion H; subst.
  - apply in_or_app. right. now left.
  - apply in_or_app. right. right. apply in_or_app. right. now left.
Qed.

Lemma StronglySorted_impl {A} (R R' : A -> A -> Prop) l :
  (forall a b, In a l -> In b l -> R a b -> R' a b) ->
  StronglySorted R l -> StronglySorted R' l.
Proof.
  intros Himp Hs. induction Hs as [|a l Hs IH Hall]; constructor.
  - apply IH. intros x y Hx Hy. apply Himp; now right.
  - rewrite Forall_forall in *. intros y Hy.
    apply Himp; [now left|now right|auto].
Qed.

Lemma StronglySorted_map {A B} (f : A -> B) (R : A -> A -> Prop)
  (R' : B -> B -> Prop) l :
  (forall a b, In a l -> In b l -> R a b -> R' (f a) (f b)) ->
  StronglySorted R l -> StronglySorted R' (map f l).
Proof.
  intros Himp Hs. induction Hs as [|a l Hs IH Hall]; simpl; constructor.
  - apply IH. intros x y Hx Hy. apply Himp; now right.
  - rewrite Forall_forall in *. intros y Hy.
    apply in_map_iff in Hy. destruct Hy as (x & <- & Hx).
    apply Himp; [now left|now right|auto].
Qed.

Lemma rmap_total {A B} (f : A -> result B) (g : A -> B) l :
  (forall x, In x l -> f x = Ok (g x)) -> rmap f l = Ok (map g l).
Proof.
  induction l as [|x l IH]; intros H; simpl; [reflexivity|].
  rewrite (H x) by now left. simpl. rewrite IH; [reflexivity|].
  intros y Hy. apply H. now right.
Qed.

Lemma combine_map_self {A K} (key : A -> K) l :
  combine (map key l) l = map (fun x => (key x, x)) l.
Proof. induction l; simpl; congruence. Qed.

Section PySortFacts.
Context {K A : Type}.
Variable lt : K -> K -> bool.
Hypothesis lt_asym : forall a b, lt a b = true -> lt b a = false.
Hypothesis lt_negtrans :
  forall a b c, lt a b = false -> lt b c = false -> lt a c = false.

Lemma sorts_before_asym r a b :
  sorts_before lt r a b = true -> sorts_before lt r b a = false.
Proof. destruct r; simpl; apply lt_asym. Qed.

Lemma sorts_before_negtrans r a b c :
  sorts_before lt r a b = false -> sorts_before lt r b c = false ->
  sorts_before lt r a c = false.
Proof. destruct r; simpl; eauto. Qed.

Lemma sort_insert_perm r (x : K * A) l :
  Permutation (sort_insert lt r x l) (x :: l).
Proof.
  induction l as [|y l IH]; simpl; [reflexivity|].
  destruct (sorts_before lt r (fst y) (fst x)); [|reflexivity].
  rewrite IH. apply perm_swap.
Qed.

Lemma sort_keyed_perm r (l : list (K * A)) : Permutation (sort_keyed lt r l) l.
Proof.
  induction l as [|x l IH]; simpl; [reflexivity|].
  rewrite sort_insert_perm. now constructor.
Qed.

Lemma sort_insert_in_order r (x : K * A) (l0 s : list (K * A)) :
  (forall z, In z s -> In z l0) ->
  StronglySorted (in_order lt r l0) s ->
  StronglySorted (in_order lt r (x :: l0)) (sort_insert lt r x s).
Proof.
  intros Hsub Hs. induction Hs as [|y s Hs IH Hall]; simpl.
  - repeat constructor.
  - assert (Hweak : StronglySorted (in_order lt r (x :: l0)) (y :: s)).
    { apply StronglySorted_impl with (R := in_order lt r l0).
      - intros a b _ _ [H1 H2]. split; [exact H1|]. intros H.
        apply precedes_cons. auto.
      - now constructor. }
    rewrite Forall_forall in Hall.
    destruct (sorts_before lt r (fst y) (fst x)) eqn:E.
    + constructor.
      * apply IH. intros z Hz. apply Hsub. now right.
      * rewrite Forall_forall. intros z Hz.
        apply (Permutation_in _ (sort_insert_perm r x s)) in Hz.
        destruct Hz as [<-|Hz].
        -- split; [now apply sorts_before_asym|]. congruence.
        -- inversion Hweak as [|? ? _ Hall']; subst.
           rewrite Forall_forall in Hall'. auto.
    + constructor; [exact Hweak|].
      rewrite Forall_forall. intros z Hz. split.
      * destruct Hz as [<-|Hz]; [exact E|].
        apply sorts_before_negtrans with (b := fst y); [|exact E].
        apply (Hall z Hz).
      * intros _. apply precedes_head. apply Hsub. exact Hz.
Qed.

Lemma sort_keyed_in_order r (l : list (K * A)) :
  StronglySorted (in_order lt r l) (sort_keyed lt r l).
Proof.
  induction l as [|x l IH]; simpl; [constructor|].
  apply sort_insert_in_order; [|exact IH].
  intros z Hz. apply (Permutation_in _ (sort_keyed_perm r l)). exact Hz.
Qed.

(** [l.sort(key=..., reverse=r)] with a key function that does not raise:
    a permutation of [l], in key order, ties in the order of [l]. *)
Lemma list_sort_spec (key : A -> K) r (l : list A) :
  exists l',
    list_sort lt (fun x => Ok (key x)) r l = Ok l' /\
    Permutation l' l /\
    StronglySorted
      (fun a b => sorts_before lt r (key b) (key a) = false /\
                  (sorts_before lt r (key a) (key b) = false -> precedes l a b))
      l'.
Proof.
  unfold list_sort.
  rewrite (rmap_total _ key) by reflexivity. simpl.
  rewrite combine_map_self.
  set (dl := map (fun x => (key x, x)) l).
  assert (Hsnd : map snd dl = l).
  { unfold dl. rewrite map_map. simpl. apply map_id. }
  eexists. split; [reflexivity|]. split.
  - rewrite (Permutation_map snd (sort_keyed_perm r dl)). now rewrite Hsnd.
  - apply StronglySorted_map with (R := in_order lt r dl);
      [|apply sort_keyed_in_order].
    assert (Hdeco : forall d, In d (sort_keyed lt r dl) -> fst d = key (snd d)).
    { intros d Hd. apply (Permutation_in _ (sort_keyed_perm r dl)) in Hd.
      unfold dl in Hd. apply in_map_iff in Hd. now destruct Hd as (x & <- & _). }
    intros a b Ha Hb [H1 H2].
    rewrite <- (Hdeco a Ha), <- (Hdeco b Hb). split; [exact H1|].
    intros H. rewrite <- Hsnd. apply precedes_map. auto.
Qed.
End PySortFacts.

Lemma list_sort_ext {K A} (lt : K -> K -> bool) (f : A -> result K) (g : A -> K)
  r l :
  (forall x, In x l -> f x = Ok (g x)) ->
  list_sort lt f r l = list_sort lt (fun x => Ok (g x)) r l.
Proof.
  intros H. unfold list_sort.
  rewrite (rmap_total f g l H), (rmap_total _ g l); reflexivity.
Qed.

(* ===================================================================== *)
(** * Ranking the candidates                                              *)
(* ===================================================================== *)

Lemma Qltb_true a b : Qltb a b = true <-> (a < b)%Q.
Proof.
  unfold Qltb. rewrite negb_true_iff, <- not_true_iff_false, Qle_bool_iff.
  split; [apply Qnot_le_lt|apply Qlt_not_le].
Qed.

Lemma Qltb_false a b : Qltb a b = false <-> (b <= a)%Q.
Proof. unfold Qltb. now rewrite negb_false_iff, Qle_bool_iff. Qed.

Lemma Qltb_asym a b : Qltb a b = true -> Qltb b a = false.
Proof. rewrite Qltb_true, Qltb_false. apply Qlt_le_weak. Qed.

Lemma Qltb_negtrans a b c : Qltb a b = false -> Qltb b c = false -> Qltb a c = false.
Proof. rewrite !Qltb_false. intros H1 H2. now apply Qle_trans with b. Qed.

Lemma precedes_inv {A} (x : A) l a b :
  precedes (x :: l) a b -> (a = x /\ In b l) \/ precedes l a b.
Proof.
  intros (l1 & l2 & l3 & H). destruct l1 as [|y l1]; simpl in H; inversion H; subst.
  - left. split; [reflexivity|]. apply in_or_app. right. now left.
  - right. now exists l1, l2, l3.
Qed.

Lemma skipped_false st : skipped st = false <-> ~ spec_excluded st.
Proof.
  unfold skipped, spec_excluded.
  destruct (is_healthy st) as [[|]|]; split; intros H; try reflexivity;
    try (intros [H1 _]; discriminate).
  - intros [_ H2]. apply Z.geb_le in H2. congruence.
  - destruct (consecutive_failures st >=? 2) eqn:E; [|reflexivity].
    exfalso. apply H. split; [reflexivity|]. now apply Z.geb_le.
Qed.

Lemma scored_loop_entries task hs items :
  (forall n, In n (dict_keys items) -> dict_get hs n <> None) ->
  scored_loop task hs items = Ok (flat_map (rank_entry task hs) items).
Proof.
  induction items as [|[n info] items IH]; intros Hreg; simpl; [reflexivity|].
  unfold rank_entry at 1, dict_item. simpl.
  destruct (dict_get hs n) as [st|] eqn:Hn.
  - simpl. rewrite IH by (intros m Hm; apply Hreg; now right).
    destruct (skipped st); reflexivity.
  - exfalso. apply (Hreg n); [now left|exact Hn].
Qed.

Lemma rank_entry_in task hs items name score :
  In (name, score) (flat_map (rank_entry task hs) items) ->
  exists info st,
    In (name, info) items /\ dict_get hs name = Some st /\
    skipped st = false /\ score = suitability_score task info st.
Proof.
  rewrite in_flat_map. intros ([n info] & Hin & Hent).
  unfold rank_entry in Hent. simpl in Hent.
  destruct (dict_get hs n) as [st|] eqn:Hn; [|contradiction].
  destruct (skipped st) eqn:Hs; [contradiction|].
  destruct Hent as [Hent|[]]. inversion Hent; subst.
  exists info, st. repeat split; assumption.
Qed.

Lemma rank_entry_names task hs items n :
  In n (map fst (flat_map (rank_entry task hs) items)) -> In n (dict_keys items).
Proof.
  rewrite in_map_iff. intros ([name score] & <- & Hin).
  apply rank_entry_in in Hin. destruct Hin as (info & st & Hin & _).
  simpl. unfold dict_keys. apply in_map_iff. exists (name, info). now split.
Qed.


Lemma rank_entry_precedes task hs items a b :
  precedes (flat_map (rank_entry task hs) items) a b ->
  precedes (dict_keys items) (fst a) (fst b).
Proof.
  induction items as [|[n info] items IH]; simpl.
  - intros (l1 & l2 & l3 & H). destruct l1; discriminate.
  - unfold rank_entry at 1. simpl.
    destruct (dict_get hs n) as [st|]; [|intros H; apply precedes_cons; auto].
    destruct (skipped st); [intros H; apply precedes_cons; auto|]. simpl.
    intros H. apply precedes_inv in H. destruct H as [[-> Hb]|H].
    + simpl. apply precedes_head. apply (rank_entry_names task hs).
      apply in_map. exact Hb.
    + apply precedes_cons. auto.
Qed.

(** The shape of the ranking on a tracker that has an entry for every
    registered model. *)
Lemma ranking_structure task hs :
  (forall n, In n (dict_keys AI_MODELS) -> dict_get hs n <> None) ->
  exists scored,
    _get_suitable_models task hs = Ok (map fst scored) /\
    Permutation scored (flat_map (rank_entry task hs) AI_MODELS) /\
    StronglySorted
      (fun a b => (snd b <= snd a)%Q /\
                  ((snd a == snd b)%Q ->
                   precedes (dict_keys AI_MODELS) (fst a) (fst b)))
      scored.
Proof.
  intros Hreg. unfold _get_suitable_models.
  rewrite (scored_loop_entries task hs AI_MODELS Hreg).
  set (scored0 := flat_map (rank_entry task hs) AI_MODELS). cbn [rbind].
  destruct (list_sort_spec Qltb Qltb_asym Qltb_negtrans
              (fun x : string * Q => snd x) true scored0)
    as (scored & Hsort & Hperm & Hsorted).
  exists scored. rewrite Hsort. cbn [rbind].
  split; [reflexivity|]. split; [exact Hperm|].
  eapply StronglySorted_impl; [|exact Hsorted].
  intros a b _ _ [H1 H2]. simpl in H1, H2.
  apply Qltb_false in H1. split; [exact H1|].
  intros Heq. apply (rank_entry_precedes task hs). apply H2.
  apply Qltb_false. rewrite Heq. apply Qle_refl.
Qed.

(** C5.  On every tracker state (one entry per registered model) the
    ranking returns, and a backend that is unhealthy with a
    consecutive-failure counter of at least 2 is not in the list. *)
Theorem unhealthy_streak_never_ranked :
  forall hs task,
    (forall n, In n (dict_keys AI_MODELS) -> dict_get hs n <> None) ->
    exists ranked,
      _get_suitable_models task hs = Ok ranked /\
      forall name st,
        dict_get hs name = Some st ->
        is_healthy st = Some false ->
        2 <= consecutive_failures st ->
        ~ In name ranked.
Proof.
  intros hs task Hreg.
  destruct (ranking_structure task hs Hreg) as (scored & Hrank & Hperm & _).
  exists (map fst scored). split; [exact Hrank|].
  intros name st Hget Hun Hcf Hin.
  apply in_map_iff in Hin. destruct Hin as ([n score] & Hn & Hin).
  simpl in Hn. subst n.
  apply (Permutation_in _ Hperm) in Hin.
  apply rank_entry_in in Hin.
  destruct Hin as (info & st' & _ & Hget' & Hskip & _).
  assert (st' = st) by congruence. subst st'.
  apply skipped_false in Hskip. apply Hskip. now split.
Qed.

Lemma unhealthy_streak_never_ranked_witness :
  let hs := run_ops [OpFailure "t1" "gemini-2.0-flash" "timeout";
                     OpFailure "t2" "gemini-2.0-flash" "timeout"] tracker_init in
  (forall n, In n (dict_keys AI_MODELS) -> dict_get hs n <> None) /\
  exists ranked,
    _get_suitable_models "creative_writing" hs = Ok ranked /\
    ~ In "gemini-2.0-flash" ranked.
Proof.
  intros hs.
  assert (Hreg : forall n, In n (dict_keys AI_MODELS) -> dict_get hs n <> None).
  { intros n Hn. simpl in Hn.
    repeat (destruct Hn as [<-|Hn]; [discriminate|]). contradiction. }
  split; [exact Hreg|].
  destruct (unhealthy_streak_never_ranked hs "creative_writing" Hreg)
    as (ranked & Hrank & Hnot).
  exists ranked. split; [exact Hrank|].
  eapply Hnot; [reflexivity|reflexivity|simpl; lia].
Defined.

Lemma speed_bonus_is_spec s :
  inject_Z (match dict_get speed_map s with Some bonus => bonus | None => 0 end)
  = spec_speed_bonus s.
Proof.
  unfold spec_speed_bonus. simpl.
  destruct (String.eqb s "very_fast"); [reflexivity|].
  destruct (String.eqb s "fast"); [reflexivity|].
  destruct (String.eqb s "medium"); [reflexivity|].
  destruct (String.eqb s "slow"); reflexivity.
Qed.

(** On an entry that satisfies the invariant the score the code accumulates
    is the sum the specification gives. *)
Lemma suitability_score_is_spec_score task info st :
  status_ok st ->
  (suitability_score task info st == spec_score task info st)%Q.
Proof.
  intros (Hs & Hf & Hc & _).
  unfold suitability_score, spec_score. rewrite speed_bonus_is_spec.
  set (bonus := spec_speed_bonus (speed info)).
  destruct (total_calls st >? 0) eqn:E.
  - apply Z.gtb_lt in E. rewrite Z.max_l by lia.
    set (rate := (inject_Z (total_successes st) / inject_Z (total_calls st))%Q).
    destruct (str_in task (best_for info)), (is_healthy st) as [[|]|];
      rewrite !inject_Z_plus; simpl inject_Z; ring.
  - assert (Hz : total_calls st = 0) by (rewrite Z.gtb_ltb in E; apply Z.ltb_ge in E; lia).
    assert (Hz' : total_successes st = 0) by lia.
    rewrite Hz, Hz'. simpl Z.max.
    destruct (str_in task (best_for info)), (is_healthy st) as [[|]|];
      rewrite !inject_Z_plus; simpl inject_Z; field; discriminate.
Qed.



(* ===================================================================== *)
(** * The healthy models                                                  *)
(* ===================================================================== *)

Lemma list_sort_perm {K A} (lt : K -> K -> bool) (key : A -> K) r (l : list A) :
  exists l', list_sort lt (fun x => Ok (key x)) r l = Ok l' /\ Permutation l' l.
Proof.
  unfold list_sort. rewrite (rmap_total _ key) by reflexivity. simpl.
  rewrite combine_map_self. eexists. split; [reflexivity|].
  rewrite (Permutation_map snd (sort_keyed_perm lt r _)).
  rewrite map_map. simpl. now rewrite map_id.
Qed.

Lemma healthy_loop_kept tier_arg items :
  (forall item, In item items -> In (fst item) (dict_keys AI_MODELS)) ->
  healthy_loop tier_arg items = Ok (map fst (filter (kept tier_arg) items)).
Proof.
  induction items as [|[n st] items IH]; intros Hreg; simpl; [reflexivity|].
  assert (IH' := IH (fun item H => Hreg item (or_intror H))). clear IH.
  unfold kept at 1. simpl.
  destruct (dict_keys_in_get AI_MODELS n (Hreg (n, st) (or_introl eq_refl)))
    as [info Hinfo].
  assert (Hkeep :
    (let? skip :=
       match tier_arg with
       | None => Ok false
       | Some t =>
           if t =? 0 then Ok false
           else let? info := dict_item AI_MODELS n in Ok (negb (tier info =? t))
       end in
     if skip then healthy_loop tier_arg items
     else let? healthy := healthy_loop tier_arg items in Ok (n :: healthy))
    = Ok (map fst
            (if match tier_arg with
                | None => true
                | Some t =>
                    if t =? 0 then true
                    else match dict_get AI_MODELS n with
                         | Some info => tier info =? t
                         | None => false
                         end
                end
             then (n, st) :: filter (kept tier_arg) items
             else filter (kept tier_arg) items))).
  { unfold dict_item. rewrite Hinfo, IH'.
    destruct tier_arg as [t|]; [|reflexivity].
    destruct (t =? 0); [reflexivity|]. simpl.
    destruct (tier info =? t); reflexivity. }
  destruct (is_healthy st) as [[|]|]; [|exact IH'|];
    (destruct (consecutive_failures st >=? 3); [exact IH'|exact Hkeep]).
Qed.

Lemma health_key_total hs x :
  In x (dict_keys hs) -> In x (dict_keys AI_MODELS) ->
  health_key hs x = Ok (health_key_of hs x).
Proof.
  intros H1 H2.
  destruct (dict_keys_in_get _ _ H1) as [st Hst].
  destruct (dict_keys_in_get _ _ H2) as [info Hinfo].
  unfold health_key, health_key_of, dict_item. now rewrite Hst, Hinfo.
Qed.

Lemma kept_iff tier_arg name st :
  kept tier_arg (name, st) = true <->
  is_healthy st <> Some false /\ consecutive_failures st < 3 /\
  match tier_arg with
  | None => True
  | Some t => t = 0 \/ exists info, dict_get AI_MODELS name = Some info /\ tier info = t
  end.
Proof.
  unfold kept. simpl.
  assert (Htier :
    match tier_arg with
    | None => true
    | Some t =>
        if t =? 0 then true
        else match dict_get AI_MODELS name with
             | Some info => tier info =? t
             | None => false
             end
    end = true <->
    match tier_arg with
    | None => True
    | Some t => t = 0 \/ exists info, dict_get AI_MODELS name = Some info /\ tier info = t
    end).
  { destruct tier_arg as [t|]; [|tauto].
    destruct (t =? 0) eqn:E0.
    - apply Z.eqb_eq in E0. tauto.
    - apply Z.eqb_neq in E0. destruct (dict_get AI_MODELS name) as [info|].
      + rewrite Z.eqb_eq. split; [eauto|].
        intros [H|(i & Hi & Ht)]; [contradiction|congruence].
      + split; [discriminate|]. intros [H|(i & Hi & _)]; [contradiction|discriminate]. }
  destruct (consecutive_failures st >=? 3) eqn:E3.
  - apply Z.geb_le in E3.
    destruct (is_healthy st) as [[|]|]; split; try discriminate; intros (_ & H & _); lia.
  - rewrite Z.geb_leb in E3. apply Z.leb_gt in E3.
    destruct (is_healthy st) as [[|]|]; rewrite ?Htier; split;
      try discriminate; try (intros (H & _); congruence);
      try (intros H; repeat split; [discriminate|lia|exact H]);
      try (intros (_ & _ & H); exact H).
Qed.

(** C4, as the code has it.  On every tracker state [get_healthy_models]
    returns, and a backend is in the list exactly when it is not unhealthy,
    has fewer than 3 consecutive failures and passes the optional tier
    filter ([None] and [0] do not filter). *)
Theorem healthy_models_membership :
  forall hs tier_arg,
    dict_keys hs = dict_keys AI_MODELS ->
    exists healthy,
      get_healthy_models tier_arg hs = Ok healthy /\
      forall name,
        In name healthy <->
        exists st,
          dict_get hs name = Some st /\
          is_healthy st <> Some false /\
          consecutive_failures st < 3 /\
          match tier_arg with
          | None => True
          | Some t =>
              t = 0 \/
              exists info, dict_get AI_MODELS name = Some info /\ tier info = t
          end.
Proof.
  intros hs tier_arg Hkeys.
  assert (Hnd : NoDup (dict_keys hs)) by (rewrite Hkeys; apply AI_MODELS_keys_NoDup).
  assert (Hreg : forall item, In item hs -> In (fst item) (dict_keys AI_MODELS)).
  { intros item Hin. rewrite <- Hkeys. unfold dict_keys. now apply in_map. }
  unfold get_healthy_models. rewrite (healthy_loop_kept tier_arg hs Hreg).
  cbn [rbind].
  set (names := map fst (filter (kept tier_arg) hs)).
  rewrite (list_sort_ext health_key_lt (health_key hs) (health_key_of hs)).
  2:{ intros x Hx. unfold names in Hx. apply in_map_iff in Hx.
      destruct Hx as (item & <- & Hin). apply filter_In in Hin.
      destruct Hin as [Hin _]. apply health_key_total.
      - unfold dict_keys. now apply in_map.
      - now apply Hreg. }
  destruct (list_sort_perm health_key_lt (health_key_of hs) true names)
    as (healthy & Hsort & Hperm).
  exists healthy. split; [exact Hsort|].
  intros name. split.
  - intros Hin. apply (Permutation_in _ Hperm) in Hin.
    unfold names in Hin. apply in_map_iff in Hin.
    destruct Hin as ([n st] & Hn & Hin). simpl in Hn. subst n.
    apply filter_In in Hin. destruct Hin as [Hin Hkept].
    exists st. split; [now apply dict_In_get|]. now apply kept_iff.
  - intros (st & Hget & Hrest).
    apply (Permutation_in _ (Permutation_sym Hperm)).
    unfold names. apply in_map_iff. exists (name, st). split; [reflexivity|].
    apply filter_In. split; [now apply dict_get_In|]. now apply kept_iff.
Qed.

Lemma healthy_models_membership_witness :
  let hs := run_ops [OpFailure "t1" "qwen-2.5-72b" "timeout";
                     OpSuccess "t2" "llama-3.1-8b" 2] tracker_init in
  dict_keys hs = dict_keys AI_MODELS /\
  exists healthy,
    get_healthy_models (Some 2) hs = Ok healthy /\
    In "llama-3.1-8b" healthy /\ ~ In "qwen-2.5-72b" healthy.
Proof.
  intros hs.
  assert (Hkeys : dict_keys hs = dict_keys AI_MODELS) by reflexivity.
  split; [exact Hkeys|].
  destruct (healthy_models_membership hs (Some 2) Hkeys) as (healthy & Hget & Hmem).
  exists healthy. split; [exact Hget|]. split.
  - apply Hmem. eexists. split; [reflexivity|].
    split; [discriminate|]. split; [simpl; lia|].
    right. eexists. split; reflexivity.
  - intros Hin. apply Hmem in Hin. destruct Hin as (st & Hst & Hh & _).
    vm_compute in Hst. inversion Hst; subst st. apply Hh. reflexivity.
Defined.

(** C4, as the specification states it, fails: one failure makes a backend unhealthy
    with a streak of 1, and [get_healthy_models] leaves it out. *)
Lemma unhealthy_after_one_failure_is_left_out :
  let hs := snd (mark_failure "t1" "gemini-2.0-flash" "timeout" tracker_init) in
  (exists st,
     dict_get hs "gemini-2.0-flash" = Some st /\
     is_healthy st = Some false /\ consecutive_failures st = 1) /\
  get_healthy_models None hs
  = Ok ["llama-3.3-70b"; "qwen-2.5-72b"; "gemini-direct"; "llama-3.1-8b";
        "hermes-3-405b"; "mistral-nemo"] /\
  ~ (forall name st healthy,
       dict_get hs name = Some st ->
       is_healthy st = Some false ->
       1 <= consecutive_failures st <= 2 ->
       get_healthy_models None hs = Ok healthy ->
       In name healthy).
Proof.
  intros hs. split; [|split].
  - eexists. split; [reflexivity|]. split; reflexivity.
  - vm_compute. reflexivity.
  - intros H.
    specialize (H "gemini-2.0-flash" _ _ eq_refl eq_refl
                  ltac:(simpl; lia) eq_refl).
    simpl in H. intuition discriminate.
Qed.

(** ** The order of the healthy models *)

Lemma health_key_lt_true a b : health_key_lt a b = true <-> lex_lt a b.
Proof.
  destruct a as [[r1 t1] l1], b as [[r2 t2] l2]. unfold health_key_lt, lex_lt.
  destruct (Qeq_bool r1 r2) eqn:Er.
  - apply Qeq_bool_iff in Er. destruct (t1 =? t2) eqn:Et.
    + apply Z.eqb_eq in Et. rewrite Qltb_true. split.
      * intros H. right. split; [exact Er|]. right. now split.
      * intros [H|[_ [H|[_ H]]]]; [lra|lia|exact H].
    + apply Z.eqb_neq in Et. rewrite Z.ltb_lt. split.
      * intros H. right. split; [exact Er|]. now left.
      * intros [H|[_ [H|[H _]]]]; [lra|exact H|contradiction].
  - apply Qeq_bool_neq in Er. rewrite Qltb_true. split.
    + now left.
    + intros [H|[H _]]; [exact H|contradiction].
Qed.

Lemma health_key_lt_false a b :
  health_key_lt a b = false <->
  let '(r1, t1, l1) := a in
  let '(r2, t2, l2) := b in
  (r2 <= r1)%Q /\ ((r1 == r2)%Q -> t2 <= t1 /\ (t1 = t2 -> (l2 <= l1)%Q)).
Proof.
  rewrite <- not_true_iff_false, health_key_lt_true.
  destruct a as [[r1 t1] l1], b as [[r2 t2] l2]. unfold lex_lt. split.
  - intros H. split.
    + destruct (Qlt_le_dec r1 r2); [|assumption]. exfalso. apply H. now left.
    + intros Hr. split.
      * destruct (Z_lt_le_dec t1 t2); [|assumption]. exfalso. apply H. right. split; [assumption|now left].
      * intros Ht. destruct (Qlt_le_dec l1 l2); [|assumption]. exfalso. apply H. right. split; [assumption|]. right. now split.
  - intros [H1 H2] [H|[Hr [H|[Ht H]]]].
    + lra.
    + specialize (H2 Hr). lia.
    + destruct (H2 Hr) as [_ H3]. specialize (H3 Ht). lra.
Qed.

Lemma health_key_lt_asym a b : health_key_lt a b = true -> health_key_lt b a = false.
Proof.
  rewrite health_key_lt_true, health_key_lt_false.
  destruct a as [[r1 t1] l1], b as [[r2 t2] l2]. unfold lex_lt.
  intros [H|[Hr [H|[Ht H]]]].
  - split; [lra|]. intros; lra.
  - split; [lra|]. intros _. split; [lia|]. intros; lia.
  - split; [lra|]. intros _. split; [lia|]. intros _. lra.
Qed.

Lemma health_key_lt_negtrans a b c :
  health_key_lt a b = false -> health_key_lt b c = false -> health_key_lt a c = false.
Proof.
  rewrite !health_key_lt_false.
  destruct a as [[r1 t1] l1], b as [[r2 t2] l2], c as [[r3 t3] l3].
  intros [H1 H2] [H3 H4]. split; [lra|].
  intros Hr.
  assert (Hr12 : (r1 == r2)%Q) by lra.
  assert (Hr23 : (r2 == r3)%Q) by lra.
  destruct (H2 Hr12) as [Ht12 Hl12]. destruct (H4 Hr23) as [Ht23 Hl23].
  split; [lia|]. intros Ht.
  assert (Ht1 : t1 = t2) by lia. assert (Ht2 : t2 = t3) by lia.
  specialize (Hl12 Ht1). specialize (Hl23 Ht2). lra.
Qed.

Lemma precedes_map_filter {A B} (f : A -> B) (p : A -> bool) l a b :
  precedes (map f (filter p l)) a b -> precedes (map f l) a b.
Proof.
  induction l as [|x l IH]; simpl; [auto|].
  destruct (p x); simpl.
  - intros H. apply precedes_inv in H. destruct H as [[-> Hb]|H].
    + apply precedes_head. apply in_map_iff in Hb.
      destruct Hb as (y & <- & Hy). apply filter_In in Hy.
      apply in_map. tauto.
    + apply precedes_cons. auto.
  - intros H. apply precedes_cons. auto.
Qed.

(** What [get_healthy_models] guarantees about the order of its result: a
    higher success rate first; at equal rates the lower tier number first;
    at equal rate and tier the HIGHER average response time first; what
    remains tied keeps the order of the dictionary. *)
Lemma healthy_models_order hs tier_arg :
  dict_keys hs = dict_keys AI_MODELS ->
  exists healthy,
    get_healthy_models tier_arg hs = Ok healthy /\
    StronglySorted
      (fun a b =>
         exists sa sb ia ib,
           dict_get hs a = Some sa /\ dict_get hs b = Some sb /\
           dict_get AI_MODELS a = Some ia /\ dict_get AI_MODELS b = Some ib /\
           (success_rate sb <= success_rate sa)%Q /\
           ((success_rate sa == success_rate sb)%Q ->
            tier ia <= tier ib /\
            (tier ia = tier ib ->
             (avg_response_time sb <= avg_response_time sa)%Q /\
             ((avg_response_time sa == avg_response_time sb)%Q ->
              precedes (dict_keys hs) a b))))
      healthy.
Proof.
  intros Hkeys.
  assert (Hreg : forall item, In item hs -> In (fst item) (dict_keys AI_MODELS)).
  { intros item Hin. rewrite <- Hkeys. unfold dict_keys. now apply in_map. }
  unfold get_healthy_models. rewrite (healthy_loop_kept tier_arg hs Hreg).
  cbn [rbind].
  set (names := map fst (filter (kept tier_arg) hs)).
  assert (Hnames : forall x, In x names ->
            In x (dict_keys hs) /\ In x (dict_keys AI_MODELS)).
  { intros x Hx. unfold names in Hx. apply in_map_iff in Hx.
    destruct Hx as (item & <- & Hin). apply filter_In in Hin.
    destruct Hin as [Hin _]. split; [|now apply Hreg].
    unfold dict_keys. now apply in_map. }
  rewrite (list_sort_ext health_key_lt (health_key hs) (health_key_of hs))
    by (intros x Hx; apply health_key_total; now apply Hnames).
  destruct (list_sort_spec health_key_lt health_key_lt_asym
              health_key_lt_negtrans (health_key_of hs) true names)
    as (healthy & Hsort & Hperm & Hsorted).
  exists healthy. split; [exact Hsort|].
  eapply StronglySorted_impl; [|exact Hsorted].
  intros a b Ha Hb [H1 H2]. simpl in H1, H2.
  apply (Permutation_in _ Hperm), Hnames in Ha.
  apply (Permutation_in _ Hperm), Hnames in Hb.
  destruct Ha as [Ha1 Ha2], Hb as [Hb1 Hb2].
  destruct (dict_keys_in_get _ _ Ha1) as [sa Hsa].
  destruct (dict_keys_in_get _ _ Hb1) as [sb Hsb].
  destruct (dict_keys_in_get _ _ Ha2) as [ia Hia].
  destruct (dict_keys_in_get _ _ Hb2) as [ib Hib].
  exists sa, sb, ia, ib. repeat (split; [assumption|]).
  assert (Htie : health_key_lt (health_key_of hs b) (health_key_of hs a) = false ->
                 precedes (dict_keys hs) a b).
  { intros H. apply (precedes_map_filter fst (kept tier_arg)). now apply H2. }
  clear H2. rewrite health_key_lt_false in H1, Htie.
  unfold health_key_of in H1, Htie. rewrite Hsa, Hsb, Hia, Hib in H1, Htie.
  fold (success_rate sa) in H1, Htie. fold (success_rate sb) in H1, Htie.
  destruct H1 as [Hr H1]. split; [exact Hr|].
  intros Heq. destruct (H1 Heq) as [Ht Hl]. split; [lia|].
  intros Hteq. split; [apply Hl; lia|].
  intros Hleq. apply Htie. split; [lra|].
  intros _. split; [lia|]. intros _. lra.
Qed.

(** C3, where the code departs from the specification.  Two tier-1 backends with
    one success out of one call each, answered in 1 and in 2 seconds: the
    one with the LARGER average response time is listed first. *)
Theorem slower_backend_is_listed_first :
  let hs := run_ops [OpSuccess "t1" "gemini-2.0-flash" 1;
                     OpSuccess "t2" "llama-3.3-70b" 2] tracker_init in
  (exists fast slow,
     dict_get hs "gemini-2.0-flash" = Some fast /\
     dict_get hs "llama-3.3-70b" = Some slow /\
     (success_rate fast == success_rate slow)%Q /\
     health_key hs "gemini-2.0-flash" = Ok (success_rate fast, -1, avg_response_time fast) /\
     health_key hs "llama-3.3-70b" = Ok (success_rate slow, -1, avg_response_time slow) /\
     (avg_response_time fast == 1)%Q /\ (avg_response_time slow == 2)%Q) /\
  get_healthy_models None hs
  = Ok ["llama-3.3-70b"; "gemini-2.0-flash"; "qwen-2.5-72b"; "gemini-direct";
        "llama-3.1-8b"; "hermes-3-405b"; "mistral-nemo"].
Proof.
  intros hs. split.
  - eexists. eexists. split; [reflexivity|]. split; [reflexivity|].
    split; [reflexivity|]. split; [reflexivity|]. split; [reflexivity|].
    split; reflexivity.
  - vm_compute. reflexivity.
Qed.

(* ===================================================================== *)
(** * One attempt of [generate_with_fallback]                             *)
(* ===================================================================== *)

Lemma py_range_cons a b : a < b -> py_range a b = a :: py_range (a + 1) b.
Proof.
  intros H. unfold py_range.
  replace (Z.to_nat (b - a)) with (S (Z.to_nat (b - (a + 1)))) by lia.
  simpl. f_equal; [lia|].
  rewrite <- seq_shift, map_map. apply map_ext. intros i. lia.
Qed.

Lemma minimum_viable_iff result :
  minimum_viable result = true <->
  exists text, result = Some text /\ 51 <= Z.of_nat (String.length text).
Proof.
  unfold minimum_viable. destruct result as [text|].
  - rewrite andb_true_iff, negb_true_iff, String.eqb_neq. split.
    + intros [_ H]. exists text. split; [reflexivity|].
      rewrite Z.gtb_ltb in H. apply Z.ltb_lt in H. lia.
    + intros (t & Ht & Hlen). inversion Ht; subst t. split.
      * intros ->. simpl in Hlen. lia.
      * rewrite Z.gtb_ltb. apply Z.ltb_lt. lia.
  - split; [discriminate|]. intros (t & Ht & _). discriminate.
Qed.

Section ClientFacts.
Variable Env : Type.
Variable time_time : Env -> Q.
Variable datetime_now : Env -> string.
Variable time_sleep : Z -> Env -> Env.
Variable openrouter_create :
  string -> string -> Z -> Q -> Env -> result (option string) * Env.
Variable gemini_generate_content :
  string -> Z -> Q -> Env -> result (option string) * Env.
Variable GEMINI_API_KEY : string.

Local Abbreviation call :=
  (_call_single_model Env openrouter_create gemini_generate_content GEMINI_API_KEY).
Local Abbreviation attempt :=
  (attempt_once Env time_time datetime_now openrouter_create
     gemini_generate_content GEMINI_API_KEY).
Local Abbreviation generate :=
  (generate_with_fallback Env time_time datetime_now time_sleep
     openrouter_create gemini_generate_content GEMINI_API_KEY).

(** A call to a provider does not touch the tracker. *)
Lemma call_single_model_tracker m p mt temp (c : MultiAIClient Env) :
  tracker (snd (call m p mt temp c)) = tracker c.
Proof.
  unfold _call_single_model, Eff.bind, Eff.of_result.
  destruct (dict_item AI_MODELS m) as [info|e]; [|reflexivity].
  destruct (String.eqb (provider info) "openrouter").
  - unfold _call_openrouter, Eff.bind, Eff.get.
    destruct (negb (openrouter_client c)); [reflexivity|].
    unfold on_env, Eff.zoom.
    now destruct (openrouter_create (id info) p mt temp (env c)).
  - destruct (String.eqb (provider info) "gemini_direct"); [|reflexivity].
    unfold _call_gemini_direct.
    destruct (substring_in "YOUR_" GEMINI_API_KEY); [reflexivity|].
    unfold on_env, Eff.zoom.
    now destruct (gemini_generate_content p mt temp (env c)).
Qed.

(** A response of usable length: [mark_success], then the return. *)
Lemma attempt_once_usable m p mt temp (c c1 : MultiAIClient Env) text :
  tracker_ok (tracker c) -> In m (dict_keys AI_MODELS) ->
  call m p mt temp c = (Ok (Some text), c1) ->
  51 <= Z.of_nat (String.length text) ->
  attempt m p mt temp c
  = (Ok (Some (text, m)),
     with_tracker
       (snd (mark_success (datetime_now (env c1)) m
               (time_time (env c1) - time_time (env c))%Q (tracker c1)))
       c1).
Proof.
  intros Hok Hin Hcall Hlen.
  assert (Hv : minimum_viable (Some text) = true)
    by (apply minimum_viable_iff; eauto).
  assert (Ht : tracker c1 = tracker c).
  { rewrite <- (call_single_model_tracker m p mt temp c). now rewrite Hcall. }
  unfold attempt_once, Eff.try_except, Eff.bind, read_env. rewrite Hcall, Hv.
  unfold tracker_mark_success, on_tracker, Eff.zoom.
  pose proof (mark_success_returns (tracker c1) (datetime_now (env c1)) m
                (time_time (env c1) - time_time (env c))%Q) as Hret.
  rewrite Ht in Hret. specialize (Hret Hok Hin). rewrite <- Ht in Hret.
  destruct (mark_success (datetime_now (env c1)) m
              (time_time (env c1) - time_time (env c))%Q (tracker c1))
    as [r hs'] eqn:Hm.
  simpl in Hret. subst r. reflexivity.
Qed.

(** A response that is not usable: nothing is returned and nothing is
    recorded, the tracker is as it was. *)
Lemma attempt_once_unusable m p mt temp (c c1 : MultiAIClient Env) result :
  call m p mt temp c = (Ok result, c1) ->
  minimum_viable result = false ->
  attempt m p mt temp c = (Ok None, c1) /\ tracker c1 = tracker c.
Proof.
  intros Hcall Hv. split.
  - unfold attempt_once, Eff.try_except, Eff.bind, read_env.
    now rewrite Hcall, Hv.
  - rewrite <- (call_single_model_tracker m p mt temp c). now rewrite Hcall.
Qed.

(** A call that raises: [mark_failure] with the text of the exception,
    and the loop goes on. *)
Lemma attempt_once_raised m p mt temp (c c1 : MultiAIClient Env) e :
  tracker_ok (tracker c) -> In m (dict_keys AI_MODELS) ->
  call m p mt temp c = (Raise e, c1) ->
  attempt m p mt temp c
  = (Ok None,
     with_tracker
       (snd (mark_failure (datetime_now (env c1)) m (str_exn e) (tracker c1)))
       c1).
Proof.
  intros Hok Hin Hcall.
  assert (Ht : tracker c1 = tracker c).
  { rewrite <- (call_single_model_tracker m p mt temp c). now rewrite Hcall. }
  unfold attempt_once, Eff.try_except, Eff.bind, read_env. rewrite Hcall.
  unfold tracker_mark_failure, on_tracker, Eff.zoom.
  pose proof (mark_failure_returns (tracker c1) (datetime_now (env c1)) m
                (str_exn e)) as Hret.
  rewrite Ht in Hret. specialize (Hret Hok Hin). rewrite <- Ht in Hret.
  destruct (mark_failure (datetime_now (env c1)) m (str_exn e) (tracker c1))
    as [r hs'] eqn:Hm.
  simpl in Hret. subst r. reflexivity.
Qed.


End ClientFacts.



(** C1, where the code departs from the specification.  Every provider answers
    "OK" without raising: the two attempts on each of the seven candidates
    are made, nothing is returned, and the tracker is exactly as it was,
    every [total_calls] still 0. *)
Theorem short_responses_are_not_recorded :
  let respond := fun (_ : list string) (_ : string) => Ok (Some Scripted.short_text) in
  let out := Scripted.generate respond "prompt" (Scripted.client tracker_init) in
  fst out = Ok (None, None) /\
  List.length (Scripted.calls (env (snd out))) = 14%nat /\
  tracker (snd out) = tracker_init /\
  (forall name st,
     dict_get (tracker (snd out)) name = Some st ->
     total_calls st = 0 /\ total_failures st = 0).
Proof.
  intros respond out.
  assert (Ht : tracker (snd out) = tracker_init) by (vm_compute; reflexivity).
  split; [vm_compute; reflexivity|]. split; [vm_compute; reflexivity|].
  split; [exact Ht|].
  intros name st H. rewrite Ht in H. apply dict_get_In in H. simpl in H.
  repeat (destruct H as [H|H]; [inversion H; subst; split; reflexivity|]).
  contradiction.
Qed.

(** The start-up health check, on the same kind of answer, does record a
    failure for each model. *)
Lemma health_check_records_empty_responses :
  let respond := fun (_ : list string) (_ : string) => Ok (Some "") in
  let out := Scripted.health_check respond (Scripted.client tracker_init) in
  fst out = Ok false /\
  (forall name st,
     dict_get (tracker (snd out)) name = Some st ->
     total_calls st = 1 /\ total_failures st = 1).
Proof.
  intros respond out. split; [vm_compute; reflexivity|].
  intros name st H. apply dict_get_In in H. vm_compute in H.
  repeat (destruct H as [H|H]; [inversion H; subst; split; reflexivity|]).
  contradiction.
Qed.

(* ===================================================================== *)
(** * Bounded retries with backoff                                        *)
(* ===================================================================== *)

Lemma calculate_retry_delay_formula attempt :
  FailureTracker.calculate_retry_delay attempt = Z.min (1 * 2 ^ (attempt - 1)) 32.
Proof. reflexivity. Qed.

Lemma calculate_retry_delay_monotone a b :
  1 <= a <= b ->
  FailureTracker.calculate_retry_delay a <= FailureTracker.calculate_retry_delay b <= 32.
Proof.
  intros H. unfold FailureTracker.calculate_retry_delay, RETRY_BASE_DELAY, RETRY_MAX_DELAY.
  assert (2 ^ (a - 1) <= 2 ^ (b - 1)) by (apply Z.pow_le_mono_r; lia).
  lia.
Qed.

Lemma count_calls_app tr1 tr2 :
  count_calls (tr1 ++ tr2) = (count_calls tr1 + count_calls tr2)%nat.
Proof. unfold count_calls. now rewrite filter_app, length_app. Qed.

Lemma sleeps_app tr1 tr2 : sleeps (tr1 ++ tr2) = (sleeps tr1 ++ sleeps tr2)%list.
Proof. unfold sleeps. apply flat_map_app. Qed.

Section RetryFacts.
Variable A : Type.
Variable OpState : Type.
Variable func : OpState -> result (option A) * OpState.
Variable Rng : Type.
Variable random_uniform : Q -> Q -> Rng -> Q * Rng.
Variable Clock : Type.
Variable datetime_now : Clock -> string.
Variable elapse : Event -> Clock -> Clock.

Local Abbreviation W := (World OpState Rng Clock).
Local Abbreviation attempt_body :=
  (retry_attempt A OpState func Rng random_uniform Clock datetime_now elapse).
Local Abbreviation loop :=
  (retry_loop A OpState func Rng random_uniform Clock datetime_now elapse).
Local Abbreviation retry :=
  (retry_with_backoff A OpState func Rng random_uniform Clock datetime_now elapse).
Local Abbreviation failures w :=
  (FailureTracker.total_failures (FailureTracker.data (failure_tracker w))).
Local Abbreviation delay := FailureTracker.calculate_retry_delay.

(** The operation returns a result: it is returned at once. *)
Lemma retry_attempt_succeeds (w : W) max_retries attempt v :
  fst (func (op w)) = Ok (Some v) ->
  exists w',
    attempt_body max_retries attempt w = (Ok (Some (Some v)), w') /\
    trace w' = (trace w ++ [Called])%list /\
    failure_tracker w' = failure_tracker w.
Proof.
  intros H.
  cbv [retry_attempt Eff.try_except Eff.bind call_func emit Eff.modify
       Eff.ret Eff.raise].
  cbn [op failure_tracker rng clock trace].
  destruct (func (op w)) as [r s]. simpl in H. subst r.
  eexists. split; [reflexivity|]. split; reflexivity.
Qed.

(** The operation fails and attempts remain: one log entry, one
    notification, one sleep of the backoff delay plus the jitter. *)
Lemma retry_attempt_fails_more (w : W) max_retries attempt :
  failed (fst (func (op w))) -> attempt < max_retries ->
  exists w',
    attempt_body max_retries attempt w = (Ok None, w') /\
    op w' = snd (func (op w)) /\
    rng w' = snd (random_uniform (1 # 10)%Q (1 # 2)%Q (rng w)) /\
    trace w'
    = (trace w
       ++ [Called; NotifiedRetry attempt max_retries (delay attempt);
           Slept (inject_Z (delay attempt)
                  + fst (random_uniform (1 # 10)%Q (1 # 2)%Q (rng w)))%Q])%list /\
    failures w' = failures w.
Proof.
  intros Hf Hlt. apply Z.ltb_lt in Hlt.
  cbv [retry_attempt Eff.try_except Eff.bind call_func emit Eff.modify
       Eff.ret Eff.raise log_failure draw_uniform with_failure_tracker].
  cbn [op failure_tracker rng clock trace].
  destruct (func (op w)) as [r s]. simpl in Hf. rewrite Hlt.
  destruct r as [[v|]|e]; [contradiction| |];
    cbn [op failure_tracker rng clock trace];
    destruct (random_uniform (1 # 10)%Q (1 # 2)%Q (rng w)) as [x g];
    (eexists; split; [reflexivity|]);
    cbn [op failure_tracker rng clock trace fst snd];
    rewrite <- !app_assoc; repeat split; reflexivity.
Qed.

(** The operation fails on the last attempt: one log entry, the
    cumulative counter goes up by one and is written, [None] is returned. *)
Lemma retry_attempt_fails_last (w : W) max_retries attempt :
  failed (fst (func (op w))) -> ~ attempt < max_retries ->
  exists w',
    attempt_body max_retries attempt w = (Ok (Some None), w') /\
    count_calls (trace w') = S (count_calls (trace w)) /\
    sleeps (trace w') = sleeps (trace w) /\
    failures w' = failures w + 1 /\
    FailureTracker.file (failure_tracker w')
    = Some (FailureTracker.data (failure_tracker w')).
Proof.
  intros Hf Hlt. apply Z.ltb_nlt in Hlt.
  cbv [retry_attempt Eff.try_except Eff.bind call_func emit Eff.modify
       Eff.ret Eff.raise log_failure increment_failure_counter
       with_failure_tracker].
  cbn [op failure_tracker rng clock trace].
  destruct (func (op w)) as [r s]. simpl in Hf. rewrite Hlt.
  destruct r as [[v|]|e]; [contradiction| |];
    cbn [op failure_tracker rng clock trace];
    (eexists; split; [reflexivity|]);
    cbn [op failure_tracker rng clock trace fst snd];
    rewrite !count_calls_app, !sleeps_app; cbn;
    rewrite !app_nil_r; repeat split; lia.
Qed.
Lemma retry_attempt_returns (w : W) max_retries attempt :
  exists r w', attempt_body max_retries attempt w = (Ok r, w').
Proof.
  cbv [retry_attempt Eff.try_except Eff.bind call_func emit Eff.modify
       Eff.ret Eff.raise log_failure draw_uniform increment_failure_counter
       with_failure_tracker].
  cbn [op failure_tracker rng clock trace].
  destruct (func (op w)) as [r s].
  destruct r as [[v|]|e]; [do 2 eexists; reflexivity| |];
    destruct (attempt <? max_retries);
    cbn [op failure_tracker rng clock trace];
    try destruct (random_uniform (1 # 10)%Q (1 # 2)%Q (rng w)) as [x g];
    do 2 eexists; reflexivity.
Qed.

(** Whatever the operation does, [retry_with_backoff] returns: no
    exception leaves it. *)
Lemma retry_with_backoff_never_raises max_retries (w : W) :
  exists r w', retry max_retries w = (Ok r, w').
Proof.
  unfold retry_with_backoff.
  generalize (py_range 1 (max_retries + 1)). intros attempts. revert w.
  induction attempts as [|attempt rest IH]; intros w; cbn [retry_loop].
  - now exists None, w.
  - unfold Eff.bind.
    destruct (retry_attempt_returns w max_retries attempt) as (r & w1 & ->).
    destruct r as [answer|]; [now exists answer, w1|apply IH].
Qed.

Lemma py_range_nil a b : b <= a -> py_range a b = [].
Proof. intros H. unfold py_range. now replace (Z.to_nat (b - a)) with 0%nat by lia. Qed.

Lemma retry_loop_exhausted n : forall a (w : W) max_retries,
  (forall s, failed (fst (func s))) ->
  a + Z.of_nat n = max_retries ->
  exists w',
    loop max_retries (py_range a (max_retries + 1)) w = (Ok None, w') /\
    count_calls (trace w') = (count_calls (trace w) + S n)%nat /\
    List.length (sleeps (trace w')) = (List.length (sleeps (trace w)) + n)%nat /\
    failures w' = failures w + 1 /\
    FailureTracker.file (failure_tracker w')
    = Some (FailureTracker.data (failure_tracker w')).
Proof.
  induction n as [|n IH]; intros a w max_retries Hall Ha.
  - rewrite py_range_cons by lia. rewrite (py_range_nil (a + 1)) by lia.
    cbn [retry_loop]. unfold Eff.bind.
    destruct (retry_attempt_fails_last w max_retries a (Hall _))
      as (w' & -> & Hc & Hs & Hf & Hfile); [lia|].
    exists w'. split; [reflexivity|]. rewrite Hc, Hs.
    repeat split; try assumption; lia.
  - rewrite py_range_cons by lia. cbn [retry_loop]. unfold Eff.bind.
    destruct (retry_attempt_fails_more w max_retries a (Hall _))
      as (w1 & -> & _ & _ & Htr & Hf); [lia|].
    destruct (IH (a + 1) w1 max_retries Hall) as (w' & -> & Hc & Hs & Hf' & Hfile);
      [lia|].
    exists w'. split; [reflexivity|].
    rewrite Hc, Hs, Hf', Hf, Htr, count_calls_app, sleeps_app, length_app.
    cbn. repeat split; try assumption; lia.
Qed.

Lemma retry_loop_succeeds_after k : forall a (w : W) max_retries v,
  a + Z.of_nat k <= max_retries ->
  (forall i, (i < k)%nat -> failed (fst (func (op_after func i (op w))))) ->
  fst (func (op_after func k (op w))) = Ok (Some v) ->
  exists w',
    loop max_retries (py_range a (max_retries + 1)) w = (Ok (Some v), w') /\
    count_calls (trace w') = (count_calls (trace w) + S k)%nat /\
    sleeps (trace w')
    = (sleeps (trace w)
       ++ map (fun '(attempt, jitter) => (inject_Z (delay attempt) + jitter)%Q)
            (combine (py_range a (a + Z.of_nat k))
                     (jitters random_uniform k (rng w))))%list /\
    failures w' = failures w.
Proof.
  induction k as [|k IH]; intros a w max_retries v Ha Hfail Hsucc.
  - rewrite py_range_cons by lia. cbn [retry_loop]. unfold Eff.bind.
    simpl in Hsucc.
    destruct (retry_attempt_succeeds w max_retries a v Hsucc)
      as (w' & -> & Htr & Hft).
    exists w'. split; [reflexivity|].
    rewrite Htr, Hft, count_calls_app, sleeps_app. cbn.
    rewrite (py_range_nil a) by lia. cbn. rewrite !app_nil_r.
    repeat split; lia.
  - rewrite py_range_cons by lia. cbn [retry_loop]. unfold Eff.bind.
    destruct (retry_attempt_fails_more w max_retries a (Hfail 0%nat ltac:(lia)))
      as (w1 & -> & Hop & Hrng & Htr & Hf); [lia|].
    destruct (IH (a + 1) w1 max_retries v) as (w' & -> & Hc & Hs & Hf').
    + lia.
    + intros i Hi. rewrite Hop. apply (Hfail (S i)). lia.
    + rewrite Hop. exact Hsucc.
    + exists w'. split; [reflexivity|].
      rewrite Hc, Hs, Hf', Hf, Htr, Hrng, count_calls_app, sleeps_app.
      rewrite (py_range_cons a (a + Z.of_nat (S k))) by lia.
      replace (a + 1 + Z.of_nat k) with (a + Z.of_nat (S k)) by lia.
      cbn [jitters].
      destruct (random_uniform (1 # 10)%Q (1 # 2)%Q (rng w)) as [x g].
      cbn. rewrite <- app_assoc. cbn.
      repeat split; lia.
Qed.

(** C7.  An operation that fails on every attempt, under the default
    maximum of 5: [retry_with_backoff] returns [None] (it does not raise),
    the operation has been called exactly 5 times, and the cumulative
    failure counter is one more than before, in memory and in the file. *)
Theorem always_failing_operation_gives_none_after_5_attempts :
  forall w : W,
    (forall s, failed (fst (func s))) ->
    exists w',
      retry MAX_RETRY_ATTEMPTS w = (Ok None, w') /\
      count_calls (trace w') = (count_calls (trace w) + 5)%nat /\
      failures w' = failures w + 1 /\
      FailureTracker.file (failure_tracker w')
      = Some (FailureTracker.data (failure_tracker w')).
Proof.
  intros w Hall. unfold retry_with_backoff.
  destruct (retry_loop_exhausted 4 1 w MAX_RETRY_ATTEMPTS Hall eq_refl)
    as (w' & Hrun & Hc & _ & Hf & Hfile).
  exists w'. repeat split; assumption.
Qed.

(** C8.  An operation that fails on its first [k] calls, [k < 5], and
    succeeds on the next one: [retry_with_backoff] returns that result
    after [k + 1] calls and exactly [k] sleeps; the sleep after failed
    attempt [i] lasts [min (1 * 2 ^ (i - 1), 32)] seconds plus the jitter
    drawn for it, and that base delay never decreases with the attempt
    number and never exceeds 32. *)
Theorem flaky_operation_succeeds_after_k_backoff_sleeps :
  forall (w : W) k v,
    (k < 5)%nat ->
    (forall i, (i < k)%nat -> failed (fst (func (op_after func i (op w))))) ->
    fst (func (op_after func k (op w))) = Ok (Some v) ->
    exists w',
      retry MAX_RETRY_ATTEMPTS w = (Ok (Some v), w') /\
      count_calls (trace w') = (count_calls (trace w) + S k)%nat /\
      sleeps (trace w')
      = (sleeps (trace w)
         ++ map (fun '(attempt, jitter) =>
                   (inject_Z (Z.min (1 * 2 ^ (attempt - 1)) 32) + jitter)%Q)
              (combine (py_range 1 (1 + Z.of_nat k))
                       (jitters random_uniform k (rng w))))%list /\
      List.length (sleeps (trace w')) = (List.length (sleeps (trace w)) + k)%nat /\
      failures w' = failures w /\
      (forall a b, 1 <= a <= b -> delay a <= delay b <= 32).
Proof.
  intros w k v Hk Hfail Hsucc. unfold retry_with_backoff.
  destruct (retry_loop_succeeds_after k 1 w MAX_RETRY_ATTEMPTS v)
    as (w' & Hrun & Hc & Hs & Hf); try assumption.
  { unfold MAX_RETRY_ATTEMPTS. lia. }
  exists w'. split; [exact Hrun|]. split; [exact Hc|].
  split; [exact Hs|]. split.
  - rewrite Hs, length_app, length_map, length_combine. f_equal.
    assert (Hj : forall n g, List.length (jitters random_uniform n g) = n).
    { induction n as [|n IHn]; intros g; cbn [jitters]; [reflexivity|].
      destruct (random_uniform (1 # 10)%Q (1 # 2)%Q g). simpl. now rewrite IHn. }
    rewrite Hj. unfold py_range. rewrite length_map, length_seq. lia.
  - split; [exact Hf|]. apply calculate_retry_delay_monotone.
Qed.
End RetryFacts.

Lemma always_failing_operation_gives_none_after_5_attempts_witness :
  (forall s, failed (fst (Scripted.broken s))) /\
  exists w',
    Scripted.retry Scripted.broken 5 (Scripted.world 7) = (Ok None, w') /\
    count_calls (trace w') = 5%nat /\
    FailureTracker.total_failures (FailureTracker.data (failure_tracker w')) = 8.
Proof.
  assert (Hall : forall s, failed (fst (Scripted.broken s))).
  { intros s. unfold Scripted.broken. simpl. now destruct (Nat.even s). }
  split; [exact Hall|].
  destruct (always_failing_operation_gives_none_after_5_attempts
              string nat Scripted.broken unit Scripted.midpoint nat
              Scripted.stamp Scripted.tick (Scripted.world 7) Hall)
    as (w' & Hrun & Hc & Hf & _).
  exists w'. split; [exact Hrun|]. split; [exact Hc|exact Hf].
Defined.

Lemma flaky_operation_succeeds_after_k_backoff_sleeps_witness :
  let func := Scripted.flaky 3 "posted" in
  (forall i, (i < 3)%nat -> failed (fst (func (op_after func i 0%nat)))) /\
  fst (func (op_after func 3 0%nat)) = Ok (Some "posted") /\
  exists w',
    Scripted.retry func 5 (Scripted.world 7) = (Ok (Some "posted"), w') /\
    count_calls (trace w') = 4%nat /\
    List.length (sleeps (trace w')) = 3%nat /\
    FailureTracker.total_failures (FailureTracker.data (failure_tracker w')) = 7.
Proof.
  intros func.
  assert (Hfail : forall i, (i < 3)%nat ->
                            failed (fst (func (op_after func i 0%nat)))).
  { intros i Hi. destruct i as [|[|[|i]]]; simpl; try exact I. lia. }
  split; [exact Hfail|]. split; [reflexivity|].
  destruct (flaky_operation_succeeds_after_k_backoff_sleeps
              string nat func unit Scripted.midpoint nat
              Scripted.stamp Scripted.tick (Scripted.world 7) 3%nat "posted"
              ltac:(lia) Hfail eq_refl)
    as (w' & Hrun & Hc & _ & Hs & Hf & _).
  exists w'. split; [exact Hrun|]. split; [exact Hc|]. split; [exact Hs|exact Hf].
Defined.

(* ===================================================================== *)
(** * More on the tracker                                                 *)
(* ===================================================================== *)

(** X1.  A call on the tracker names one model.  When the tracker has no
    entry for it, [mark_success] and [mark_failure] raise [KeyError] and
    [reset_model] returns, and nothing changes.  In every case the keys and
    their order stay as they are and the entry of every other model is
    untouched. *)
Theorem tracker_call_touches_one_record :
  forall o hs,
    dict_keys (snd (apply_op o hs)) = dict_keys hs /\
    (forall name, name <> op_model o ->
       dict_get (snd (apply_op o hs)) name = dict_get hs name) /\
    (dict_get hs (op_model o) = None ->
     snd (apply_op o hs) = hs /\
     fst (apply_op o hs)
     = match o with
       | OpReset _ => Ok tt
       | _ => Raise (KeyError (op_model o))
       end).
Proof.
  intros o hs.
  destruct o as [now m rt|now m err|m]; simpl;
    [unfold mark_success|unfold mark_failure|unfold reset_model];
    destruct (dict_get hs m) as [st|] eqn:Hm; simpl;
    try (split; [reflexivity|split; [reflexivity|intros _; split; reflexivity]]).
  - destruct (total_successes st + 1 =? 0); simpl;
      (split; [now apply dict_keys_set with st|]);
      (split; [intros name Hne; now apply dict_get_set_ne|discriminate]).
  - split; [now apply dict_keys_set with st|].
    split; [intros name Hne; now apply dict_get_set_ne|discriminate].
  - split; [now apply dict_keys_set with st|].
    split; [intros name Hne; now apply dict_get_set_ne|discriminate].
Qed.

Lemma fold_effect_invariant (P : ModelStatus -> Prop) b ops : forall st,
  P st -> (forall o s, P s -> P (effect_on b o s)) ->
  P (fold_left (fun s o => effect_on b o s) ops st).
Proof.
  induction ops as [|o ops IH]; intros st H Hstep; simpl; [exact H|].
  apply IH; auto.
Qed.

Lemma tracker_init_fresh b st : dict_get tracker_init b = Some st -> st = fresh_status.
Proof.
  intros H. apply dict_get_In in H. simpl in H.
  repeat (destruct H as [H|H]; [now inversion H|]). contradiction.
Qed.

(** The entry of a registered model after a run from the initial state. *)
Lemma run_ops_from_init ops b :
  In b (dict_keys AI_MODELS) ->
  tracker_ok (run_ops ops tracker_init) /\
  dict_get (run_ops ops tracker_init) b
  = Some (fold_left (fun s o => effect_on b o s) ops fresh_status).
Proof.
  intros Hin.
  destruct (tracker_ok_registered _ _ tracker_init_ok Hin) as (st0 & Hst0 & _).
  rewrite <- (tracker_init_fresh b st0 Hst0).
  now apply run_ops_spec; [apply tracker_init_ok|].
Qed.

Lemma counts_after b ops : forall st,
  let st' := fold_left (fun s o => effect_on b o s) ops st in
  total_successes st' = total_successes st + Z.of_nat (count_successes b ops) /\
  total_failures st' = total_failures st + Z.of_nat (count_failures b ops).
Proof.
  unfold count_successes, count_failures.
  induction ops as [|o ops IH]; intros st; simpl; [lia|].
  destruct (IH (effect_on b o st)) as [H1 H2]. rewrite H1, H2.
  destruct o as [now m rt|now m err|m]; simpl;
    destruct (String.eqb m b); simpl; lia.
Qed.

(** X2.  After any sequence of calls from the initial state, the counters
    of a registered backend are counts of the calls recorded for it:
    [total_successes] the successes, [total_failures] the failures,
    [total_calls] both together; resets do not change them. *)
Theorem counters_count_recorded_calls :
  forall ops b,
    In b (dict_keys AI_MODELS) ->
    exists st,
      dict_get (run_ops ops tracker_init) b = Some st /\
      total_successes st = Z.of_nat (count_successes b ops) /\
      total_failures st = Z.of_nat (count_failures b ops) /\
      total_calls st = Z.of_nat (count_successes b ops + count_failures b ops).
Proof.
  intros ops b Hin.
  destruct (run_ops_from_init ops b Hin) as [Hok Hget].
  eexists. split; [exact Hget|].
  destruct (counts_after b ops fresh_status) as [H1 H2]. simpl in H1, H2.
  pose proof (proj2 Hok _ _ Hget) as (_ & _ & Hc & _).
  rewrite Hc, H1, H2. repeat split; lia.
Qed.

Lemma counters_count_recorded_calls_witness :
  let b := "qwen-2.5-72b" in
  let ops := [OpSuccess "t1" b 2; OpFailure "t2" b "quota"; OpReset b;
              OpSuccess "t3" "mistral-nemo" 1; OpSuccess "t4" b 4] in
  In b (dict_keys AI_MODELS) /\
  exists st,
    dict_get (run_ops ops tracker_init) b = Some st /\
    total_successes st = 2 /\ total_failures st = 1 /\ total_calls st = 3.
Proof.
  intros b ops.
  assert (Hin : In b (dict_keys AI_MODELS)) by (simpl; tauto).
  split; [exact Hin|].
  destruct (counters_count_recorded_calls ops b Hin) as (st & Hget & H1 & H2 & H3).
  exists st. split; [exact Hget|]. split; [exact H1|]. split; [exact H2|exact H3].
Defined.






Lemma effect_on_other b o st : op_model o <> b -> effect_on b o st = st.
Proof.
  intros H. destruct o as [now m rt|now m err|m]; simpl in *;
    (destruct (String.eqb m b) eqn:E; [apply String.eqb_eq in E; contradiction|reflexivity]).
Qed.

Lemma fold_effect_untouched b ops : forall st,
  (forall o, In o ops -> op_model o <> b) ->
  fold_left (fun s o => effect_on b o s) ops st = st.
Proof.
  induction ops as [|o ops IH]; intros st H; simpl; [reflexivity|].
  rewrite effect_on_other by (apply H; now left).
  apply IH. intros o' Ho'. apply H. now right.
Qed.

Lemma streak_matches_health b ops :
  let st := fold_left (fun s o => effect_on b o s) ops fresh_status in
  0 <= consecutive_failures st /\
  (is_healthy st = Some false <-> 1 <= consecutive_failures st).
Proof.
  apply (fold_effect_invariant
           (fun st => 0 <= consecutive_failures st /\
                      (is_healthy st = Some false <-> 1 <= consecutive_failures st))).
  - simpl. split; [lia|]. split; [discriminate|lia].
  - intros o s [Hpos Hiff].
    destruct o as [now m rt|now m err|m]; simpl;
      destruct (String.eqb m b); simpl; try (split; assumption);
      split; try lia; split; try discriminate; try lia; reflexivity.
Qed.

(** X4.  After any sequence of calls from the initial state, the health of
    a registered backend is decided by the last call that named it:
    healthy after a success, unhealthy after a failure, untested after a
    reset or when no call named it.  And it is unhealthy exactly when its
    consecutive-failure counter is at least 1. *)
Theorem health_is_decided_by_the_last_call :
  forall ops b,
    In b (dict_keys AI_MODELS) ->
    exists st,
      dict_get (run_ops ops tracker_init) b = Some st /\
      ((forall o, In o ops -> op_model o <> b) -> is_healthy st = None) /\
      (forall pre o post,
         ops = (pre ++ o :: post)%list ->
         op_model o = b ->
         (forall o', In o' post -> op_model o' <> b) ->
         is_healthy st = match o with
                         | OpSuccess _ _ _ => Some true
                         | OpFailure _ _ _ => Some false
                         | OpReset _ => None
                         end) /\
      (is_healthy st = Some false <-> 1 <= consecutive_failures st).
Proof.
  intros ops b Hin.
  destruct (run_ops_from_init ops b Hin) as [_ Hget].
  eexists. split; [exact Hget|]. split; [|split].
  - intros Hno. now rewrite fold_effect_untouched.
  - intros pre o post -> Ho Hpost.
    rewrite fold_left_app. simpl. rewrite fold_effect_untouched by assumption.
    destruct o as [now m rt|now m err|m]; simpl in *; subst m;
      rewrite String.eqb_refl; reflexivity.
  - apply (streak_matches_health b ops).
Qed.

Lemma health_is_decided_by_the_last_call_witness :
  let b := "llama-3.1-8b" in
  let ops := [OpFailure "t1" b "timeout"; OpSuccess "t2" b 1;
              OpFailure "t3" "mistral-nemo" "quota"] in
  In b (dict_keys AI_MODELS) /\
  exists st,
    dict_get (run_ops ops tracker_init) b = Some st /\
    is_healthy st = Some true /\ ~ 1 <= consecutive_failures st.
Proof.
  intros b ops.
  assert (Hin : In b (dict_keys AI_MODELS)) by (simpl; tauto).
  split; [exact Hin|].
  destruct (health_is_decided_by_the_last_call ops b Hin)
    as (st & Hget & _ & Hlast & Hiff).
  exists st. split; [exact Hget|].
  assert (Hh : is_healthy st = Some true).
  { apply (Hlast [OpFailure "t1" b "timeout"] (OpSuccess "t2" b 1)
             [OpFailure "t3" "mistral-nemo" "quota"] eq_refl eq_refl).
    intros o' [<-|[]]. discriminate. }
  split; [exact Hh|]. intros H. apply Hiff in H. congruence.
Defined.

(** The healthy list is the kept entries, in some order. *)
Lemma healthy_models_are_the_kept hs tier_arg :
  dict_keys hs = dict_keys AI_MODELS ->
  exists healthy,
    get_healthy_models tier_arg hs = Ok healthy /\
    Permutation healthy (map fst (filter (kept tier_arg) hs)).
Proof.
  intros Hkeys.
  assert (Hreg : forall item, In item hs -> In (fst item) (dict_keys AI_MODELS)).
  { intros item Hin. rewrite <- Hkeys. unfold dict_keys. now apply in_map. }
  unfold get_healthy_models. rewrite (healthy_loop_kept tier_arg hs Hreg).
  cbn [rbind].
  rewrite (list_sort_ext health_key_lt (health_key hs) (health_key_of hs)).
  - apply list_sort_perm.
  - intros x Hx. apply in_map_iff in Hx.
    destruct Hx as (item & <- & Hin). apply filter_In in Hin.
    destruct Hin as [Hin _]. apply health_key_total.
    + unfold dict_keys. now apply in_map.
    + now apply Hreg.
Qed.

Lemma in_kept_names hs tier_arg name :
  NoDup (dict_keys hs) ->
  In name (map fst (filter (kept tier_arg) hs)) <->
  exists st, dict_get hs name = Some st /\ kept tier_arg (name, st) = true.
Proof.
  intros Hnd. rewrite in_map_iff. split.
  - intros ([n st] & Hn & Hin). simpl in Hn. subst n.
    apply filter_In in Hin. destruct Hin as [Hin Hk].
    exists st. split; [now apply dict_In_get|exact Hk].
  - intros (st & Hget & Hk). exists (name, st). split; [reflexivity|].
    apply filter_In. split; [now apply dict_get_In|exact Hk].
Qed.

(** X5.  In every state reached from the initial one, the test on the
    consecutive-failure counter in [get_healthy_models] excludes nothing
    more: the list holds exactly the backends that are not unhealthy and
    pass the optional tier filter. *)
Theorem reachable_healthy_models_are_the_not_unhealthy :
  forall ops tier_arg,
    exists healthy,
      get_healthy_models tier_arg (run_ops ops tracker_init) = Ok healthy /\
      forall name,
        In name healthy <->
        exists st,
          dict_get (run_ops ops tracker_init) name = Some st /\
          is_healthy st <> Some false /\
          match tier_arg with
          | None => True
          | Some t =>
              t = 0 \/
              exists info, dict_get AI_MODELS name = Some info /\ tier info = t
          end.
Proof.
  intros ops tier_arg.
  pose proof (run_ops_ok ops _ tracker_init_ok) as Hok.
  destruct Hok as [Hkeys Hst].
  assert (Hnd : NoDup (dict_keys (run_ops ops tracker_init)))
    by (rewrite Hkeys; apply AI_MODELS_keys_NoDup).
  destruct (healthy_models_are_the_kept _ tier_arg Hkeys) as (healthy & Hget & Hperm).
  exists healthy. split; [exact Hget|].
  intros name. split.
  - intros Hin. apply (Permutation_in _ Hperm) in Hin.
    apply in_kept_names in Hin; [|exact Hnd].
    destruct Hin as (st & Hg & Hk). apply kept_iff in Hk.
    exists st. split; [exact Hg|]. tauto.
  - intros (st & Hg & Hh & Htier).
    apply (Permutation_in _ (Permutation_sym Hperm)).
    apply in_kept_names; [exact Hnd|].
    exists st. split; [exact Hg|]. apply kept_iff.
    split; [exact Hh|]. split; [|exact Htier].
    assert (Hin : In name (dict_keys AI_MODELS)).
    { rewrite <- Hkeys. now apply dict_get_in_keys with st. }
    destruct (run_ops_from_init ops name Hin) as [_ Hfold].
    rewrite Hg in Hfold.
    assert (Hst' : st = fold_left (fun s o => effect_on name o s) ops fresh_status)
      by congruence.
    pose proof (streak_matches_health name ops) as Hinv. cbv zeta in Hinv.
    rewrite <- Hst' in Hinv. destruct Hinv as [Hpos Hiff].
    destruct (Z_lt_le_dec (consecutive_failures st) 1) as [Hlt|Hge]; [lia|].
    apply Hiff in Hge. contradiction.
Qed.

(** X6.  On every tracker state, whatever the tier filter and the task
    type, each backend that [get_healthy_models] lists is among the
    candidates that [_get_suitable_models] ranks. *)
Theorem healthy_models_are_candidates :
  forall hs tier_arg task,
    dict_keys hs = dict_keys AI_MODELS ->
    exists healthy ranked,
      get_healthy_models tier_arg hs = Ok healthy /\
      _get_suitable_models task hs = Ok ranked /\
      forall name, In name healthy -> In name ranked.
Proof.
  intros hs tier_arg task Hkeys.
  assert (Hnd : NoDup (dict_keys hs)) by (rewrite Hkeys; apply AI_MODELS_keys_NoDup).
  assert (Hreg : forall n, In n (dict_keys AI_MODELS) -> dict_get hs n <> None).
  { intros n Hn. rewrite <- Hkeys in Hn.
    destruct (dict_keys_in_get _ _ Hn) as [st ->]. discriminate. }
  destruct (healthy_models_are_the_kept hs tier_arg Hkeys) as (healthy & Hget & Hperm).
  destruct (ranking_structure task hs Hreg) as (scored & Hrank & Hperm' & _).
  exists healthy, (map fst scored). split; [exact Hget|]. split; [exact Hrank|].
  intros name Hin. apply (Permutation_in _ Hperm) in Hin.
  apply in_kept_names in Hin; [|exact Hnd].
  destruct Hin as (st & Hg & Hk). apply kept_iff in Hk. destruct Hk as (Hh & _ & _).
  assert (Hin : In name (dict_keys AI_MODELS)).
  { rewrite <- Hkeys. now apply dict_get_in_keys with st. }
  destruct (dict_keys_in_get _ _ Hin) as [info Hinfo].
  apply in_map_iff. exists (name, suitability_score task info st).
  split; [reflexivity|].
  apply (Permutation_in _ (Permutation_sym Hperm')).
  apply in_flat_map. exists (name, info). split; [now apply dict_get_In|].
  unfold rank_entry. simpl. rewrite Hg.
  assert (skipped st = false) as ->; [|now left].
  unfold skipped. destruct (is_healthy st) as [[|]|]; congruence.
Qed.

Lemma healthy_models_are_candidates_witness :
  let hs := run_ops [OpFailure "t1" "qwen-2.5-72b" "timeout";
                     OpSuccess "t2" "mistral-nemo" 1] tracker_init in
  dict_keys hs = dict_keys AI_MODELS /\
  exists healthy ranked,
    get_healthy_models (Some 3) hs = Ok healthy /\
    _get_suitable_models "reasoning" hs = Ok ranked /\
    healthy = ["mistral-nemo"] /\ In "mistral-nemo" ranked.
Proof.
  intros hs.
  assert (Hkeys : dict_keys hs = dict_keys AI_MODELS) by reflexivity.
  split; [exact Hkeys|].
  destruct (healthy_models_are_candidates hs (Some 3) "reasoning" Hkeys)
    as (healthy & ranked & Hh & Hr & Hincl).
  exists healthy, ranked. split; [exact Hh|]. split; [exact Hr|].
  assert (He : healthy = ["mistral-nemo"]).
  { assert (H : Ok healthy = Ok ["mistral-nemo"])
      by (rewrite <- Hh; vm_compute; reflexivity).
    now inversion H. }
  split; [exact He|]. apply Hincl. rewrite He. now left.
Defined.

(** A registered backend that the ranking does not skip is ranked. *)
Lemma unskipped_is_ranked hs task name st :
  dict_keys hs = dict_keys AI_MODELS ->
  dict_get hs name = Some st -> skipped st = false ->
  exists ranked, _get_suitable_models task hs = Ok ranked /\ In name ranked.
Proof.
  intros Hkeys Hg Hs.
  assert (Hreg : forall n, In n (dict_keys AI_MODELS) -> dict_get hs n <> None).
  { intros n Hn. rewrite <- Hkeys in Hn.
    destruct (dict_keys_in_get _ _ Hn) as [s ->]. discriminate. }
  destruct (ranking_structure task hs Hreg) as (scored & Hrank & Hperm & _).
  exists (map fst scored). split; [exact Hrank|].
  assert (Hin : In name (dict_keys AI_MODELS)).
  { rewrite <- Hkeys. now apply dict_get_in_keys with st. }
  destruct (dict_keys_in_get _ _ Hin) as [info Hinfo].
  apply in_map_iff. exists (name, suitability_score task info st).
  split; [reflexivity|].
  apply (Permutation_in _ (Permutation_sym Hperm)).
  apply in_flat_map. exists (name, info). split; [now apply dict_get_In|].
  unfold rank_entry. simpl. rewrite Hg, Hs. now left.
Qed.

(** X7.  [reset_model] on a registered backend returns, makes it untested
    with a streak of 0 and keeps its counters and its average; from then on
    the backend is listed by [get_healthy_models] and ranked by
    [_get_suitable_models], whatever its history was. *)
Theorem reset_model_makes_backend_eligible_again :
  forall hs b task,
    dict_keys hs = dict_keys AI_MODELS ->
    In b (dict_keys AI_MODELS) ->
    fst (reset_model b hs) = Ok tt /\
    (exists st st',
       dict_get hs b = Some st /\
       dict_get (snd (reset_model b hs)) b = Some st' /\
       is_healthy st' = None /\ consecutive_failures st' = 0 /\
       total_calls st' = total_calls st /\
       total_successes st' = total_successes st /\
       total_failures st' = total_failures st /\
       avg_response_time st' = avg_response_time st) /\
    exists healthy ranked,
      get_healthy_models None (snd (reset_model b hs)) = Ok healthy /\
      In b healthy /\
      _get_suitable_models task (snd (reset_model b hs)) = Ok ranked /\
      In b ranked.
Proof.
  intros hs b task Hkeys Hin.
  assert (Hin' := Hin). rewrite <- Hkeys in Hin'.
  destruct (dict_keys_in_get _ _ Hin') as [st Hst].
  unfold reset_model. rewrite Hst. cbn [fst snd].
  set (st' := {| is_healthy := None; last_success := last_success st;
                 last_failure := last_failure st; consecutive_failures := 0;
                 total_calls := total_calls st;
                 total_successes := total_successes st;
                 total_failures := total_failures st;
                 avg_response_time := avg_response_time st |}).
  assert (Hg' : dict_get (dict_set hs b st') b = Some st') by apply dict_get_set_eq.
  assert (Hkeys' : dict_keys (dict_set hs b st') = dict_keys AI_MODELS).
  { rewrite <- Hkeys. now apply dict_keys_set with st. }
  split; [reflexivity|]. split.
  - exists st, st'. repeat split; assumption.
  - destruct (healthy_models_are_the_kept _ None Hkeys') as (healthy & Hh & Hperm).
    destruct (unskipped_is_ranked _ task b st' Hkeys' Hg' eq_refl)
      as (ranked & Hr & Hinr).
    exists healthy, ranked. split; [exact Hh|]. split; [|split; assumption].
    apply (Permutation_in _ (Permutation_sym Hperm)).
    apply in_kept_names.
    + rewrite Hkeys'. apply AI_MODELS_keys_NoDup.
    + exists st'. split; [exact Hg'|reflexivity].
Qed.

Lemma reset_model_makes_backend_eligible_again_witness :
  let b := "gemini-direct" in
  let hs := run_ops [OpFailure "t1" b "quota"; OpFailure "t2" b "quota";
                     OpFailure "t3" b "quota"] tracker_init in
  dict_keys hs = dict_keys AI_MODELS /\
  In b (dict_keys AI_MODELS) /\
  (exists ranked, _get_suitable_models "long_context" hs = Ok ranked /\
                  ~ In b ranked) /\
  exists ranked,
    _get_suitable_models "long_context" (snd (reset_model b hs)) = Ok ranked /\
    In b ranked.
Proof.
  intros b hs.
  assert (Hkeys : dict_keys hs = dict_keys AI_MODELS) by reflexivity.
  assert (Hin : In b (dict_keys AI_MODELS)) by (simpl; tauto).
  split; [exact Hkeys|]. split; [exact Hin|]. split.
  - eexists. split; [vm_compute; reflexivity|].
    simpl. intuition discriminate.
  - destruct (reset_model_makes_backend_eligible_again hs b "long_context" Hkeys Hin)
      as (_ & _ & healthy & ranked & _ & _ & Hr & Hinr).
    exists ranked. split; assumption.
Defined.

Lemma rate_between_0_and_1 st :
  status_ok st -> (0 <= success_rate st <= 1)%Q.
Proof.
  intros (Hs & Hf & Hc & _). unfold success_rate.
  set (d := Z.max (total_calls st) 1).
  assert (Hd : 0 < d) by (unfold d; lia).
  assert (Hle : total_successes st <= d) by (unfold d; lia).
  assert (HdQ : (0 < inject_Z d)%Q) by (unfold Qlt; simpl; lia).
  split.
  - apply Qle_shift_div_l; [exact HdQ|]. rewrite Qmult_0_l.
    unfold Qle. simpl. lia.
  - apply Qle_shift_div_r; [exact HdQ|]. rewrite Qmult_1_l.
    unfold Qle. simpl. lia.
Qed.

Lemma speed_bonus_between_0_and_5 s : (0 <= spec_speed_bonus s <= 5)%Q.
Proof.
  unfold spec_speed_bonus.
  destruct (String.eqb s "very_fast"); [split; discriminate|].
  destruct (String.eqb s "fast"); [split; discriminate|].
  destruct (String.eqb s "medium"); split; discriminate.
Qed.

Lemma sorted_precedes {X} (R : X -> X -> Prop) l a b :
  StronglySorted R l -> precedes l a b -> R a b.
Proof.
  intros Hs (l1 & l2 & l3 & ->).
  induction l1 as [|x l1 IH]; simpl in Hs.
  - inversion Hs as [|? ? _ Hall]; subst. rewrite Forall_forall in Hall.
    apply Hall. apply in_or_app. right. now left.
  - inversion Hs; subst. auto.
Qed.

Lemma precedes_or {X} (l : list X) a b :
  In a l -> In b l -> a = b \/ precedes l a b \/ precedes l b a.
Proof.
  induction l as [|x l IH]; simpl; [tauto|].
  intros [Ha|Ha] [Hb|Hb].
  - left. congruence.
  - subst x. right. left. now apply precedes_head.
  - subst x. right. right. now apply precedes_head.
  - destruct (IH Ha Hb) as [H|[H|H]]; [now left| |].
    + right. left. now apply precedes_cons.
    + right. right. now apply precedes_cons.
Qed.

(** The entries of the scored list, by name. *)
Lemma scored_entry task hs scored name info st :
  Permutation scored (flat_map (rank_entry task hs) AI_MODELS) ->
  dict_get AI_MODELS name = Some info -> dict_get hs name = Some st ->
  skipped st = false ->
  In (name, suitability_score task info st) scored.
Proof.
  intros Hperm Hinfo Hg Hs.
  apply (Permutation_in _ (Permutation_sym Hperm)).
  apply in_flat_map. exists (name, info). split; [now apply dict_get_In|].
  unfold rank_entry. simpl. rewrite Hg, Hs. now left.
Qed.

Lemma scored_entry_inv task hs scored name score :
  Permutation scored (flat_map (rank_entry task hs) AI_MODELS) ->
  In (name, score) scored ->
  exists info st,
    dict_get AI_MODELS name = Some info /\ dict_get hs name = Some st /\
    skipped st = false /\ score = suitability_score task info st.
Proof.
  intros Hperm Hin. apply (Permutation_in _ Hperm) in Hin.
  apply rank_entry_in in Hin. destruct Hin as (info & st & Hin & Hg & Hs & Hsc).
  exists info, st. repeat split; try assumption.
  apply dict_In_get; [apply AI_MODELS_keys_NoDup|exact Hin].
Qed.

(** X8.  A healthy backend is ranked before every unhealthy backend whose
    tier is no better and which has no task affinity that the healthy one
    lacks: the health bonus outweighs what success rate and speed can
    give back. *)
Theorem healthy_backend_outranks_unhealthy_peer :
  forall hs task a b ia ib sa sb,
    tracker_ok hs ->
    dict_get AI_MODELS a = Some ia -> dict_get AI_MODELS b = Some ib ->
    dict_get hs a = Some sa -> dict_get hs b = Some sb ->
    tier ia <= tier ib ->
    (str_in task (best_for ib) = true -> str_in task (best_for ia) = true) ->
    is_healthy sa = Some true -> is_healthy sb = Some false ->
    exists ranked,
      _get_suitable_models task hs = Ok ranked /\
      In a ranked /\
      (In b ranked -> precedes ranked a b).
Proof.
  intros hs task a b ia ib sa sb Hok Hia Hib Hsa Hsb Htier Haff Hha Hhb.
  assert (Hreg : forall n, In n (dict_keys AI_MODELS) -> dict_get hs n <> None).
  { intros n Hn. destruct (tracker_ok_registered _ _ Hok Hn) as (st & -> & _).
    discriminate. }
  destruct (ranking_structure task hs Hreg) as (scored & Hrank & Hperm & Hsorted).
  exists (map fst scored). split; [exact Hrank|].
  assert (Hska : skipped sa = false) by (unfold skipped; now rewrite Hha).
  pose proof (scored_entry task hs scored a ia sa Hperm Hia Hsa Hska) as Hina.
  split; [apply in_map_iff; now exists (a, suitability_score task ia sa)|].
  intros Hinb. apply in_map_iff in Hinb. destruct Hinb as ([n score] & Hn & Hinb).
  simpl in Hn. subst n.
  destruct (scored_entry_inv task hs scored b score Hperm Hinb)
    as (ib' & sb' & Hib' & Hsb' & _ & Hscore).
  assert (ib' = ib) by congruence. assert (sb' = sb) by congruence. subst ib' sb'.
  assert (Hlt : (score < suitability_score task ia sa)%Q).
  { rewrite Hscore.
    rewrite !suitability_score_is_spec_score by (apply (proj2 Hok) with a + apply (proj2 Hok) with b; assumption).
    unfold spec_score. rewrite Hha, Hhb.
    fold (success_rate sa). fold (success_rate sb).
    pose proof (rate_between_0_and_1 sa (proj2 Hok _ _ Hsa)) as [Hra _].
    pose proof (rate_between_0_and_1 sb (proj2 Hok _ _ Hsb)) as [_ Hrb].
    pose proof (speed_bonus_between_0_and_5 (speed ia)) as [Hspa _].
    pose proof (speed_bonus_between_0_and_5 (speed ib)) as [_ Hspb].
    assert (Ht : (inject_Z ((4 - tier ib) * 20) <= inject_Z ((4 - tier ia) * 20))%Q)
      by (rewrite <- Zle_Qle; lia).
    assert (Ha : ((if str_in task (best_for ib) then 30 else 0)
                  <= (if str_in task (best_for ia) then 30 else 0))%Q).
    { destruct (str_in task (best_for ib)).
      - rewrite Haff by reflexivity. apply Qle_refl.
      - destruct (str_in task (best_for ia)); discriminate. }
    lra. }
  destruct (precedes_or scored (a, suitability_score task ia sa) (b, score) Hina Hinb)
    as [Heq|[Hp|Hp]].
  - exfalso. assert (a = b) by congruence. subst b.
    assert (sa = sb) by congruence. subst sb. congruence.
  - apply (precedes_map fst) in Hp. exact Hp.
  - exfalso. apply (sorted_precedes _ _ _ _ Hsorted) in Hp.
    destruct Hp as [Hle _]. simpl in Hle. lra.
Qed.

Lemma healthy_backend_outranks_unhealthy_peer_witness :
  let hs := run_ops [OpSuccess "t1" "qwen-2.5-72b" 1;
                     OpFailure "t2" "mistral-nemo" "timeout"] tracker_init in
  tracker_ok hs /\
  exists ranked,
    _get_suitable_models "reasoning" hs = Ok ranked /\
    In "mistral-nemo" ranked /\
    precedes ranked "qwen-2.5-72b" "mistral-nemo".
Proof.
  intros hs.
  assert (Hok : tracker_ok hs) by apply run_ops_ok, tracker_init_ok.
  split; [exact Hok|].
  destruct (healthy_backend_outranks_unhealthy_peer
              hs "reasoning" "qwen-2.5-72b" "mistral-nemo"
              _ _ _ _ Hok eq_refl eq_refl eq_refl eq_refl)
    as (ranked & Hr & Hin & Hprec).
  - simpl. lia.
  - simpl. discriminate.
  - reflexivity.
  - reflexivity.
  - exists ranked. split; [exact Hr|].
    assert (Hb : In "mistral-nemo" ranked).
    { assert (H : Ok ranked
                  = Ok ["qwen-2.5-72b"; "llama-3.1-8b"; "gemini-2.0-flash";
                        "gemini-direct"; "llama-3.3-70b"; "hermes-3-405b";
                        "mistral-nemo"])
        by (rewrite <- Hr; vm_compute; reflexivity).
      inversion H. simpl. tauto. }
    split; [exact Hb|exact (Hprec Hb)].
Defined.

(* ===================================================================== *)
(** * More on the client                                                  *)
(* ===================================================================== *)

Lemma all_skipped_no_candidates task hs :
  (forall n, In n (dict_keys AI_MODELS) ->
     exists st, dict_get hs n = Some st /\ skipped st = true) ->
  _get_suitable_models task hs = Ok [].
Proof.
  intros Hall. unfold _get_suitable_models.
  rewrite scored_loop_entries.
  - assert (Hnil : forall items,
              (forall item, In item items -> In (fst item) (dict_keys AI_MODELS)) ->
              flat_map (rank_entry task hs) items = []).
    { induction items as [|[n info] items IH]; intros Hsub; simpl; [reflexivity|].
      destruct (Hall n (Hsub (n, info) (or_introl eq_refl))) as (st & Hst & Hsk).
      unfold rank_entry at 1. simpl. rewrite Hst, Hsk. simpl.
      apply IH. intros item Hitem. apply Hsub. now right. }
    rewrite Hnil; [reflexivity|].
    intros item Hitem. unfold dict_keys. now apply in_map.
  - intros n Hn. destruct (Hall n Hn) as (st & -> & _). discriminate.
Qed.

Section ClientMore.
Variable Env : Type.
Variable time_time : Env -> Q.
Variable datetime_now : Env -> string.
Variable time_sleep : Z -> Env -> Env.
Variable openrouter_create :
  string -> string -> Z -> Q -> Env -> result (option string) * Env.
Variable gemini_generate_content :
  string -> Z -> Q -> Env -> result (option string) * Env.
Variable GEMINI_API_KEY : string.

Local Abbreviation call :=
  (_call_single_model Env openrouter_create gemini_generate_content GEMINI_API_KEY).
Local Abbreviation attempt :=
  (attempt_once Env time_time datetime_now openrouter_create
     gemini_generate_content GEMINI_API_KEY).
Local Abbreviation attempts :=
  (attempts_loop Env time_time datetime_now time_sleep openrouter_create
     gemini_generate_content GEMINI_API_KEY).
Local Abbreviation models :=
  (models_loop Env time_time datetime_now time_sleep openrouter_create
     gemini_generate_content GEMINI_API_KEY).
Local Abbreviation generate :=
  (generate_with_fallback Env time_time datetime_now time_sleep
     openrouter_create gemini_generate_content GEMINI_API_KEY).
Local Abbreviation check_one :=
  (health_check_one Env time_time datetime_now openrouter_create
     gemini_generate_content GEMINI_API_KEY).
Local Abbreviation check_loop :=
  (health_check_loop Env time_time datetime_now time_sleep openrouter_create
     gemini_generate_content GEMINI_API_KEY).
Local Abbreviation health_check :=
  (health_check_all_models Env time_time datetime_now time_sleep
     openrouter_create gemini_generate_content GEMINI_API_KEY).

Lemma call_single_model_flag m p mt temp (c : MultiAIClient Env) :
  openrouter_client (snd (call m p mt temp c)) = openrouter_client c.
Proof.
  unfold _call_single_model, Eff.bind, Eff.of_result.
  destruct (dict_item AI_MODELS m) as [info|e]; [|reflexivity].
  destruct (String.eqb (provider info) "openrouter").
  - unfold _call_openrouter, Eff.bind, Eff.get.
    destruct (negb (openrouter_client c)); [reflexivity|].
    unfold on_env, Eff.zoom.
    now destruct (openrouter_create (id info) p mt temp (env c)).
  - destruct (String.eqb (provider info) "gemini_direct"); [|reflexivity].
    unfold _call_gemini_direct.
    destruct (substring_in "YOUR_" GEMINI_API_KEY); [reflexivity|].
    unfold on_env, Eff.zoom.
    now destruct (gemini_generate_content p mt temp (env c)).
Qed.

(** One attempt returns; the tracker keeps its invariant; a text handed
    back is usable and its model has just been recorded healthy. *)
Lemma attempt_once_returns m p mt temp (c : MultiAIClient Env) :
  tracker_ok (tracker c) -> In m (dict_keys AI_MODELS) ->
  exists r c',
    attempt m p mt temp c = (Ok r, c') /\
    tracker_ok (tracker c') /\
    openrouter_client c' = openrouter_client c /\
    answer_from [m] (tracker c') r.
Proof.
  intros Hok Hin.
  destruct (call m p mt temp c) as [res c1] eqn:Hcall.
  assert (Ht : tracker c1 = tracker c).
  { rewrite <- (call_single_model_tracker Env openrouter_create
                  gemini_generate_content GEMINI_API_KEY m p mt temp c).
    now rewrite Hcall. }
  assert (Hf : openrouter_client c1 = openrouter_client c).
  { rewrite <- (call_single_model_flag m p mt temp c). now rewrite Hcall. }
  destruct (tracker_ok_registered _ _ Hok Hin) as (st & Hst & _).
  destruct res as [result|e].
  - destruct (minimum_viable result) eqn:Hv.
    + apply minimum_viable_iff in Hv. destruct Hv as (text & -> & Hlen).
      rewrite (attempt_once_usable Env time_time datetime_now openrouter_create
                 gemini_generate_content GEMINI_API_KEY m p mt temp c c1 text
                 Hok Hin Hcall Hlen).
      do 2 eexists. split; [reflexivity|]. cbn [tracker openrouter_client with_tracker].
      rewrite Ht.
      destruct (apply_op_spec
                  (OpSuccess (datetime_now (env c1)) m
                     (time_time (env c1) - time_time (env c))%Q)
                  (tracker c) m st Hok Hst) as [Hok' Hget'].
      cbn [apply_op] in Hok', Hget'.
      split; [exact Hok'|]. split; [exact Hf|].
      simpl. split; [now left|]. split; [exact Hlen|].
      eexists. split; [exact Hget'|]. simpl. rewrite String.eqb_refl. now split.
    + destruct (attempt_once_unusable Env time_time datetime_now openrouter_create
                  gemini_generate_content GEMINI_API_KEY m p mt temp c c1 result
                  Hcall Hv) as [-> _].
      do 2 eexists. split; [reflexivity|]. rewrite Ht.
      split; [exact Hok|]. split; [exact Hf|exact I].
  - rewrite (attempt_once_raised Env time_time datetime_now openrouter_create
               gemini_generate_content GEMINI_API_KEY m p mt temp c c1 e
               Hok Hin Hcall).
    do 2 eexists. split; [reflexivity|]. cbn [tracker openrouter_client with_tracker].
    rewrite Ht. split; [|split; [exact Hf|exact I]].
    apply (apply_op_ok (OpFailure (datetime_now (env c1)) m (str_exn e))), Hok.
Qed.

Lemma answer_from_incl l l' hs r :
  (forall m, In m l -> In m l') -> answer_from l hs r -> answer_from l' hs r.
Proof.
  intros Hincl. destruct r as [[text m]|]; [|auto].
  simpl. intros (Hin & Hrest). split; auto.
Qed.

Lemma attempts_loop_returns m p mt temp max_attempts list_of_attempts :
  forall c : MultiAIClient Env,
    tracker_ok (tracker c) -> In m (dict_keys AI_MODELS) ->
    exists r c',
      attempts m p mt temp max_attempts list_of_attempts c = (Ok r, c') /\
      tracker_ok (tracker c') /\
      openrouter_client c' = openrouter_client c /\
      answer_from [m] (tracker c') r.
Proof.
  induction list_of_attempts as [|a rest IH]; intros c Hok Hin; cbn [attempts_loop].
  - exists None, c. split; [reflexivity|]. split; [exact Hok|].
    split; [reflexivity|exact I].
  - unfold Eff.bind at 1.
    destruct (attempt_once_returns m p mt temp c Hok Hin)
      as (r & c1 & -> & Hok1 & Hf1 & Hans).
    destruct r as [answer|].
    + exists (Some answer), c1. split; [reflexivity|]. split; [exact Hok1|].
      split; [exact Hf1|exact Hans].
    + unfold Eff.bind at 1.
      set (c2 := snd ((if a <? max_attempts
                       then sleep Env time_sleep RETRY_DELAY else Eff.ret tt) c1)).
      assert (Hc2 : (if a <? max_attempts
                     then sleep Env time_sleep RETRY_DELAY else Eff.ret tt) c1
                    = (Ok tt, c2)).
      { unfold c2. destruct (a <? max_attempts); reflexivity. }
      assert (Ht2 : tracker c2 = tracker c1 /\
                    openrouter_client c2 = openrouter_client c1).
      { unfold c2. destruct (a <? max_attempts); split; reflexivity. }
      rewrite Hc2. destruct Ht2 as [Ht2 Hf2].
      destruct (IH c2) as (r & c' & Hrun & Hok' & Hf' & Hans');
        [now rewrite Ht2|exact Hin|].
      exists r, c'. split; [exact Hrun|]. split; [exact Hok'|].
      split; [congruence|exact Hans'].
Qed.

Lemma models_loop_returns p mt temp max_attempts candidates :
  forall c : MultiAIClient Env,
    tracker_ok (tracker c) ->
    (forall m, In m candidates -> In m (dict_keys AI_MODELS)) ->
    exists r c',
      models p mt temp max_attempts candidates c = (Ok r, c') /\
      tracker_ok (tracker c') /\
      openrouter_client c' = openrouter_client c /\
      answer_from candidates (tracker c') r.
Proof.
  induction candidates as [|m rest IH]; intros c Hok Hreg; cbn [models_loop].
  - exists None, c. split; [reflexivity|]. split; [exact Hok|].
    split; [reflexivity|exact I].
  - unfold Eff.bind at 1, Eff.of_result, dict_item.
    destruct (dict_keys_in_get AI_MODELS m (Hreg m (or_introl eq_refl)))
      as [info ->].
    unfold Eff.bind at 1.
    destruct (attempts_loop_returns m p mt temp max_attempts
                (py_range 1 (max_attempts + 1)) c Hok
                (Hreg m (or_introl eq_refl)))
      as (r & c1 & -> & Hok1 & Hf1 & Hans).
    destruct r as [answer|].
    + exists (Some answer), c1. split; [reflexivity|]. split; [exact Hok1|].
      split; [exact Hf1|].
      apply (answer_from_incl [m]); [|exact Hans].
      intros x [<-|[]]. now left.
    + destruct (IH c1 Hok1) as (r & c' & Hrun & Hok' & Hf' & Hans');
        [intros x Hx; apply Hreg; now right|].
      exists r, c'. split; [exact Hrun|]. split; [exact Hok'|].
      split; [congruence|].
      apply (answer_from_incl rest); [|exact Hans'].
      intros x Hx. now right.
Qed.

(** The shape of every run of [generate_with_fallback]. *)
Lemma generate_with_fallback_spec p task mt temp max_attempts (c : MultiAIClient Env) :
  tracker_ok (tracker c) ->
  exists ranked r c',
    _get_suitable_models task (tracker c) = Ok ranked /\
    generate p task mt temp max_attempts c = (Ok r, c') /\
    tracker_ok (tracker c') /\
    openrouter_client c' = openrouter_client c /\
    (r = (None, None) \/
     exists text m,
       r = (Some text, Some m) /\ answer_from ranked (tracker c') (Some (text, m))).
Proof.
  intros Hok.
  assert (Hreg : forall n, In n (dict_keys AI_MODELS) ->
                           dict_get (tracker c) n <> None).
  { intros n Hn. destruct (tracker_ok_registered _ _ Hok Hn) as (st & -> & _).
    discriminate. }
  destruct (ranking_structure task (tracker c) Hreg) as (scored & Hrank & Hperm & _).
  exists (map fst scored).
  unfold generate_with_fallback, Eff.bind at 1, Eff.get.
  unfold Eff.bind at 1, Eff.of_result. rewrite Hrank.
  destruct (map fst scored) as [|m rest] eqn:Hl.
  - exists (None, None), c. split; [reflexivity|]. split; [reflexivity|].
    split; [exact Hok|]. split; [reflexivity|now left].
  - rewrite <- Hl in *.
    assert (Hcand : forall x, In x (map fst scored) -> In x (dict_keys AI_MODELS)).
    { intros x Hx. apply (rank_entry_names task (tracker c)).
      apply (Permutation_in _ (Permutation_map fst Hperm)). exact Hx. }
    unfold Eff.bind.
    destruct (models_loop_returns p mt temp max_attempts (map fst scored) c Hok Hcand)
      as (r & c' & -> & Hok' & Hf' & Hans).
    destruct r as [[text m']|].
    + exists (Some text, Some m'), c'. split; [reflexivity|].
      split; [reflexivity|]. split; [exact Hok'|]. split; [exact Hf'|].
      right. exists text, m'. split; [reflexivity|exact Hans].
    + exists (None, None), c'. split; [reflexivity|].
      split; [reflexivity|]. split; [exact Hok'|]. split; [exact Hf'|]. now left.
Qed.

(** X9.  On a tracker that satisfies its invariant
    [generate_with_fallback] never raises, whatever the providers do: every
    exception of a provider call is caught and recorded, and the tracker
    satisfies its invariant afterwards. *)
Theorem generate_with_fallback_never_raises :
  forall p task mt temp max_attempts (c : MultiAIClient Env),
    tracker_ok (tracker c) ->
    exists r c',
      generate p task mt temp max_attempts c = (Ok r, c') /\
      tracker_ok (tracker c').
Proof.
  intros p task mt temp max_attempts c Hok.
  destruct (generate_with_fallback_spec p task mt temp max_attempts c Hok)
    as (ranked & r & c' & _ & Hrun & Hok' & _).
  now exists r, c'.
Qed.


(** X11.  When every registered backend is unhealthy with at least two
    consecutive failures there is no candidate: [generate_with_fallback]
    returns [(None, None)] at once, without a provider call, a sleep or a
    change to the tracker. *)
Theorem no_candidate_means_no_call :
  forall p task mt temp max_attempts (c : MultiAIClient Env),
    (forall n, In n (dict_keys AI_MODELS) ->
       exists st, dict_get (tracker c) n = Some st /\
                  is_healthy st = Some false /\ 2 <= consecutive_failures st) ->
    generate p task mt temp max_attempts c = (Ok (None, None), c).
Proof.
  intros p task mt temp max_attempts c Hall.
  unfold generate_with_fallback, Eff.bind at 1, Eff.get.
  unfold Eff.bind at 1, Eff.of_result.
  rewrite all_skipped_no_candidates; [reflexivity|].
  intros n Hn. destruct (Hall n Hn) as (st & Hst & Hh & Hcf).
  exists st. split; [exact Hst|]. unfold skipped. rewrite Hh. now apply Z.geb_le.
Qed.

Lemma models_loop_without_attempts p mt temp max_attempts candidates :
  forall c : MultiAIClient Env,
    max_attempts <= 0 ->
    (forall m, In m candidates -> In m (dict_keys AI_MODELS)) ->
    models p mt temp max_attempts candidates c = (Ok None, c).
Proof.
  induction candidates as [|m rest IH]; intros c Hmax Hreg; cbn [models_loop];
    [reflexivity|].
  unfold Eff.bind at 1, Eff.of_result, dict_item.
  destruct (dict_keys_in_get AI_MODELS m (Hreg m (or_introl eq_refl))) as [info ->].
  rewrite py_range_nil by lia. cbn [attempts_loop]. unfold Eff.bind, Eff.ret.
  apply IH; [exact Hmax|]. intros x Hx. apply Hreg. now right.
Qed.

(** X12.  With an attempt budget of 0 or less per model nothing is tried:
    [generate_with_fallback] returns [(None, None)] and leaves the client,
    its tracker and the outside world as they were. *)
Theorem no_attempt_budget_means_no_call :
  forall p task mt temp max_attempts (c : MultiAIClient Env),
    max_attempts <= 0 ->
    (forall n, In n (dict_keys AI_MODELS) -> dict_get (tracker c) n <> None) ->
    generate p task mt temp max_attempts c = (Ok (None, None), c).
Proof.
  intros p task mt temp max_attempts c Hmax Hreg.
  destruct (ranking_structure task (tracker c) Hreg) as (scored & Hrank & Hperm & _).
  unfold generate_with_fallback, Eff.bind at 1, Eff.get.
  unfold Eff.bind at 1, Eff.of_result. rewrite Hrank.
  destruct (map fst scored) as [|m rest] eqn:Hl; [reflexivity|].
  rewrite <- Hl. unfold Eff.bind.
  rewrite models_loop_without_attempts; [reflexivity|exact Hmax|].
  intros x Hx. apply (rank_entry_names task (tracker c)).
  apply (Permutation_in _ (Permutation_map fst Hperm)). exact Hx.
Qed.

(** One probe records exactly one call for its model, as a success or as a
    failure, and returns. *)
Lemma health_check_one_records m (c : MultiAIClient Env) :
  tracker_ok (tracker c) -> In m (dict_keys AI_MODELS) ->
  exists o c',
    check_one m c = (Ok tt, c') /\
    tracker c' = snd (apply_op o (tracker c)) /\
    openrouter_client c' = openrouter_client c /\
    op_model o = m /\ (forall n, o <> OpReset n).
Proof.
  intros Hok Hin.
  unfold health_check_one, Eff.try_except, Eff.bind, read_env.
  destruct (call m "Respond with exactly: OK" 50 (1 # 10)%Q c) as [res c1] eqn:Hcall.
  assert (Ht : tracker c1 = tracker c).
  { rewrite <- (call_single_model_tracker Env openrouter_create
                  gemini_generate_content GEMINI_API_KEY
                  m "Respond with exactly: OK" 50 (1 # 10)%Q c).
    now rewrite Hcall. }
  assert (Hf : openrouter_client c1 = openrouter_client c).
  { rewrite <- (call_single_model_flag m "Respond with exactly: OK" 50 (1 # 10)%Q c).
    now rewrite Hcall. }
  assert (Hok1 : tracker_ok (tracker c1)) by now rewrite Ht.
  destruct res as [response|e]; [destruct (non_empty response)|].
  - unfold tracker_mark_success, on_tracker, Eff.zoom.
    pose proof (mark_success_returns (tracker c1) (datetime_now (env c1)) m
                  (time_time (env c1) - time_time (env c))%Q Hok1 Hin) as Hret.
    destruct (mark_success (datetime_now (env c1)) m
                (time_time (env c1) - time_time (env c))%Q (tracker c1))
      as [r hs'] eqn:Hm.
    simpl in Hret. subst r.
    exists (OpSuccess (datetime_now (env c1)) m
              (time_time (env c1) - time_time (env c))%Q).
    eexists. split; [reflexivity|]. cbn [tracker openrouter_client with_tracker apply_op].
    rewrite <- Ht, Hm. repeat split; try assumption. discriminate.
  - unfold tracker_mark_failure, on_tracker, Eff.zoom.
    pose proof (mark_failure_returns (tracker c1) (datetime_now (env c1)) m
                  "Empty response" Hok1 Hin) as Hret.
    destruct (mark_failure (datetime_now (env c1)) m "Empty response" (tracker c1))
      as [r hs'] eqn:Hm.
    simpl in Hret. subst r.
    exists (OpFailure (datetime_now (env c1)) m "Empty response").
    eexists. split; [reflexivity|]. cbn [tracker openrouter_client with_tracker apply_op].
    rewrite <- Ht, Hm. repeat split; try assumption. discriminate.
  - unfold tracker_mark_failure, on_tracker, Eff.zoom.
    pose proof (mark_failure_returns (tracker c1) (datetime_now (env c1)) m
                  (str_exn e) Hok1 Hin) as Hret.
    destruct (mark_failure (datetime_now (env c1)) m (str_exn e) (tracker c1))
      as [r hs'] eqn:Hm.
    simpl in Hret. subst r.
    exists (OpFailure (datetime_now (env c1)) m (str_exn e)).
    eexists. split; [reflexivity|]. cbn [tracker openrouter_client with_tracker apply_op].
    rewrite <- Ht, Hm. repeat split; try assumption. discriminate.
Qed.

Lemma probed_by_mark m o st :
  op_model o = m -> (forall n, o <> OpReset n) -> probed st (effect_on m o st).
Proof.
  intros Hm Hnr. unfold probed.
  destruct o as [now m' rt|now m' err|m']; simpl in *; subst m';
    [| |exfalso; now apply (Hnr m)];
    rewrite String.eqb_refl; simpl; split; try reflexivity.
  - left. repeat split.
  - right. repeat split.
Qed.

Lemma health_check_loop_probes items : forall c : MultiAIClient Env,
  tracker_ok (tracker c) ->
  NoDup (map fst items) ->
  (forall item, In item items -> In (fst item) (dict_keys AI_MODELS)) ->
  exists c',
    check_loop items c = (Ok tt, c') /\
    tracker_ok (tracker c') /\
    openrouter_client c' = openrouter_client c /\
    forall b st,
      dict_get (tracker c) b = Some st ->
      exists st',
        dict_get (tracker c') b = Some st' /\
        (In b (map fst items) -> probed st st') /\
        (~ In b (map fst items) -> st' = st).
Proof.
  induction items as [|[m info] items IH]; intros c Hok Hnd Hreg;
    cbn [health_check_loop].
  - exists c. split; [reflexivity|]. split; [exact Hok|]. split; [reflexivity|].
    intros b st Hst. exists st. split; [exact Hst|]. split; [intros []|reflexivity].
  - inversion Hnd as [|? ? Hnotin Hnd']; subst.
    destruct (health_check_one_records m c Hok (Hreg (m, info) (or_introl eq_refl)))
      as (o & c1 & Hone & Ht1 & Hf1 & Hm & Hnr).
    unfold Eff.bind at 1. rewrite Hone.
    unfold Eff.bind at 1, sleep, on_env, Eff.zoom, Eff.modify. cbn [fst snd].
    set (c2 := with_env (time_sleep HEALTH_CHECK_DELAY (env c1)) c1).
    assert (Hok2 : tracker_ok (tracker c2)).
    { unfold c2. cbn [tracker with_env]. rewrite Ht1. now apply apply_op_ok. }
    destruct (IH c2 Hok2 Hnd') as (c' & Hrun & Hok' & Hf' & Hall).
    { intros item Hitem. apply Hreg. now right. }
    exists c'. split; [exact Hrun|]. split; [exact Hok'|].
    split; [rewrite Hf'; unfold c2; cbn [openrouter_client with_env]; exact Hf1|].
    intros b st Hst.
    destruct (apply_op_spec o (tracker c) b st Hok Hst) as [_ Hget1].
    rewrite <- Ht1 in Hget1.
    destruct (Hall b (effect_on b o st) Hget1) as (st' & Hget' & Hin' & Hout').
    exists st'. split; [exact Hget'|]. simpl. split.
    + intros [Hb|Hb].
      * subst b. rewrite (Hout' Hnotin). now apply probed_by_mark.
      * assert (Hne : op_model o <> b) by (rewrite Hm; intros ->; contradiction).
        rewrite (effect_on_other b o st Hne) in Hin'. now apply Hin'.
    + intros Hnot.
      assert (Hne : op_model o <> b) by (rewrite Hm; intros ->; apply Hnot; now left).
      rewrite Hout' by (intros H; apply Hnot; now right).
      now apply effect_on_other.
Qed.

(** The shape of every run of [health_check_all_models]. *)
Lemma health_check_all_models_spec :
  forall c : MultiAIClient Env,
    tracker_ok (tracker c) ->
    exists working c',
      health_check c = (Ok working, c') /\
      tracker_ok (tracker c') /\
      (forall name st,
         dict_get (tracker c) name = Some st ->
         exists st', dict_get (tracker c') name = Some st' /\ probed st st') /\
      (working = true <->
       exists name st', dict_get (tracker c') name = Some st' /\
                        is_healthy st' = Some true).
Proof.
  intros c Hok.
  destruct (health_check_loop_probes AI_MODELS c Hok AI_MODELS_keys_NoDup)
    as (c' & Hrun & Hok' & _ & Hall).
  { intros item Hitem. unfold dict_keys. now apply in_map. }
  assert (Hprobed : forall name st,
            dict_get (tracker c) name = Some st ->
            exists st', dict_get (tracker c') name = Some st' /\ probed st st').
  { intros name st Hst. destruct (Hall name st Hst) as (st' & Hget' & Hin' & _).
    exists st'. split; [exact Hget'|]. apply Hin'.
    change (map fst AI_MODELS) with (dict_keys AI_MODELS).
    rewrite <- (proj1 Hok). now apply dict_get_in_keys with st. }
  destruct (healthy_models_are_the_kept (tracker c') None (proj1 Hok'))
    as (healthy & Hh & Hperm).
  assert (Hnd : NoDup (dict_keys (tracker c')))
    by (rewrite (proj1 Hok'); apply AI_MODELS_keys_NoDup).
  assert (Hmem : forall name,
            In name healthy <->
            exists st', dict_get (tracker c') name = Some st' /\
                        is_healthy st' = Some true).
  { intros name. split.
    - intros Hin. apply (Permutation_in _ Hperm) in Hin.
      apply in_kept_names in Hin; [|exact Hnd].
      destruct Hin as (st' & Hget' & Hk). apply kept_iff in Hk.
      destruct Hk as (Hnf & _ & _).
      exists st'. split; [exact Hget'|].
      assert (Hin0 : In name (dict_keys (tracker c))).
      { rewrite (proj1 Hok), <- (proj1 Hok'). now apply dict_get_in_keys with st'. }
      destruct (dict_keys_in_get _ _ Hin0) as [st Hst].
      destruct (Hprobed name st Hst) as (st'' & Hget'' & _ & Hcase).
      assert (st'' = st') by congruence. subst st''.
      destruct Hcase as [(Hh' & _)|(Hh' & _)]; [exact Hh'|contradiction].
    - intros (st' & Hget' & Hh').
      apply (Permutation_in _ (Permutation_sym Hperm)).
      apply in_kept_names; [exact Hnd|].
      exists st'. split; [exact Hget'|]. apply kept_iff.
      split; [congruence|]. split; [|exact I].
      assert (Hin0 : In name (dict_keys (tracker c))).
      { rewrite (proj1 Hok), <- (proj1 Hok'). now apply dict_get_in_keys with st'. }
      destruct (dict_keys_in_get _ _ Hin0) as [st Hst].
      destruct (Hprobed name st Hst) as (st'' & Hget'' & _ & Hcase).
      assert (st'' = st') by congruence. subst st''.
      destruct Hcase as [(_ & Hcf & _)|(Hh'' & _)]; [lia|congruence]. }
  unfold health_check_all_models, Eff.bind at 1. rewrite Hrun.
  unfold Eff.bind at 1, Eff.get. unfold Eff.bind, Eff.of_result. rewrite Hh.
  destruct healthy as [|h rest].
  - exists false, c'. split; [reflexivity|]. split; [exact Hok'|].
    split; [exact Hprobed|]. split; [discriminate|].
    intros (name & st' & Hex). exfalso.
    apply (proj2 (Hmem name)); eauto.
  - exists true, c'. split; [reflexivity|]. split; [exact Hok'|].
    split; [exact Hprobed|]. split; [|reflexivity].
    intros _. destruct (proj1 (Hmem h) (or_introl eq_refl)) as (st' & Hex).
    now exists h, st'.
Qed.

(** X13.  The start-up health check never raises on a tracker that
    satisfies its invariant, whatever the providers do.  It records exactly
    one more call for every backend, as a success or as a failure, so that
    none is left untested; and it returns [True] exactly when at least one
    backend is healthy afterwards. *)
Theorem health_check_probes_every_backend_once :
  forall c : MultiAIClient Env,
    tracker_ok (tracker c) ->
    exists working c',
      health_check c = (Ok working, c') /\
      tracker_ok (tracker c') /\
      (forall name st,
         dict_get (tracker c) name = Some st ->
         exists st', dict_get (tracker c') name = Some st' /\ probed st st') /\
      (working = true <->
       exists name st', dict_get (tracker c') name = Some st' /\
                        is_healthy st' = Some true).
Proof. exact health_check_all_models_spec. Qed.

End ClientMore.

Lemma generate_with_fallback_never_raises_witness :
  let respond := fun (_ : list string) (_ : string) =>
                   @Raise (option string) (Exception "503 Service Unavailable") in
  let c := Scripted.client tracker_init in
  tracker_ok (tracker c) /\
  exists r c',
    Scripted.generate respond "prompt" c = (Ok r, c') /\ tracker_ok (tracker c').
Proof.
  intros respond c. split; [exact tracker_init_ok|].
  exact (generate_with_fallback_never_raises
           Scripted.Env Scripted.time_time Scripted.datetime_now
           Scripted.time_sleep (Scripted.openrouter_create respond)
           (Scripted.gemini_generate_content respond) Scripted.GEMINI_API_KEY
           "prompt" "creative_writing" 600 (8 # 10)%Q 2 c tracker_init_ok).
Defined.


Lemma no_candidate_means_no_call_witness :
  let respond := fun (_ : list string) (_ : string) => Ok (Some Scripted.text_51) in
  let c := Scripted.client Sample.all_down in
  (forall n, In n (dict_keys AI_MODELS) ->
     exists st, dict_get (tracker c) n = Some st /\
                is_healthy st = Some false /\ 2 <= consecutive_failures st) /\
  Scripted.generate respond "prompt" c = (Ok (None, None), c).
Proof.
  intros respond c.
  assert (Hall : forall n, In n (dict_keys AI_MODELS) ->
            exists st, dict_get (tracker c) n = Some st /\
                       is_healthy st = Some false /\ 2 <= consecutive_failures st).
  { intros n Hn. vm_compute in Hn.
    repeat (destruct Hn as [<-|Hn];
            [eexists; split; [vm_compute; reflexivity|];
             split; [reflexivity|vm_compute; discriminate]|]).
    destruct Hn. }
  split; [exact Hall|].
  exact (no_candidate_means_no_call
           Scripted.Env Scripted.time_time Scripted.datetime_now
           Scripted.time_sleep (Scripted.openrouter_create respond)
           (Scripted.gemini_generate_content respond) Scripted.GEMINI_API_KEY
           "prompt" "creative_writing" 600 (8 # 10)%Q 2 c Hall).
Defined.

Lemma no_attempt_budget_means_no_call_witness :
  let respond := fun (_ : list string) (_ : string) => Ok (Some Scripted.text_51) in
  let c := Scripted.client tracker_init in
  (forall n, In n (dict_keys AI_MODELS) -> dict_get (tracker c) n <> None) /\
  generate_with_fallback Scripted.Env Scripted.time_time Scripted.datetime_now
    Scripted.time_sleep (Scripted.openrouter_create respond)
    (Scripted.gemini_generate_content respond) Scripted.GEMINI_API_KEY
    "prompt" "creative_writing" 600 (8 # 10)%Q 0 c
  = (Ok (None, None), c).
Proof.
  intros respond c.
  assert (Hreg : forall n, In n (dict_keys AI_MODELS) -> dict_get (tracker c) n <> None).
  { intros n Hn. destruct (tracker_ok_registered _ _ tracker_init_ok Hn) as (st & Hst & _).
    change (dict_get tracker_init n <> None). rewrite Hst. discriminate. }
  split; [exact Hreg|].
  exact (no_attempt_budget_means_no_call
           Scripted.Env Scripted.time_time Scripted.datetime_now
           Scripted.time_sleep (Scripted.openrouter_create respond)
           (Scripted.gemini_generate_content respond) Scripted.GEMINI_API_KEY
           "prompt" "creative_writing" 600 (8 # 10)%Q 0 c ltac:(lia) Hreg).
Defined.

Lemma health_check_probes_every_backend_once_witness :
  let respond := fun (calls : list string) (model_id : string) =>
                   if String.eqb model_id "gemini-2.0-flash-exp"
                   then Ok (Some Scripted.short_text)
                   else Raise (Exception "503 Service Unavailable") in
  let c := Scripted.client tracker_init in
  tracker_ok (tracker c) /\
  exists c',
    Scripted.health_check respond c = (Ok true, c') /\
    tracker_ok (tracker c') /\
    (forall name st,
       dict_get (tracker c) name = Some st ->
       exists st', dict_get (tracker c') name = Some st' /\ probed st st').
Proof.
  intros respond c. split; [exact tracker_init_ok|].
  destruct (health_check_probes_every_backend_once
              Scripted.Env Scripted.time_time Scripted.datetime_now
              Scripted.time_sleep (Scripted.openrouter_create respond)
              (Scripted.gemini_generate_content respond) Scripted.GEMINI_API_KEY
              c tracker_init_ok)
    as (working & c' & Hrun & Hok & Hprobed & _).
  exists c'. split; [|split; [exact Hok|exact Hprobed]].
  unfold Scripted.health_check. rewrite Hrun. f_equal.
  change (Ok working) with (fst (Ok working, c')). rewrite <- Hrun.
  vm_compute. reflexivity.
Defined.

(* ===================================================================== *)
(** * The module interface                                                *)
(* ===================================================================== *)

Section ApiFacts.
Variable Env : Type.
Variable time_time : Env -> Q.
Variable datetime_now : Env -> string.
Variable time_sleep : Z -> Env -> Env.
Variable openrouter_create :
  string -> string -> Z -> Q -> Env -> result (option string) * Env.
Variable gemini_generate_content :
  string -> Z -> Q -> Env -> result (option string) * Env.
Variable GEMINI_API_KEY : string.
Variable OPENROUTER_API_KEY : string.

Local Abbreviation api_call :=
  (Api.call Env time_time datetime_now time_sleep openrouter_create
     gemini_generate_content GEMINI_API_KEY OPENROUTER_API_KEY).
Local Abbreviation api_run :=
  (Api.run Env time_time datetime_now time_sleep openrouter_create
     gemini_generate_content GEMINI_API_KEY OPENROUTER_API_KEY).
Local Abbreviation generate_text :=
  (Api.generate_text Env time_time datetime_now time_sleep openrouter_create
     gemini_generate_content GEMINI_API_KEY).

Lemma initialize_makes_ready (s : Api.State Env) :
  exists s', api_call Api.Initialize s = (None, s') /\ Api.ready Env s'.
Proof.
  unfold Api.call, Api.initialize_ai_system, Api.on_client, Api.MultiAIClient_init.
  cbn [fst snd].
  set (c := {| tracker := tracker_init; openrouter_client := _; env := Api.outside Env s |}).
  destruct (health_check_all_models_spec Env time_time datetime_now time_sleep
              openrouter_create gemini_generate_content GEMINI_API_KEY c
              tracker_init_ok) as (working & c' & Hrun & Hok' & _).
  rewrite Hrun. unfold Api.raised. cbn [fst snd].
  eexists. split; [reflexivity|].
  exists (tracker c'), (openrouter_client c'). split; [reflexivity|exact Hok'].
Qed.

Lemma ready_call_returns c (s : Api.State Env) :
  Api.ready Env s ->
  exists s', api_call c s = (None, s') /\ Api.ready Env s'.
Proof.
  intros (hs & oc & Hcl & Hok).
  destruct c as [|p task temp|task| |m].
  - apply initialize_makes_ready.
  - unfold Api.call, Api.generate_text. rewrite Hcl. unfold Api.on_client.
    cbn [fst snd].
    set (c := {| tracker := hs; openrouter_client := oc; env := Api.outside Env s |}).
    destruct (generate_with_fallback_spec Env time_time datetime_now time_sleep
                openrouter_create gemini_generate_content GEMINI_API_KEY
                p task 600 temp 2 c Hok) as (ranked & r & c' & _ & Hrun & Hok' & _).
    rewrite Hrun. unfold Api.raised. cbn [fst snd].
    eexists. split; [reflexivity|].
    exists (tracker c'), (openrouter_client c'). split; [reflexivity|exact Hok'].
  - unfold Api.call, Api.get_best_model_for_task. rewrite Hcl. cbn [fst].
    assert (Hreg : forall n, In n (dict_keys AI_MODELS) -> dict_get hs n <> None).
    { intros n Hn. destruct (tracker_ok_registered _ _ Hok Hn) as (st & -> & _).
      discriminate. }
    destruct (ranking_structure task hs Hreg) as (scored & -> & _).
    unfold Api.raised. cbn [fst snd rbind].
    exists s. split; [reflexivity|]. now exists hs, oc.
  - unfold Api.call, Api.get_healthy_models. rewrite Hcl. cbn [fst].
    destruct (healthy_models_are_the_kept hs None (proj1 Hok)) as (healthy & -> & _).
    unfold Api.raised. cbn [fst snd].
    exists s. split; [reflexivity|]. now exists hs, oc.
  - unfold Api.call, Api.reset_model. rewrite Hcl. cbn [fst snd].
    pose proof (apply_op_ok (OpReset m) hs Hok) as Hok'. cbn [apply_op] in Hok'.
    assert (Hret : fst (reset_model m hs) = Ok tt).
    { unfold reset_model. now destruct (dict_get hs m). }
    destruct (reset_model m hs) as [r hs'] eqn:Hm. cbn [fst snd] in *. subst r.
    unfold Api.raised. cbn [fst snd].
    eexists. split; [reflexivity|]. exists hs', oc. split; [reflexivity|exact Hok'].
Qed.

Lemma ready_run_returns calls : forall s : Api.State Env,
  Api.ready Env s ->
  fst (api_run calls s) = [] /\ Api.ready Env (snd (api_run calls s)).
Proof.
  induction calls as [|c rest IH]; intros s Hready; cbn [Api.run].
  - split; [reflexivity|exact Hready].
  - destruct (ready_call_returns c s Hready) as (s1 & -> & Hready1).
    destruct (IH s1 Hready1) as [Hnil Hready2].
    destruct (api_run rest s1) as [es s2]. cbn [fst snd] in *. subst es.
    split; [reflexivity|exact Hready2].
Qed.

(** X14.  Before [initialize_ai_system] has run, [generate_text] raises
    and touches nothing.  Once it has run, from any state and whatever the
    providers do, no later call of the interface raises: not
    [generate_text], [get_best_model_for_task], [get_healthy_models],
    [reset_model], nor a second [initialize_ai_system]. *)
Theorem interface_never_raises_once_initialized :
  forall (s : Api.State Env) calls p task temp,
    (Api._ai_client Env s = None ->
     generate_text p task temp s
     = (Raise (Exception
                 "AI system not initialized! Call initialize_ai_system() first."),
        s)) /\
    fst (api_run (Api.Initialize :: calls) s) = [] /\
    Api.ready Env (snd (api_run (Api.Initialize :: calls) s)).
Proof.
  intros s calls p task temp. split.
  - intros Hnone. unfold Api.generate_text. now rewrite Hnone.
  - cbn [Api.run].
    destruct (initialize_makes_ready s) as (s1 & -> & Hready1).
    destruct (ready_run_returns calls s1 Hready1) as [Hnil Hready2].
    destruct (api_run calls s1) as [es s2]. cbn [fst snd] in *. subst es.
    split; [reflexivity|exact Hready2].
Qed.

Lemma sorted_head_is_greatest (scored : list (string * Q)) x rest y :
  StronglySorted
    (fun a b => (snd b <= snd a)%Q /\
                ((snd a == snd b)%Q ->
                 precedes (dict_keys AI_MODELS) (fst a) (fst b)))
    scored ->
  scored = x :: rest -> In y scored -> (snd y <= snd x)%Q.
Proof.
  intros Hs -> [<-|Hy]; [apply Qle_refl|].
  inversion Hs as [|? ? _ Hall]; subst. rewrite Forall_forall in Hall.
  apply (Hall y Hy).
Qed.

(** X15.  On an initialised system whose tracker satisfies its invariant,
    [get_best_model_for_task] returns a backend that the ranking does not
    skip and whose suitability score is at least the score of every other
    backend that is not skipped; it returns nothing exactly when every
    backend is skipped.  The state is left as it was. *)
Theorem best_model_has_the_highest_score :
  forall (s : Api.State Env) hs oc task,
    Api._ai_client Env s = Some (hs, oc) ->
    tracker_ok hs ->
    exists best,
      Api.get_best_model_for_task Env task s = (Ok best, s) /\
      match best with
      | Some m =>
          exists info st,
            dict_get AI_MODELS m = Some info /\ dict_get hs m = Some st /\
            skipped st = false /\
            forall n info' st',
              dict_get AI_MODELS n = Some info' -> dict_get hs n = Some st' ->
              skipped st' = false ->
              (suitability_score task info' st' <= suitability_score task info st)%Q
      | None =>
          forall n st', In n (dict_keys AI_MODELS) ->
                        dict_get hs n = Some st' -> skipped st' = true
      end.
Proof.
  intros s hs oc task Hcl Hok.
  assert (Hreg : forall n, In n (dict_keys AI_MODELS) -> dict_get hs n <> None).
  { intros n Hn. destruct (tracker_ok_registered _ _ Hok Hn) as (st & -> & _).
    discriminate. }
  destruct (ranking_structure task hs Hreg) as (scored & Hrank & Hperm & Hsorted).
  unfold Api.get_best_model_for_task. rewrite Hcl. cbn [fst]. rewrite Hrank.
  cbn [rbind].
  destruct scored as [|[m score] rest] eqn:Hscored; cbn [map fst].
  - exists None. split; [reflexivity|].
    intros n st' Hn Hst'.
    destruct (skipped st') eqn:Hsk; [reflexivity|].
    exfalso. destruct (dict_keys_in_get _ _ Hn) as [info Hinfo].
    apply (scored_entry task hs [] n info st' Hperm Hinfo Hst' Hsk).
  - exists (Some m). split; [reflexivity|].
    destruct (scored_entry_inv task hs ((m, score) :: rest) m score Hperm
                (or_introl eq_refl)) as (info & st & Hinfo & Hst & Hsk & Hscore).
    exists info, st. split; [exact Hinfo|]. split; [exact Hst|].
    split; [exact Hsk|].
    intros n info' st' Hinfo' Hst' Hnex.
    pose proof (scored_entry task hs _ n info' st' Hperm Hinfo' Hst' Hnex) as Hin.
    pose proof (sorted_head_is_greatest _ (m, score) rest _ Hsorted eq_refl Hin)
      as Hle.
    cbn [snd] in Hle. rewrite Hscore in Hle. exact Hle.
Qed.

End ApiFacts.

Lemma best_model_has_the_highest_score_witness :
  tracker_ok tracker_init /\
  Api.get_best_model_for_task Scripted.Env "news_writing" Sample.api_state
  = (Ok (Some "gemini-2.0-flash"), Sample.api_state) /\
  forall n info' st',
    dict_get AI_MODELS n = Some info' -> dict_get tracker_init n = Some st' ->
    skipped st' = false ->
    exists info st,
      dict_get AI_MODELS "gemini-2.0-flash" = Some info /\
      dict_get tracker_init "gemini-2.0-flash" = Some st /\
      (suitability_score "news_writing" info' st'
       <= suitability_score "news_writing" info st)%Q.
Proof.
  split; [exact tracker_init_ok|].
  destruct (best_model_has_the_highest_score Scripted.Env Sample.api_state
              tracker_init true "news_writing" eq_refl tracker_init_ok)
    as (best & Hrun & Hbest).
  assert (Hb : best = Some "gemini-2.0-flash").
  { assert (H : fst (Api.get_best_model_for_task Scripted.Env "news_writing"
                       Sample.api_state) = Ok best) by now rewrite Hrun.
    vm_compute in H. congruence. }
  subst best. split; [exact Hrun|].
  destruct Hbest as (info & st & Hinfo & Hst & _ & Hmax).
  intros n info' st' Hinfo' Hst' Hsk. exists info, st.
  split; [exact Hinfo|]. split; [exact Hst|]. now apply (Hmax n).
Defined.

Lemma last_100_length {X} (l : list X) :
  List.length (FailureTracker.last_100 l) = Nat.min (List.length l) 100.
Proof. unfold FailureTracker.last_100. rewrite length_skipn. lia. Qed.

Lemma last_100_suffix {X} (l : list X) :
  l = (firstn (List.length l - 100) l ++ FailureTracker.last_100 l)%list.
Proof. unfold FailureTracker.last_100. now rewrite firstn_skipn. Qed.

Lemma last_100_snoc {X} (l : list X) (x : X) :
  FailureTracker.last_100 (l ++ [x])
  = (skipn (List.length (l ++ [x]) - 100) l ++ [x])%list.
Proof.
  unfold FailureTracker.last_100. rewrite skipn_app.
  replace (List.length (l ++ [x]) - 100 - List.length l)%nat with 0%nat
    by (rewrite length_app; simpl; lia).
  reflexivity.
Qed.

Lemma last_100_app_l {X} (l m : list X) :
  FailureTracker.last_100 (FailureTracker.last_100 l ++ m)
  = FailureTracker.last_100 (l ++ m).
Proof.
  unfold FailureTracker.last_100.
  rewrite !skipn_app, skipn_skipn, !length_app, !length_skipn.
  f_equal; f_equal; lia.
Qed.

(* ===================================================================== *)
(** * More on the retries                                                 *)
(* ===================================================================== *)

Section RetryMore.
Variable A : Type.
Variable OpState : Type.
Variable func : OpState -> result (option A) * OpState.
Variable Rng : Type.
Variable random_uniform : Q -> Q -> Rng -> Q * Rng.
Variable Clock : Type.
Variable datetime_now : Clock -> string.
Variable elapse : Event -> Clock -> Clock.

Local Abbreviation W := (World OpState Rng Clock).
Local Abbreviation attempt_body :=
  (retry_attempt A OpState func Rng random_uniform Clock datetime_now elapse).
Local Abbreviation loop :=
  (retry_loop A OpState func Rng random_uniform Clock datetime_now elapse).
Local Abbreviation retry :=
  (retry_with_backoff A OpState func Rng random_uniform Clock datetime_now elapse).
Local Abbreviation failures w :=
  (FailureTracker.total_failures (FailureTracker.data (failure_tracker w))).
Local Abbreviation log_of w :=
  (FailureTracker.failure_log (FailureTracker.data (failure_tracker w))).

Lemma failed_or_not (r : result (option A)) : failed r \/ exists v, r = Ok (Some v).
Proof. destruct r as [[v|]|e]; simpl; eauto. Qed.

(** What one attempt adds, whatever the operation does. *)
Lemma retry_attempt_accounts (w : W) max_retries attempt :
  exists r w',
    attempt_body max_retries attempt w = (Ok r, w') /\
    count_calls (trace w') = S (count_calls (trace w)) /\
    match r with
    | Some (Some v) =>
        List.length (sleeps (trace w')) = List.length (sleeps (trace w)) /\
        failures w' = failures w
    | Some None =>
        ~ attempt < max_retries /\
        List.length (sleeps (trace w')) = List.length (sleeps (trace w)) /\
        failures w' = failures w + 1
    | None =>
        attempt < max_retries /\
        List.length (sleeps (trace w')) = S (List.length (sleeps (trace w))) /\
        failures w' = failures w
    end.
Proof.
  destruct (failed_or_not (fst (func (op w)))) as [Hf|[v Hv]].
  - destruct (Z_lt_le_dec attempt max_retries) as [Hlt|Hge].
    + destruct (retry_attempt_fails_more A OpState func Rng random_uniform Clock
                  datetime_now elapse w max_retries attempt Hf Hlt)
        as (w' & Hrun & _ & _ & Htr & Hfail).
      exists None, w'. split; [exact Hrun|].
      rewrite Htr, count_calls_app, sleeps_app, length_app. cbn.
      repeat split; try assumption; lia.
    + destruct (retry_attempt_fails_last A OpState func Rng random_uniform Clock
                  datetime_now elapse w max_retries attempt Hf ltac:(lia))
        as (w' & Hrun & Hc & Hs & Hfail & _).
      exists (Some None), w'. split; [exact Hrun|]. split; [exact Hc|].
      rewrite Hs. repeat split; try assumption; lia.
  - destruct (retry_attempt_succeeds A OpState func Rng random_uniform Clock
                datetime_now elapse w max_retries attempt v Hv)
      as (w' & Hrun & Htr & Hft).
    exists (Some (Some v)), w'. split; [exact Hrun|].
    rewrite Htr, Hft, count_calls_app, sleeps_app, length_app. cbn.
    repeat split; lia.
Qed.

Lemma retry_loop_accounts n : forall a (w : W) max_retries,
  a + Z.of_nat n = max_retries ->
  exists r w' k,
    loop max_retries (py_range a (max_retries + 1)) w = (Ok r, w') /\
    (1 <= k <= S n)%nat /\
    count_calls (trace w') = (count_calls (trace w) + k)%nat /\
    List.length (sleeps (trace w')) = (List.length (sleeps (trace w)) + (k - 1))%nat /\
    match r with
    | Some _ => failures w' = failures w
    | None => k = S n /\ failures w' = failures w + 1
    end.
Proof.
  induction n as [|n IH]; intros a w max_retries Ha;
    rewrite py_range_cons by lia; cbn [retry_loop]; unfold Eff.bind;
    destruct (retry_attempt_accounts w max_retries a) as (r & w1 & -> & Hc & Hr).
  - rewrite (py_range_nil (a + 1)) by lia.
    destruct r as [[v|]|].
    + destruct Hr as [Hs Hf]. exists (Some v), w1, 1%nat.
      split; [reflexivity|]. repeat split; try lia; try assumption.
    + destruct Hr as (_ & Hs & Hf). exists None, w1, 1%nat.
      split; [reflexivity|]. repeat split; try lia; try assumption.
    + destruct Hr as (Hlt & _). lia.
  - destruct r as [[v|]|].
    + destruct Hr as [Hs Hf]. exists (Some v), w1, 1%nat.
      split; [reflexivity|]. repeat split; try lia; try assumption.
    + destruct Hr as (Hnlt & _). lia.
    + destruct Hr as (_ & Hs & Hf).
      destruct (IH (a + 1) w1 max_retries ltac:(lia))
        as (r & w' & k & -> & Hk & Hc' & Hs' & Hr').
      exists r, w', (S k). split; [reflexivity|].
      split; [lia|]. split; [lia|]. split; [lia|].
      destruct r as [v|]; [congruence|].
      destruct Hr' as [Hk' Hf']. split; [lia|congruence].
Qed.

(** X16.  Whatever the operation does, [retry_with_backoff] with a
    maximum of at least 1 returns without raising after at least one and at
    most [max_retries] calls of the operation, with exactly one sleep
    between two calls; the cumulative failure counter is one higher when
    the result is [None], which happens only after all [max_retries]
    calls, and unchanged when a result is returned. *)
Theorem retry_with_backoff_accounts_for_every_call :
  forall (w : W) max_retries,
    1 <= max_retries ->
    exists r w' k,
      retry max_retries w = (Ok r, w') /\
      1 <= Z.of_nat k <= max_retries /\
      count_calls (trace w') = (count_calls (trace w) + k)%nat /\
      List.length (sleeps (trace w')) = (List.length (sleeps (trace w)) + (k - 1))%nat /\
      match r with
      | Some _ => failures w' = failures w
      | None => Z.of_nat k = max_retries /\ failures w' = failures w + 1
      end.
Proof.
  intros w max_retries Hmax. unfold retry_with_backoff.
  destruct (retry_loop_accounts (Z.to_nat (max_retries - 1)) 1 w max_retries
              ltac:(lia)) as (r & w' & k & Hrun & Hk & Hc & Hs & Hr).
  exists r, w', k. split; [exact Hrun|]. split; [lia|]. split; [exact Hc|].
  split; [exact Hs|]. destruct r as [v|]; [exact Hr|].
  destruct Hr as [Hk' Hf]. split; [lia|exact Hf].
Qed.

(** With a maximum of 0 or less the operation is never called: [None] is
    returned at once and the world is as it was. *)
Lemma retry_with_backoff_without_attempts (w : W) max_retries :
  max_retries <= 0 -> retry max_retries w = (Ok None, w).
Proof.
  intros Hmax. unfold retry_with_backoff.
  now rewrite py_range_nil by lia.
Qed.

(** What one attempt does to the failure log: nothing when the operation
    returns a value, one entry at the end otherwise. *)
Lemma retry_attempt_logs (w : W) max_retries attempt :
  exists r w',
    attempt_body max_retries attempt w = (Ok r, w') /\
    match r with
    | Some (Some v) => log_of w' = log_of w
    | other =>
        (other = None <-> attempt < max_retries) /\
        exists e,
          FailureTracker.type e = "retry_attempt" /\
          FailureTracker.retry_count e = attempt /\
          FailureTracker.timestamp e = datetime_now (elapse Called (clock w)) /\
          log_of w' = FailureTracker.last_100 (log_of w ++ [e])
    end.
Proof.
  assert (Hcut : forall l : list FailureTracker.Entry,
            (if Z.of_nat (List.length l) >? 100 then FailureTracker.last_100 l else l)
            = FailureTracker.last_100 l).
  { intros l. destruct (Z.of_nat (List.length l) >? 100) eqn:E; [reflexivity|].
    unfold FailureTracker.last_100.
    replace (List.length l - 100)%nat with 0%nat; [reflexivity|].
    rewrite Z.gtb_ltb in E. apply Z.ltb_ge in E. lia. }
  cbv [retry_attempt Eff.try_except Eff.bind call_func emit Eff.modify
       Eff.ret Eff.raise log_failure draw_uniform increment_failure_counter
       with_failure_tracker].
  cbn [op failure_tracker rng clock trace].
  destruct (func (op w)) as [r s].
  destruct r as [[v|]|e]; [do 2 eexists; split; reflexivity| |];
    destruct (attempt <? max_retries) eqn:Hlt;
    cbn [op failure_tracker rng clock trace];
    try destruct (random_uniform (1 # 10)%Q (1 # 2)%Q (rng w)) as [x g];
    (do 2 eexists; split; [reflexivity|]);
    cbn [op failure_tracker rng clock trace fst snd];
    (split;
     [first [apply Z.ltb_lt in Hlt | apply Z.ltb_ge in Hlt];
      split; intros H; first [reflexivity | exact Hlt | discriminate H | lia]
     |eexists; split; [|split; [|split; [|
        unfold FailureTracker.log_failure, FailureTracker.increment_failure_counter,
               FailureTracker._save_data;
        cbn [FailureTracker.data FailureTracker.failure_log snd fst];
        apply Hcut]]]; reflexivity]).
Qed.

Lemma retry_loop_logs n : forall a (w : W) max_retries,
  a + Z.of_nat n = max_retries ->
  (List.length (log_of w) <= 100)%nat ->
  exists r w' added,
    loop max_retries (py_range a (max_retries + 1)) w = (Ok r, w') /\
    log_of w' = FailureTracker.last_100 (log_of w ++ added) /\
    Forall (fun e => FailureTracker.type e = "retry_attempt") added /\
    map FailureTracker.retry_count added
    = py_range a (a + Z.of_nat (List.length added)) /\
    match r with
    | Some _ => (List.length added <= n)%nat
    | None => List.length added = S n
    end.
Proof.
  assert (Hkeep : forall l : list FailureTracker.Entry,
            (List.length l <= 100)%nat -> FailureTracker.last_100 l = l).
  { intros l Hl. unfold FailureTracker.last_100.
    now replace (List.length l - 100)%nat with 0%nat by lia. }
  assert (Hone : forall a e, FailureTracker.retry_count e = a ->
            map FailureTracker.retry_count [e] = py_range a (a + Z.of_nat 1)).
  { intros a e He. rewrite py_range_cons by lia.
    rewrite py_range_nil by lia. simpl. now rewrite He. }
  induction n as [|n IH]; intros a w max_retries Ha Hlen;
    rewrite py_range_cons by lia; cbn [retry_loop]; unfold Eff.bind;
    destruct (retry_attempt_logs w max_retries a) as (r & w1 & -> & Hr).
  - rewrite (py_range_nil (a + 1)) by lia.
    destruct r as [[v|]|].
    + exists (Some v), w1, []. split; [reflexivity|].
      rewrite app_nil_r, Hkeep by exact Hlen.
      split; [exact Hr|]. split; [constructor|].
      split; [now rewrite py_range_nil by (simpl; lia)|]. simpl. lia.
    + destruct Hr as (_ & e & Ht & Hc & _ & Hlog).
      exists None, w1, [e]. split; [reflexivity|]. split; [exact Hlog|].
      split; [now repeat constructor|]. split; [now apply Hone|reflexivity].
    + destruct Hr as (Hlt & _). pose proof (proj1 Hlt eq_refl). lia.
  - destruct r as [[v|]|].
    + exists (Some v), w1, []. split; [reflexivity|].
      rewrite app_nil_r, Hkeep by exact Hlen.
      split; [exact Hr|]. split; [constructor|].
      split; [now rewrite py_range_nil by (simpl; lia)|]. simpl. lia.
    + destruct Hr as (Hlt & _).
      assert (a < max_retries) by lia.
      pose proof (proj2 Hlt H) as Habs. discriminate Habs.
    + destruct Hr as (_ & e & Ht & Hc & _ & Hlog).
      assert (Hlen1 : (List.length (log_of w1) <= 100)%nat)
        by (rewrite Hlog, last_100_length; lia).
      destruct (IH (a + 1) w1 max_retries ltac:(lia) Hlen1)
        as (r & w' & added & -> & Hlog' & Hall & Hnum & Hr').
      exists r, w', (e :: added). split; [reflexivity|].
      split; [|split; [|split]].
      * rewrite Hlog', Hlog, last_100_app_l, <- app_assoc. reflexivity.
      * constructor; assumption.
      * cbn [map List.length]. rewrite Hnum, Hc.
        rewrite (py_range_cons a) by lia. f_equal. f_equal. lia.
      * destruct r; cbn [List.length]; lia.
Qed.

(** X17.  [retry_with_backoff] writes one entry to the failure log for
    every failed call and none for a successful one: on a log of at most
    100 entries and with a maximum of at least 1, the log afterwards is the
    last 100 entries of the old log followed by the new entries, which are
    all of type [retry_attempt] and carry the attempt numbers 1, 2, ... in
    order; there are [max_retries] of them when [None] is returned and
    fewer when a result is. *)
Theorem retry_with_backoff_logs_every_failed_attempt :
  forall (w : W) max_retries,
    1 <= max_retries ->
    (List.length (log_of w) <= 100)%nat ->
    exists r w' added,
      retry max_retries w = (Ok r, w') /\
      log_of w' = FailureTracker.last_100 (log_of w ++ added) /\
      Forall (fun e => FailureTracker.type e = "retry_attempt") added /\
      map FailureTracker.retry_count added
      = py_range 1 (1 + Z.of_nat (List.length added)) /\
      match r with
      | Some _ => Z.of_nat (List.length added) < max_retries
      | None => Z.of_nat (List.length added) = max_retries
      end.
Proof.
  intros w max_retries Hmax Hlen. unfold retry_with_backoff.
  destruct (retry_loop_logs (Z.to_nat (max_retries - 1)) 1 w max_retries
              ltac:(lia) Hlen) as (r & w' & added & Hrun & Hlog & Hall & Hnum & Hr).
  exists r, w', added. split; [exact Hrun|]. split; [exact Hlog|].
  split; [exact Hall|]. split; [exact Hnum|]. destruct r; lia.
Qed.

Local Abbreviation safe :=
  (safe_execute A OpState func Rng random_uniform Clock datetime_now elapse).
Local Abbreviation post :=
  (post_with_retry A OpState func Rng random_uniform Clock datetime_now elapse).

(** X18.  [safe_execute] does exactly what [retry_with_backoff] does with
    the default maximum: its own exception handler is never entered, so a
    failed run is counted once, not twice. *)
Theorem safe_execute_is_retry_with_backoff :
  forall w : W,
    safe w = retry MAX_RETRY_ATTEMPTS w /\
    exists r w', safe w = (Ok r, w') /\
                 failures w' = failures w + match r with Some _ => 0 | None => 1 end.
Proof.
  intros w.
  destruct (retry_with_backoff_never_raises A OpState func Rng random_uniform
              Clock datetime_now elapse MAX_RETRY_ATTEMPTS w) as (r & w' & Hrun).
  assert (Hsafe : safe w = retry MAX_RETRY_ATTEMPTS w).
  { unfold safe_execute, Eff.try_except. now rewrite Hrun. }
  split; [exact Hsafe|].
  exists r, w'. split; [now rewrite Hsafe|].
  unfold retry_with_backoff in Hrun.
  destruct (retry_loop_accounts 4 1 w MAX_RETRY_ATTEMPTS eq_refl)
    as (r0 & w0 & k & Hrun0 & _ & _ & _ & Hr).
  rewrite Hrun in Hrun0. inversion Hrun0; subst r0 w0.
  destruct r as [v|]; [lia|]. destruct Hr as [_ Hf]. lia.
Qed.

(** X19.  [post_with_retry] never raises.  It returns [True] exactly when
    the posting function returned a value (whatever value) within 5 calls,
    and then the failure counter is unchanged; it returns [False] after
    exactly 5 failed calls, and then the failure counter is one higher. *)
Theorem post_with_retry_reports_the_outcome :
  forall w : W,
    exists posted w' k,
      post w = (Ok posted, w') /\
      (1 <= k <= 5)%nat /\
      count_calls (trace w') = (count_calls (trace w) + k)%nat /\
      (if posted
       then failures w' = failures w /\
            exists v, retry MAX_RETRY_ATTEMPTS w = (Ok (Some v), w')
       else k = 5%nat /\ failures w' = failures w + 1 /\
            retry MAX_RETRY_ATTEMPTS w = (Ok None, w')).
Proof.
  intros w.
  destruct (retry_loop_accounts 4 1 w MAX_RETRY_ATTEMPTS eq_refl)
    as (r & w' & k & Hrun & Hk & Hc & _ & Hr).
  assert (Hretry : retry MAX_RETRY_ATTEMPTS w = (Ok r, w')) by exact Hrun.
  unfold post_with_retry, Eff.try_except, Eff.bind at 1, execute_with_retry.
  rewrite Hretry.
  destruct r as [v|].
  - exists true, w', k. split; [reflexivity|]. split; [exact Hk|].
    split; [exact Hc|]. split; [exact Hr|]. now exists v.
  - destruct Hr as [Hk' Hf]. exists false, w', k. split; [reflexivity|].
    split; [exact Hk|]. split; [exact Hc|]. repeat split; assumption.
Qed.

End RetryMore.

Lemma retry_with_backoff_accounts_for_every_call_witness :
  1 <= 3 /\
  exists r w' k,
    Scripted.retry (Scripted.flaky 4 "posted") 3 (Scripted.world 7) = (Ok r, w') /\
    1 <= Z.of_nat k <= 3 /\
    count_calls (trace w') = k /\
    List.length (sleeps (trace w')) = (k - 1)%nat /\
    match r with
    | Some _ => FailureTracker.total_failures (FailureTracker.data (failure_tracker w')) = 7
    | None => Z.of_nat k = 3 /\ FailureTracker.total_failures (FailureTracker.data (failure_tracker w')) = 8
    end.
Proof.
  split; [lia|].
  destruct (retry_with_backoff_accounts_for_every_call
              string nat (Scripted.flaky 4 "posted") unit Scripted.midpoint nat
              Scripted.stamp Scripted.tick (Scripted.world 7) 3 ltac:(lia))
    as (r & w' & k & Hrun & Hk & Hc & Hs & Hr).
  exists r, w', k. split; [exact Hrun|]. split; [exact Hk|].
  split; [exact Hc|]. split; [exact Hs|exact Hr].
Defined.

Lemma retry_with_backoff_logs_every_failed_attempt_witness :
  let w := Scripted.world 7 in
  1 <= 5 /\
  (List.length (FailureTracker.failure_log
                  (FailureTracker.data (failure_tracker w))) <= 100)%nat /\
  exists w' added,
    Scripted.retry (Scripted.flaky 3 "posted") 5 w = (Ok (Some "posted"), w') /\
    FailureTracker.failure_log (FailureTracker.data (failure_tracker w')) = added /\
    map FailureTracker.retry_count added = [1; 2; 3].
Proof.
  intros w.
  assert (Hlen : (List.length (FailureTracker.failure_log
                    (FailureTracker.data (failure_tracker w))) <= 100)%nat)
    by (simpl; lia).
  split; [lia|]. split; [exact Hlen|].
  destruct (retry_with_backoff_logs_every_failed_attempt
              string nat (Scripted.flaky 3 "posted") unit Scripted.midpoint nat
              Scripted.stamp Scripted.tick w 5 ltac:(lia) Hlen)
    as (r & w' & added & Hrun & Hlog & _ & _ & _).
  assert (Hr : r = Some "posted").
  { assert (H : fst (Scripted.retry (Scripted.flaky 3 "posted") 5 w) = Ok r)
      by (unfold Scripted.retry; now rewrite Hrun).
    vm_compute in H. congruence. }
  subst r. exists w', (FailureTracker.failure_log
                         (FailureTracker.data (failure_tracker w'))).
  split; [exact Hrun|]. split; [reflexivity|].
  assert (Hw : w' = snd (Scripted.retry (Scripted.flaky 3 "posted") 5 w))
    by (unfold Scripted.retry; now rewrite Hrun).
  rewrite Hw. vm_compute. reflexivity.
Defined.

(* ===================================================================== *)
(** * The failure log                                                     *)
(* ===================================================================== *)

(** X20.  [log_failure] appends the new entry and keeps at most the 100
    most recent entries: the new log is a suffix of the old log followed by
    the new entry, the new entry is its last item, its length is
    [min (old length + 1, 100)]; the counter is untouched and the file
    holds the new data. *)
Theorem log_failure_keeps_the_last_100 :
  forall now error_type details retry_count (self : FailureTracker.t),
    let entry :=
      {| FailureTracker.timestamp := now; FailureTracker.type := error_type;
         FailureTracker.details := details;
         FailureTracker.retry_count := retry_count |} in
    let old := FailureTracker.failure_log (FailureTracker.data self) in
    let self' := FailureTracker.log_failure now error_type details retry_count self in
    let new := FailureTracker.failure_log (FailureTracker.data self') in
    (exists evicted kept,
       old = (evicted ++ kept)%list /\ new = (kept ++ [entry])%list) /\
    List.length new = Nat.min (List.length old + 1) 100 /\
    FailureTracker.total_failures (FailureTracker.data self')
    = FailureTracker.total_failures (FailureTracker.data self) /\
    FailureTracker.file self' = Some (FailureTracker.data self').
Proof.
  intros now error_type details retry_count self entry old self' new.
  unfold self', new, FailureTracker.log_failure. cbn.
  fold entry. fold old.
  destruct (Z.of_nat (List.length (old ++ [entry])) >? 100) eqn:E.
  - rewrite last_100_snoc. split; [|split; [|split; reflexivity]].
    + exists (firstn (List.length (old ++ [entry]) - 100) old),
             (skipn (List.length (old ++ [entry]) - 100) old).
      split; [now rewrite firstn_skipn|reflexivity].
    + rewrite length_app, length_skipn, length_app. simpl.
      rewrite Z.gtb_ltb in E. apply Z.ltb_lt in E. rewrite length_app in E.
      simpl in E. lia.
  - split; [|split; [|split; reflexivity]].
    + exists [], old. split; reflexivity.
    + rewrite Z.gtb_ltb in E. apply Z.ltb_ge in E. rewrite length_app in *.
      simpl in *. lia.
Qed.

Lemma apply_failure_op_spec o (self : FailureTracker.t) :
  let self' := apply_failure_op o self in
  FailureTracker.total_failures (FailureTracker.data self')
  = FailureTracker.total_failures (FailureTracker.data self)
    + (if is_increment o then 1 else 0) /\
  List.length (FailureTracker.failure_log (FailureTracker.data self'))
  = (if is_increment o
     then List.length (FailureTracker.failure_log (FailureTracker.data self))
     else Nat.min (List.length (FailureTracker.failure_log (FailureTracker.data self)) + 1) 100) /\
  FailureTracker.file self' = Some (FailureTracker.data self').
Proof.
  destruct o as [now error_type details retry_count|now]; cbn [apply_failure_op is_increment].
  - unfold FailureTracker.log_failure. cbn.
    set (log := (FailureTracker.failure_log (FailureTracker.data self) ++ _)%list).
    split; [lia|]. split; [|reflexivity].
    destruct (Z.of_nat (List.length log) >? 100) eqn:E.
    + rewrite last_100_length. unfold log in *. rewrite length_app in *. simpl in *.
      rewrite Z.gtb_ltb in E. apply Z.ltb_lt in E. lia.
    + unfold log in *. rewrite length_app in *. simpl in *.
      rewrite Z.gtb_ltb in E. apply Z.ltb_ge in E. lia.
  - cbn. repeat split.
Qed.

(** X21.  Over any sequence of [log_failure] and
    [increment_failure_counter] calls on a tracker whose log has at most
    100 entries, the log never exceeds 100 entries, the counter grows by
    the number of increments, and after every call the file holds exactly
    the data in memory, so that a restart ([__init__] reading the file)
    finds the same counter and the same log. *)
Theorem failure_tracker_stays_bounded_and_persisted :
  forall ops (self : FailureTracker.t) now',
    (List.length (FailureTracker.failure_log (FailureTracker.data self)) <= 100)%nat ->
    let self' := run_failure_ops ops self in
    (List.length (FailureTracker.failure_log (FailureTracker.data self')) <= 100)%nat /\
    FailureTracker.total_failures (FailureTracker.data self')
    = FailureTracker.total_failures (FailureTracker.data self)
      + Z.of_nat (List.length (filter is_increment ops)) /\
    (ops <> [] ->
     FailureTracker.file self' = Some (FailureTracker.data self') /\
     FailureTracker.data (FailureTracker.init now' (FailureTracker.file self'))
     = FailureTracker.data self').
Proof.
  intros ops self now' Hlen self'. unfold self'. clear self'.
  revert self Hlen.
  induction ops as [|o ops IH]; intros self Hlen; cbn [run_failure_ops fold_left].
  - split; [exact Hlen|]. split; [simpl; lia|]. intros H. contradiction.
  - pose proof (apply_failure_op_spec o self) as Hstep. cbv zeta in Hstep.
    destruct Hstep as (Ht & Hl & Hfile).
    assert (Hlen1 : (List.length (FailureTracker.failure_log
                       (FailureTracker.data (apply_failure_op o self))) <= 100)%nat).
    { rewrite Hl. destruct (is_increment o); lia. }
    destruct (IH _ Hlen1) as (Hlen' & Ht' & Hfile').
    fold (run_failure_ops ops (apply_failure_op o self)) in *.
    split; [exact Hlen'|]. split.
    + rewrite Ht', Ht. simpl. destruct (is_increment o); simpl; lia.
    + intros _. destruct ops as [|o' ops'].
      * cbn [run_failure_ops fold_left]. split; [exact Hfile|]. now rewrite Hfile.
      * apply Hfile'. discriminate.
Qed.

Lemma failure_tracker_stays_bounded_and_persisted_witness :
  let fresh := FailureTracker.init "t0" None in
  let ops := [FLog "t1" "retry_attempt" "Attempt 1: timeout" 1;
              FIncrement "t2"; FLog "t3" "retry_attempt" "Attempt 1: quota" 1] in
  (List.length (FailureTracker.failure_log (FailureTracker.data fresh)) <= 100)%nat /\
  FailureTracker.total_failures (FailureTracker.data (run_failure_ops ops fresh)) = 1 /\
  FailureTracker.data
    (FailureTracker.init "t9" (FailureTracker.file (run_failure_ops ops fresh)))
  = FailureTracker.data (run_failure_ops ops fresh).
Proof.
  intros fresh ops.
  assert (Hlen : (List.length (FailureTracker.failure_log (FailureTracker.data fresh))
                  <= 100)%nat) by (simpl; lia).
  split; [exact Hlen|].
  destruct (failure_tracker_stays_bounded_and_persisted ops fresh "t9" Hlen)
    as (_ & Ht & Hfile).
  split; [exact Ht|]. apply Hfile. discriminate.
Defined.

Lemma filter_same_length {X} (f : X -> bool) l :
  List.length (filter f l) = List.length l -> filter f l = l.
Proof.
  induction l as [|x l IH]; simpl; [reflexivity|].
  destruct (f x) eqn:E; simpl; intros H.
  - f_equal. apply IH. lia.
  - pose proof (filter_length_le f l). lia.
Qed.

Lemma filter_idempotent {X} (f : X -> bool) l : filter f (filter f l) = filter f l.
Proof.
  induction l as [|x l IH]; simpl; [reflexivity|].
  destruct (f x) eqn:E; simpl; [rewrite E|]; congruence.
Qed.

Section FailureQueriesFacts.
Variable fromisoformat_timestamp : string -> result Q.
Variable fromisoformat_date : string -> result string.

Local Abbreviation since := (entries_since fromisoformat_timestamp).
Local Abbreviation keep := (recent_enough fromisoformat_timestamp).
Local Abbreviation recent := (get_recent_failures fromisoformat_timestamp).
Local Abbreviation clear := (clear_old_failures fromisoformat_timestamp).

Lemma entries_since_ok cutoff log kept_log :
  since cutoff log = Ok kept_log ->
  kept_log = filter (keep cutoff) log /\
  Forall (fun f => exists t, fromisoformat_timestamp (FailureTracker.timestamp f) = Ok t) log.
Proof.
  revert kept_log. induction log as [|f log IH]; intros kept_log H; simpl in *.
  - inversion H. split; [reflexivity|constructor].
  - unfold recent_enough.
    destruct (fromisoformat_timestamp (FailureTracker.timestamp f)) as [t|e] eqn:Et;
      simpl in H; [|discriminate].
    destruct (since cutoff log) as [rest|e]; simpl in H; [|discriminate].
    destruct (IH rest eq_refl) as [-> Hall]. inversion H. split.
    + unfold recent_enough at 1. destruct (Qle_bool cutoff t); reflexivity.
    + constructor; [now exists t|exact Hall].
Qed.

Lemma entries_since_raise cutoff log e :
  since cutoff log = Raise e ->
  exists bad, In bad log /\
              fromisoformat_timestamp (FailureTracker.timestamp bad) = Raise e.
Proof.
  induction log as [|f log IH]; intros H; simpl in *; [discriminate|].
  destruct (fromisoformat_timestamp (FailureTracker.timestamp f)) as [t|e'] eqn:Et;
    simpl in H.
  - destruct (since cutoff log) as [rest|e'] eqn:Es; simpl in H; [discriminate|].
    inversion H; subst e'. destruct (IH eq_refl) as (bad & Hin & Hbad).
    exists bad. split; [now right|exact Hbad].
  - inversion H; subst e'. exists f. split; [now left|exact Et].
Qed.

Lemma entries_since_total cutoff log :
  Forall (fun f => exists t, fromisoformat_timestamp (FailureTracker.timestamp f) = Ok t) log ->
  since cutoff log = Ok (filter (keep cutoff) log).
Proof.
  induction 1 as [|f log [t Ht] Hall IH]; simpl; [reflexivity|].
  unfold recent_enough at 1. rewrite Ht, IH. simpl.
  destruct (Qle_bool cutoff t); reflexivity.
Qed.

(** X22.  [clear_old_failures(days)] either raises on an entry whose
    timestamp does not parse, and then changes nothing, or returns the
    number of entries it removed: the log keeps, in order, exactly the
    entries [get_recent_failures(24 * days)] returns at the same clock; the
    counter is untouched; the file is written when something was removed,
    and when nothing was the tracker is left exactly as it was; clearing
    again at the same clock removes nothing. *)
Theorem clear_old_failures_keeps_the_recent_entries :
  forall now now_ts days (self : FailureTracker.t),
    let log := FailureTracker.failure_log (FailureTracker.data self) in
    match clear now now_ts days self with
    | (Raise e, self') =>
        self' = self /\
        exists bad, In bad log /\
                    fromisoformat_timestamp (FailureTracker.timestamp bad) = Raise e
    | (Ok removed_count, self') =>
        let log' := FailureTracker.failure_log (FailureTracker.data self') in
        recent now_ts (days * 24) self = Ok log' /\
        log' = filter (keep (now_ts - inject_Z (days * 24 * 3600))%Q) log /\
        removed_count = Z.of_nat (List.length log) - Z.of_nat (List.length log') /\
        0 <= removed_count /\
        FailureTracker.total_failures (FailureTracker.data self')
        = FailureTracker.total_failures (FailureTracker.data self) /\
        (removed_count = 0 -> self' = self) /\
        (0 < removed_count ->
         FailureTracker.file self' = Some (FailureTracker.data self')) /\
        clear now now_ts days self' = (Ok 0, self')
    end.
Proof.
  intros now now_ts days self log.
  unfold clear_old_failures, get_recent_failures. fold log.
  set (cutoff := (now_ts - inject_Z (days * 24 * 3600))%Q).
  destruct (since cutoff log) as [kept_log|e] eqn:Hs.
  - destruct (entries_since_ok _ _ _ Hs) as [Hk Hall].
    assert (Hle : (List.length kept_log <= List.length log)%nat)
      by (rewrite Hk; apply filter_length_le).
    assert (Hagain : since cutoff kept_log = Ok kept_log).
    { rewrite Hk, entries_since_total, filter_idempotent; [reflexivity|].
      apply Forall_forall. intros f Hf. apply filter_In in Hf.
      rewrite Forall_forall in Hall. apply Hall. tauto. }
    destruct (Z.of_nat (List.length log) - Z.of_nat (List.length kept_log) >? 0) eqn:E.
    + cbn. fold cutoff. rewrite Hagain.
      split; [reflexivity|]. split; [exact Hk|]. split; [reflexivity|].
      split; [lia|]. split; [reflexivity|].
      split; [rewrite Z.gtb_ltb in E; apply Z.ltb_lt in E; lia|].
      split; [reflexivity|].
      replace (Z.of_nat (List.length kept_log) - Z.of_nat (List.length kept_log))
        with 0 by lia.
      reflexivity.
    + cbn. fold cutoff. rewrite Hagain.
      rewrite Z.gtb_ltb in E. apply Z.ltb_ge in E.
      assert (Hsame : kept_log = log).
      { rewrite Hk. apply filter_same_length. rewrite <- Hk. lia. }
      split; [reflexivity|]. split; [exact Hk|]. split; [reflexivity|].
      split; [lia|]. split; [reflexivity|].
      split; [|split; [lia|]].
      * intros _. rewrite Hsame. unfold log.
        destruct self as [[total l updated] file]. reflexivity.
      * replace (Z.of_nat (List.length kept_log) - Z.of_nat (List.length kept_log))
          with 0 by lia.
        reflexivity.
  - split; [reflexivity|]. now apply entries_since_raise with cutoff.
Qed.

Lemma count_types_get t log : forall acc,
  dict_get
    (fold_left
       (fun failure_types failure =>
          dict_set failure_types (FailureTracker.type failure)
            (match dict_get failure_types (FailureTracker.type failure) with
             | Some n => n
             | None => 0
             end + 1))
       log acc) t
  = match dict_get acc t with
    | Some n => Some (n + count_type t log)
    | None => if count_type t log =? 0 then None else Some (count_type t log)
    end.
Proof.
  unfold count_type.
  induction log as [|f log IH]; intros acc; simpl.
  - destruct (dict_get acc t); [f_equal; lia|reflexivity].
  - rewrite IH. destruct (String.eqb (FailureTracker.type f) t) eqn:E.
    + apply String.eqb_eq in E. subst t. rewrite dict_get_set_eq. simpl.
      destruct (dict_get acc (FailureTracker.type f)); f_equal; lia.
    + apply String.eqb_neq in E. rewrite dict_get_set_ne by assumption.
      reflexivity.
Qed.

(** X23.  When [get_failure_stats] returns, [failure_types] maps each
    type that occurs in the log to the number of entries of that type and
    holds no other key; [total_failures] is the counter, [last_failure] the
    most recent entry ([None] for an empty log), and [today_failures] is at
    most the length of the log. *)
Theorem failure_stats_count_each_type :
  forall today (self : FailureTracker.t) stats,
    get_failure_stats fromisoformat_date today self = Ok stats ->
    let log := FailureTracker.failure_log (FailureTracker.data self) in
    (forall t,
       dict_get (FailureStats.failure_types stats) t
       = if count_type t log =? 0 then None else Some (count_type t log)) /\
    FailureStats.total_failures stats
    = FailureTracker.total_failures (FailureTracker.data self) /\
    (forall front f, log = (front ++ [f])%list ->
                     FailureStats.last_failure stats = Some f) /\
    (log = [] -> FailureStats.last_failure stats = None) /\
    0 <= FailureStats.today_failures stats <= Z.of_nat (List.length log).
Proof.
  intros today self stats H log. unfold get_failure_stats in H. fold log in H.
  destruct (entries_of_day fromisoformat_date today log) as [recent_failures|e] eqn:Hd;
    simpl in H; [|discriminate].
  inversion H; subst stats; clear H. cbn.
  split; [|split; [reflexivity|split; [|split]]].
  - intros t. unfold count_types. now rewrite count_types_get.
  - intros front f ->. rewrite length_app. simpl.
    replace (List.length front + 1 - 1)%nat with (List.length front) by lia.
    rewrite nth_error_app2 by lia. now rewrite Nat.sub_diag.
  - intros ->. reflexivity.
  - split; [lia|]. apply inj_le.
    clear -Hd. revert recent_failures Hd.
    induction log as [|f log IH]; intros r Hd; simpl in Hd.
    + inversion Hd. simpl. lia.
    + destruct (fromisoformat_date (FailureTracker.timestamp f)); simpl in Hd;
        [|discriminate].
      destruct (entries_of_day fromisoformat_date today log) as [rest|];
        simpl in Hd; [|discriminate].
      specialize (IH rest eq_refl). inversion Hd.
      destruct (String.eqb a today); simpl; lia.
Qed.

End FailureQueriesFacts.

Lemma failure_stats_count_each_type_witness :
  let self := Sample.tracker_with
                [Sample.entry "2024-01-01T10:00:00" "retry_attempt";
                 Sample.entry "2024-01-02T08:00:00" "post_error";
                 Sample.entry "2024-01-02T09:00:00" "retry_attempt"] in
  exists stats,
    get_failure_stats Sample.date_of "2024-01-02" self = Ok stats /\
    dict_get (FailureStats.failure_types stats) "retry_attempt" = Some 2 /\
    dict_get (FailureStats.failure_types stats) "timeout" = None /\
    FailureStats.today_failures stats = 2.
Proof.
  intros self. eexists. split; [reflexivity|].
  destruct (failure_stats_count_each_type Sample.date_of "2024-01-02" self _ eq_refl)
    as (Htypes & _).
  split; [|split].
  - rewrite Htypes. reflexivity.
  - rewrite Htypes. reflexivity.
  - reflexivity.
Defined.

(* ===================================================================== *)
(** * The database of posted articles                                     *)
(* ===================================================================== *)

Lemma str_in_iff x l : str_in x l = true <-> In x l.
Proof.
  unfold str_in. rewrite existsb_exists. split.
  - intros (y & Hy & E). apply String.eqb_eq in E. now subst.
  - intros H. exists x. split; [exact H|apply String.eqb_refl].
Qed.

Lemma str_in_snoc x l y : str_in x (l ++ [y]) = str_in x l || String.eqb x y.
Proof. unfold str_in. rewrite existsb_app. simpl. now rewrite orb_false_r. Qed.

Lemma sum_values_bump d k :
  sum_values (dict_set d k (match dict_get d k with Some n => n | None => 0 end + 1))
  = sum_values d + 1.
Proof.
  induction d as [|[k' v'] d IH]; simpl; [lia|].
  destruct (String.eqb k k') eqn:E; simpl; [lia|].
  unfold sum_values in *. simpl. rewrite IH. lia.
Qed.

Section NewsDatabaseFacts.
Variable Article : Type.

Local Abbreviation Db := (NewsDatabase.t Article).
Local Abbreviation mark := (NewsDatabase.mark_as_posted Article).
Local Abbreviation posted := (NewsDatabase.is_already_posted Article).
Local Abbreviation hashes db :=
  (NewsDatabase.posted_hashes Article (NewsDatabase.data Article db)).
Local Abbreviation stats db :=
  (NewsDatabase.analytics Article (NewsDatabase.data Article db)).
Local Abbreviation failed db :=
  (NewsDatabase.failed_articles Article (NewsDatabase.data Article db)).

(** X24.  [mark_as_posted] makes [is_already_posted] true for its hash
    and leaves the answer for every other hash as it was; marking a hash
    that is already posted changes nothing at all, so marking twice is the
    same as marking once and a post is never counted twice. *)
Theorem mark_as_posted_is_idempotent :
  forall h m m' (db : NewsDatabase.t Article),
    let db' := NewsDatabase.mark_as_posted Article h m db in
    NewsDatabase.is_already_posted Article h db' = true /\
    (forall h', h' <> h ->
       NewsDatabase.is_already_posted Article h' db'
       = NewsDatabase.is_already_posted Article h' db) /\
    (NewsDatabase.is_already_posted Article h db = true -> db' = db) /\
    NewsDatabase.mark_as_posted Article h m' db' = db'.
Proof.
  intros h m m' db db'. unfold db'. clear db'.
  assert (Hposted : posted h (mark h m db) = true).
  { unfold NewsDatabase.mark_as_posted, NewsDatabase.is_already_posted.
    destruct (str_in h (hashes db)) eqn:E; simpl; [exact E|].
    rewrite str_in_snoc, String.eqb_refl. apply orb_true_r. }
  assert (Hsame : forall d : Db, posted h d = true -> mark h m' d = d /\ mark h m d = d).
  { intros d Hd. unfold NewsDatabase.mark_as_posted, NewsDatabase.is_already_posted in *.
    rewrite Hd. split; reflexivity. }
  split; [exact Hposted|]. split; [|split].
  - intros h' Hne. unfold NewsDatabase.mark_as_posted, NewsDatabase.is_already_posted.
    destruct (str_in h (hashes db)); simpl; [reflexivity|].
    rewrite str_in_snoc.
    assert (String.eqb h' h = false) as -> by now apply String.eqb_neq.
    apply orb_false_r.
  - intros Hd. apply (Hsame db Hd).
  - apply (Hsame _ Hposted).
Qed.

Lemma mark_as_posted_keeps_invariant h m (db : Db) :
  NoDup (hashes db) ->
  NewsDatabase.total_posts (stats db) = Z.of_nat (List.length (hashes db)) ->
  sum_values (NewsDatabase.posts_by_model (stats db))
  <= NewsDatabase.total_posts (stats db) ->
  NoDup (hashes (mark h m db)) /\
  NewsDatabase.total_posts (stats (mark h m db))
  = Z.of_nat (List.length (hashes (mark h m db))) /\
  sum_values (NewsDatabase.posts_by_model (stats (mark h m db)))
  <= NewsDatabase.total_posts (stats (mark h m db)) /\
  (forall x, In x (hashes (mark h m db)) <-> In x (hashes db) \/ x = h).
Proof.
  intros Hnd Htotal Hsum. unfold NewsDatabase.mark_as_posted.
  destruct (str_in h (hashes db)) eqn:E; simpl.
  - apply str_in_iff in E. repeat split; try assumption; [tauto|].
    intros [H| ->]; assumption.
  - assert (Hnotin : ~ In h (hashes db)).
    { intros H. apply str_in_iff in H. congruence. }
    split; [|split; [|split]].
    + apply NoDup_app; try assumption.
      * repeat constructor. intros [].
      * intros x Hx [<-|[]]. contradiction.
    + rewrite length_app. simpl. lia.
    + destruct m as [model|]; [|lia].
      destruct (String.eqb model ""); [lia|].
      rewrite sum_values_bump. lia.
    + intros x. rewrite in_app_iff. simpl. intuition.
Qed.

(** X25.  From an empty database, after any sequence of [mark_as_posted]
    calls: no hash is stored twice, the stored hashes are exactly the
    hashes that were marked, [total_posts] is the number of stored hashes,
    and the per-model counts add up to at most [total_posts]. *)
Theorem posted_hashes_are_counted_once :
  forall posts : list (string * option string),
    let db := run_posts posts (NewsDatabase.init Article None) in
    NoDup (hashes db) /\
    (forall h, In h (hashes db) <-> In h (map fst posts)) /\
    NewsDatabase.total_posts (stats db) = Z.of_nat (List.length (hashes db)) /\
    sum_values (NewsDatabase.posts_by_model (stats db))
    <= NewsDatabase.total_posts (stats db).
Proof.
  intros posts.
  assert (Hgen : forall (ps : list (string * option string)) (d : Db),
            NoDup (hashes d) ->
            NewsDatabase.total_posts (stats d) = Z.of_nat (List.length (hashes d)) ->
            sum_values (NewsDatabase.posts_by_model (stats d))
            <= NewsDatabase.total_posts (stats d) ->
            let d' := run_posts ps d in
            NoDup (hashes d') /\
            (forall h, In h (hashes d') <-> In h (hashes d) \/ In h (map fst ps)) /\
            NewsDatabase.total_posts (stats d') = Z.of_nat (List.length (hashes d')) /\
            sum_values (NewsDatabase.posts_by_model (stats d'))
            <= NewsDatabase.total_posts (stats d')).
  { induction ps as [|[h m] ps IH]; intros d Hnd Ht Hs; cbn [run_posts fold_left].
    - repeat split; try assumption; [tauto|]. intros [H|[]]. exact H.
    - destruct (mark_as_posted_keeps_invariant h m d Hnd Ht Hs)
        as (Hnd1 & Ht1 & Hs1 & Hin1).
      destruct (IH _ Hnd1 Ht1 Hs1) as (Hnd' & Hin' & Ht' & Hs').
      cbn [fst snd]. split; [exact Hnd'|]. split; [|split; assumption].
      intros x. rewrite Hin', Hin1. simpl. intuition. }
  destruct (Hgen posts (NewsDatabase.init Article None)) as (Hnd & Hin & Ht & Hs).
  - constructor.
  - reflexivity.
  - simpl. lia.
  - split; [exact Hnd|]. split; [|split; assumption].
    intros h. rewrite Hin. simpl. tauto.
Qed.

(** X26.  [clear_failed_article] with an index that is negative or not
    below the length of the list changes nothing; with an index in range it
    removes exactly the item at that index, the items before it keep their
    place and the later ones move up by one; and clearing the index at
    which [add_failed_article] has just stored an article gives back the
    list as it was before. *)
Theorem clear_failed_article_removes_one_item :
  forall index (db : Db),
    let l := failed db in
    let db' := NewsDatabase.clear_failed_article Article index db in
    ((index < 0 \/ Z.of_nat (List.length l) <= index) -> db' = db) /\
    (0 <= index < Z.of_nat (List.length l) ->
     S (List.length (failed db')) = List.length l /\
     (forall i, (i < Z.to_nat index)%nat -> nth_error (failed db') i = nth_error l i) /\
     (forall i, (Z.to_nat index <= i)%nat ->
                nth_error (failed db') i = nth_error l (S i)) /\
     hashes db' = hashes db /\ stats db' = stats db /\
     NewsDatabase.file Article db' = Some (NewsDatabase.data Article db')) /\
    (forall now a,
       failed (NewsDatabase.clear_failed_article Article
                 (Z.of_nat (List.length l))
                 (NewsDatabase.add_failed_article Article now a db))
       = l).
Proof.
  intros index db l db'. unfold db', NewsDatabase.clear_failed_article. fold l.
  split; [|split].
  - intros Hout.
    assert ((0 <=? index) && (index <? Z.of_nat (List.length l)) = false) as ->;
      [|reflexivity].
    apply andb_false_iff. destruct Hout; [left; lia|right; lia].
  - intros Hin.
    assert ((0 <=? index) && (index <? Z.of_nat (List.length l)) = true) as ->
      by (apply andb_true_iff; split; lia).
    cbn. unfold NewsDatabase.list_pop.
    set (n := Z.to_nat index). assert (Hn : (n < List.length l)%nat) by lia.
    split; [|split; [|split; [|repeat split]]].
    + rewrite length_app, length_firstn, length_skipn. lia.
    + intros i Hi. rewrite nth_error_app1 by (rewrite length_firstn; lia).
      rewrite nth_error_firstn.
      assert ((i <? n)%nat = true) as -> by (apply Nat.ltb_lt; lia). reflexivity.
    + intros i Hi.
      change (nth_error (firstn n l ++ skipn (S n) l) i = nth_error l (S i)).
      rewrite nth_error_app2 by (rewrite length_firstn; lia).
      rewrite length_firstn, nth_error_skipn. f_equal. lia.
  - intros now a. cbn.
    rewrite length_app. simpl. fold l.
    assert ((0 <=? Z.of_nat (List.length l))
            && (Z.of_nat (List.length l) <? Z.of_nat (List.length l + 1)) = true) as ->
      by (apply andb_true_iff; split; [apply Z.leb_le|apply Z.ltb_lt]; lia).
    cbn. unfold NewsDatabase.list_pop. rewrite Nat2Z.id.
    rewrite skipn_all2 by (rewrite length_app; simpl; lia).
    rewrite firstn_app, Nat.sub_diag, firstn_all. simpl.
    now rewrite !app_nil_r.
Qed.

End NewsDatabaseFacts.

(* ===================================================================== *)
(** * The selection of diverse articles                                   *)
(* ===================================================================== *)

Lemma subsequence_refl {X} (l : list X) : subsequence l l.
Proof. induction l; constructor; assumption. Qed.

Lemma subsequence_nil_l {X} (l : list X) : subsequence [] l.
Proof. induction l; constructor; assumption. Qed.

Lemma ForallOrdPairs_snoc {X} (R : X -> X -> Prop) (l : list X) (x : X) :
  ForallOrdPairs R l -> Forall (fun y => R y x) l -> ForallOrdPairs R (l ++ [x]).
Proof.
  induction 1 as [|a l Ha Hl IH]; intros Hx; simpl.
  - repeat constructor.
  - inversion Hx as [|? ? Hax Hlx]; subst. constructor.
    + apply Forall_app. split; [exact Ha|]. now constructor.
    + now apply IH.
Qed.

Section ContentFilterFacts.
Variable Article : Type.
Variable calculate_similarity : Article -> Article -> Q.

Local Abbreviation diverse := (is_diverse Article calculate_similarity).
Local Abbreviation loop := (diversity_loop Article calculate_similarity).
Local Abbreviation upto := (ensure_diversity_upto Article calculate_similarity).
Local Abbreviation apart :=
  (fun earlier later : Article => (calculate_similarity later earlier <= 7 # 10)%Q).

Lemma is_diverse_true a selected :
  diverse a selected = true <-> Forall (fun s => apart s a) selected.
Proof.
  induction selected as [|s rest IH]; simpl.
  - split; [constructor|reflexivity].
  - destruct (Qltb (7 # 10) (calculate_similarity a s)) eqn:E.
    + split; [discriminate|]. intros H. inversion H as [|? ? Hs _]; subst.
      apply Qltb_true in E. exfalso. now apply (Qlt_not_le _ _ E).
    + apply Qltb_false in E. rewrite IH. split.
      * intros H. now constructor.
      * intros H. now inversion H.
Qed.

Lemma is_diverse_false a selected :
  diverse a selected = false ->
  exists s, In s selected /\ (7 # 10 < calculate_similarity a s)%Q.
Proof.
  induction selected as [|s rest IH]; simpl; [discriminate|].
  destruct (Qltb (7 # 10) (calculate_similarity a s)) eqn:E.
  - intros _. exists s. split; [now left|now apply Qltb_true].
  - intros H. destruct (IH H) as (s' & Hin & Hs'). exists s'. split; [now right|exact Hs'].
Qed.

(** The loop only appends: articles of the input that are not too similar
    to any selected one, in their order. *)
Lemma diversity_loop_spec limit : forall articles selected,
  ForallOrdPairs apart selected ->
  exists added,
    loop limit articles selected = (selected ++ added)%list /\
    subsequence added articles /\
    ForallOrdPairs apart (selected ++ added) /\
    Z.of_nat (List.length (selected ++ added))
    <= Z.max limit (Z.of_nat (List.length selected) + 1) /\
    (Z.of_nat (List.length (selected ++ added)) < limit ->
     forall a, In a articles ->
       In a added \/
       exists s, In s (selected ++ added) /\ (7 # 10 < calculate_similarity a s)%Q).
Proof.
  induction articles as [|a rest IH]; intros selected Hsel; cbn [diversity_loop].
  - exists []. rewrite app_nil_r. split; [reflexivity|].
    split; [constructor|]. split; [exact Hsel|]. split; [lia|].
    intros _ x [].
  - destruct (diverse a selected) eqn:Hd.
    + assert (Hsel' : ForallOrdPairs apart (selected ++ [a]))
        by (apply ForallOrdPairs_snoc; [exact Hsel|now apply is_diverse_true]).
      destruct (Z.of_nat (List.length (selected ++ [a])) >=? limit) eqn:Hlim.
      * exists [a]. split; [reflexivity|].
        split; [constructor; apply subsequence_nil_l|]. split; [exact Hsel'|].
        rewrite length_app in *. cbn [List.length] in *.
        split; [lia|]. intros Hlt. apply Z.geb_le in Hlim. lia.
      * destruct (IH (selected ++ [a])%list Hsel')
          as (added & -> & Hsub & Hfop & Hlen & Hmax).
        rewrite Z.geb_leb in Hlim. apply Z.leb_gt in Hlim.
        exists (a :: added). rewrite <- app_assoc in *. cbn [app] in *.
        split; [reflexivity|]. split; [now constructor|]. split; [exact Hfop|].
        rewrite !length_app in *. cbn [List.length] in *.
        split; [lia|]. intros Hlt x [<-|Hx]; [left; now left|].
        destruct (Hmax Hlt x Hx) as [Hin|Hs]; [left; now right|now right].
    + destruct (Z.of_nat (List.length selected) >=? limit) eqn:Hlim.
      * exists []. rewrite app_nil_r. split; [reflexivity|].
        split; [apply subsequence_nil_l|]. split; [exact Hsel|].
        split; [lia|]. intros Hlt. apply Z.geb_le in Hlim. lia.
      * destruct (IH selected Hsel) as (added & -> & Hsub & Hfop & Hlen & Hmax).
        exists added. split; [reflexivity|]. split; [now constructor|].
        split; [exact Hfop|]. split; [exact Hlen|].
        intros Hlt x [<-|Hx].
        -- right. destruct (is_diverse_false _ _ Hd) as (s & Hin & Hs).
           exists s. split; [apply in_or_app; now left|exact Hs].
        -- apply (Hmax Hlt x Hx).
Qed.

(** X27.  Whatever the limit, [ensure_diversity] returns articles of its
    input in their order, beginning with the first one; no article it
    returns is more than 0.7 similar to one it returns before it; it
    returns at most [limit] articles, or 2 when the limit is below 2; and
    when it returns fewer than [limit], every article it left out is more
    than 0.7 similar to one it returns.  With the limit of 1 that is
    configured it returns two articles whenever the second is not too
    similar to the first. *)
Theorem ensure_diversity_selects_dissimilar_articles :
  forall limit articles,
    let result := upto limit articles in
    subsequence result articles /\
    firstn 1 result = firstn 1 articles /\
    ForallOrdPairs apart result /\
    Z.of_nat (List.length result) <= Z.max limit 2 /\
    (Z.of_nat (List.length result) < limit ->
     forall a, In a articles ->
       In a result \/
       exists s, In s result /\ (7 # 10 < calculate_similarity a s)%Q) /\
    (forall first second rest,
       articles = first :: second :: rest ->
       (calculate_similarity second first <= 7 # 10)%Q ->
       ensure_diversity Article calculate_similarity articles = [first; second]).
Proof.
  intros limit articles result. unfold result, ensure_diversity_upto.
  destruct articles as [|first [|second rest]].
  - cbn. split; [constructor|]. split; [reflexivity|]. split; [constructor|].
    split; [lia|]. split; [intros _ a []|discriminate].
  - cbn. split; [apply subsequence_refl|]. split; [reflexivity|].
    split; [repeat constructor|]. split; [lia|].
    split; [intros _ a Ha; now left|discriminate].
  - assert ((Z.of_nat (List.length (first :: second :: rest)) <=? 1) = false) as ->
      by (apply Z.leb_gt; cbn [List.length]; lia).
    destruct (diversity_loop_spec limit (second :: rest) [first])
      as (added & Hrun & Hsub & Hfop & Hlen & Hmax); [repeat constructor|].
    rewrite Hrun. cbn [app] in *. split; [now constructor|].
    split; [reflexivity|]. split; [exact Hfop|].
    cbn [List.length] in Hlen. split; [cbn [List.length]; lia|]. split.
    + intros Hlt a [<-|Ha]; [left; now left|].
      destruct (Hmax Hlt a Ha) as [Hin|Hs]; [left; now right|now right].
    + intros f s r Heq Hsim. inversion Heq; subst f s r.
      unfold ensure_diversity, ensure_diversity_upto.
      assert ((Z.of_nat (List.length (first :: second :: rest)) <=? 1) = false) as ->
        by (apply Z.leb_gt; cbn [List.length]; lia).
      cbn [diversity_loop is_diverse].
      apply Qltb_false in Hsim. rewrite Hsim. reflexivity.
Qed.

End ContentFilterFacts.
